(** * RAID5 over BUSE: address translation, I/O engine and rebuild

    A shallow embedding of [raid5.c]: the logical-to-physical mapping, the
    read and write callbacks handed to the block-device shim, the start-up
    rebuild, and the start-up sequence of [main].  Back-end devices are
    byte lists of fixed capacity; the C integers are [Z] with the
    conversions of the source written out. *)

From Stdlib Require Import ZArith Lia Bool String Ascii.
From stdpp Require Import base tactics option list list_numbers.

Local Open Scope Z_scope.

(** ** Machine integers *)

Module Mach.

(** [uint64_t], [uint32_t]: arithmetic modulo the width. *)
Definition u64 (x : Z) : Z := x mod 2 ^ 64.
Definition u32 (x : Z) : Z := x mod 2 ^ 32.

(** Conversion to [int] (two's complement, as gcc and clang define it). *)
Definition s32 (x : Z) : Z := (x + 2 ^ 31) mod 2 ^ 32 - 2 ^ 31.

Definition INT_MAX : Z := 2 ^ 31 - 1.
Definition INT_MIN : Z := - 2 ^ 31.

(** [a * b] on [int]: overflow is undefined. *)
Definition int_mul (a b : Z) : option Z :=
  let p := a * b in
  if (INT_MIN <=? p) && (p <=? INT_MAX) then Some p else None.

(** [a / b] and [a % b] on [uint64_t]: a zero divisor is undefined. *)
Definition udiv64 (a b : Z) : option Z :=
  if b =? 0 then None else Some (a / b).
Definition umod64 (a b : Z) : option Z :=
  if b =? 0 then None else Some (a mod b).

End Mach.
Import Mach.

(** ** Bytes, blocks and the XOR kernel *)

(** An [unsigned char] is a [Z] in [0, 256). *)
Abbreviation byte := Z (only parsing).
Abbreviation block := (list Z) (only parsing).

Definition is_byte (x : byte) : Prop := 0 <= x < 256.

(** [memset(p, 0, n)] *)
Definition zeros (n : Z) : block := replicate (Z.to_nat n) 0.

(** [for (j = 0; j < block_size; j++) dst[j] ^= src[j];] on two
    [block_size]-byte arrays. *)
Definition xor_block (dst src : block) : block := zip_with Z.lxor dst src.

(** The [n] bytes of [c] from byte [off] on. *)
Definition slice (c : list byte) (off n : Z) : list byte :=
  take (Z.to_nat n) (drop (Z.to_nat off) c).

(** [c] with the bytes of [b] stored from byte [off] on. *)
Definition splice (c : list byte) (off : Z) (b : list byte) : list byte :=
  take (Z.to_nat off) c ++ b ++ drop (Z.to_nat off + length b)%nat c.

Definition in_range (c : list byte) (off n : Z) : bool :=
  (0 <=? off) && (0 <=? n) && (off + n <=? Z.of_nat (length c)).

(** ** The state the engine runs over *)

(** The back-end media, one byte list per slot.  A medium has a fixed
    capacity, like a block device: a transfer that would cross its end is
    short.  (Media are taken shorter than [2^63] bytes, so that an offset
    within one is the same number as an [off_t].) *)
Abbreviation disks := (list (list Z)) (only parsing).

(** The globals of [raid5.c] that are fixed once [main] has set them. *)
Record config := Config {
  num_devices : Z;          (* int num_devices *)
  block_size : Z;           (* int block_size *)
  raid_device_size : Z;     (* uint64_t raid_device_size *)
  rebuild_dev : Z;          (* int rebuild_dev, -1 when there is none *)
  dev_missing : list bool   (* bool dev_missing[MAX_DEVICES] *)
}.

Definition MAX_DEVICES : Z := 16.

(** [dev_missing[i]]; the array is zero-initialised. *)
Definition missing (cfg : config) (i : Z) : bool :=
  default false (dev_missing cfg !! Z.to_nat i).

(** ** A monad for the engine: state, undefined behaviour, loop bound *)

Inductive outcome (A : Type) : Type :=
| Ret (a : A)        (* the computation completes with [a] *)
| Undef              (* undefined behaviour was reached *)
| OutOfFuel          (* the loop bound of the model was reached *).
Arguments Ret {A} a.
Arguments Undef {A}.
Arguments OutOfFuel {A}.

Definition M (A : Type) : Type := disks -> outcome A * disks.

Definition ret {A} (a : A) : M A := fun ds => (Ret a, ds).

Definition bind {A B} (m : M A) (f : A -> M B) : M B :=
  fun ds =>
    match m ds with
    | (Ret a, ds') => f a ds'
    | (Undef, ds') => (Undef, ds')
    | (OutOfFuel, ds') => (OutOfFuel, ds')
    end.

Definition undef {A} : M A := fun ds => (Undef, ds).
Definition out_of_fuel {A} : M A := fun ds => (OutOfFuel, ds).

(** An operation that is undefined where the [option] is [None]. *)
Definition defined {A} (o : option A) : M A :=
  match o with Some a => ret a | None => undef end.

Declare Scope engine_scope.
Delimit Scope engine_scope with engine.
Notation "x <- m ;; k" := (bind m (fun x => k))
  (at level 100, m at next level, right associativity) : engine_scope.
Notation "m ;;; k" := (bind m (fun _ => k))
  (at level 100, right associativity) : engine_scope.
Local Open Scope engine_scope.

(** A variable-length array [unsigned char a[n]]: its size must be
    positive.  As in the C abstract machine, the capacity of the stack is
    not part of the model: an array of any positive size is taken to
    fit. *)
Definition vla (n : Z) : M unit :=
  if 0 <? n then ret tt else undef.

Section Engine.

Variable cfg : config.

Local Abbreviation N := (num_devices cfg).
Local Abbreviation B := (block_size cfg).

(** *** Back-end transfers *)

(** [pread(dev_fd[i], p, block_size, off) == block_size], with the block
    read.  The descriptor of a missing slot is [-1]. *)
Definition dev_pread (i off : Z) : M (option block) := fun ds =>
  if missing cfg i then (Ret None, ds)
  else match ds !! Z.to_nat i with
       | Some c =>
           if in_range c off B then (Ret (Some (slice c off B)), ds)
           else (Ret None, ds)
       | None => (Ret None, ds)
       end.

(** [pwrite(dev_fd[i], p, block_size, off) == block_size], where [p]
    points to the bytes [b].  The media have a fixed capacity, as block
    devices do: a transfer that does not lie inside the medium fails, and
    no store changes the size of a medium. *)
Definition dev_pwrite (i : Z) (b : block) (off : Z) : M bool := fun ds =>
  if missing cfg i then (Ret false, ds)
  else match ds !! Z.to_nat i with
       | Some c =>
           if in_range c off B
           then (Ret true, <[Z.to_nat i := splice c off b]> ds)
           else (Ret false, ds)
       | None => (Ret false, ds)
       end.

(** The [block_size] bytes at [buf + pos] of a request buffer; reading
    outside the buffer is undefined. *)
Definition buf_block (buf : list byte) (pos : Z) : M block :=
  if in_range buf pos B then ret (slice buf pos B) else undef.

(** [memcpy(buf + pos, b, block_size)] into a request buffer. *)
Definition buf_store (buf : list byte) (pos : Z) (b : block) : M (list byte) :=
  if in_range buf pos B then ret (splice buf pos b) else undef.

(** *** Logical-to-physical mapping *)

Record placement := Placement {
  stripe : Z;
  pos : Z;
  parity_disk : Z;
  data_disk : Z;
  phys_offset : Z
}.

(** Lines 195-200 of [xmp_read], repeated as lines 294-299 of
    [xmp_write]. *)
Definition locate (offset : Z) : option placement :=
  logical_block ← udiv64 offset (u64 B);
  stripe ← udiv64 logical_block (u64 (N - 1));
  pos ← s32 <$> umod64 logical_block (u64 (N - 1));
  parity_disk ← s32 <$> umod64 stripe (u64 N);
  let data_disk := if pos >=? parity_disk then pos + 1 else pos in
  let phys_offset := u64 (stripe * u64 B) in
  Some (Placement stripe pos parity_disk data_disk phys_offset).

(** *** Reconstruction loop

    [for (i = 0; i < num_devices; i++)] over the slots [sl], leaving out
    the slots [skip] selects; the loop of lines 217-232, 115-130 and
    152-167.  [None]: the function returns [-1]. *)
Fixpoint xor_peers (skip : Z -> bool) (phys : Z) (sl : list Z)
    (acc : block) : M (option block) :=
  match sl with
  | [] => ret (Some acc)
  | i :: rest =>
      if skip i then xor_peers skip phys rest acc
      else if missing cfg i then ret None
      else
        r <- dev_pread i phys ;;
        match r with
        | None => ret None
        | Some other => xor_peers skip phys rest (xor_block acc other)
        end
  end.

(** *** Read *)

(** Lines 202-233: the block of one placement, read or rebuilt from
    parity and peers.  [None]: [xmp_read] returns [-1]. *)
Definition read_block (p : placement) : M (option block) :=
  if negb (missing cfg (data_disk p)) then
    dev_pread (data_disk p) (phys_offset p)
  else if missing cfg (parity_disk p) then ret None
  else
    r <- dev_pread (parity_disk p) (phys_offset p) ;;
    match r with
    | None => ret None
    | Some temp_block =>
        xor_peers (fun i => (i =? parity_disk p) || (i =? data_disk p))
                  (phys_offset p) (seqZ 0 N) temp_block
    end.

(** [while (len > 0)] of [xmp_read]; [bpos] is [buffer - buf].  The
    result is the return value and the request buffer. *)
Fixpoint xmp_read_loop (fuel : nat) (buf : list byte) (bpos len offset : Z)
    : M (Z * list byte) :=
  if len >? 0 then
    match fuel with
    | O => out_of_fuel
    | S fuel' =>
        p <- defined (locate offset) ;;
        vla B ;;;
        r <- read_block p ;;
        match r with
        | None => ret (-1, buf)
        | Some temp_block =>
            buf' <- buf_store buf bpos temp_block ;;
            xmp_read_loop fuel' buf' (bpos + B) (u32 (len - B))
                          (u64 (offset + B))
        end
    end
  else ret (0, buf).

Definition xmp_read (fuel : nat) (buf : list byte) (len offset : Z)
    : M (Z * list byte) :=
  xmp_read_loop fuel buf 0 len offset.

(** *** Write *)

(** Lines 267-278: the data blocks of a full stripe, [d] over [dl], with
    the parity accumulated in [pb].  [None]: [xmp_write] returns [-1]. *)
Fixpoint full_stripe_data (buf : list byte) (bpos parity phys : Z)
    (dl : list Z) (pb : block) : M (option block) :=
  match dl with
  | [] => ret (Some pb)
  | d :: rest =>
      let data_disk := if d >=? parity then d + 1 else d in
      off <- defined (int_mul d B) ;;
      ok <- (if negb (missing cfg data_disk) then
               src <- buf_block buf (bpos + off) ;;
               dev_pwrite data_disk src phys
             else ret true) ;;
      if ok : bool then
        src <- buf_block buf (bpos + off) ;;
        full_stripe_data buf bpos parity phys rest (xor_block pb src)
      else ret None
  end.

(** Lines 301-319: an old block, all-zero when its slot is missing. *)
Definition read_or_zero (i phys : Z) : M (option block) :=
  if negb (missing cfg i) then dev_pread i phys
  else ret (Some (zeros B)).

Inductive step_result : Type :=
| Failed                              (* return -1 *)
| Advance (bpos len offset : Z)       (* next iteration *).

(** Lines 260-291: the full-stripe path, entered with
    [span = (num_devices - 1) * block_size]. *)
Definition write_full_stripe (buf : list byte) (bpos len offset span : Z)
    : M step_result :=
  stripe <- defined (udiv64 offset (u64 span)) ;;
  let phys := u64 (stripe * u64 B) in
  parity <- defined (s32 <$> umod64 stripe (u64 N)) ;;
  vla B ;;;
  r <- full_stripe_data buf bpos parity phys (seqZ 0 (N - 1)) (zeros B) ;;
  match r with
  | None => ret Failed
  | Some parity_block =>
      if negb (missing cfg parity) then
        ok <- dev_pwrite parity parity_block phys ;;
        if ok : bool
        then ret (Advance (bpos + span) (u32 (len - span)) (u64 (offset + span)))
        else ret Failed
      else ret Failed
  end.

(** Lines 294-345: read-modify-write of one block. *)
Definition write_rmw (buf : list byte) (bpos len offset : Z)
    : M step_result :=
  p <- defined (locate offset) ;;
  vla B ;;;
  rp <- read_or_zero (parity_disk p) (phys_offset p) ;;
  match rp with
  | None => ret Failed
  | Some old_parity =>
      rd <- read_or_zero (data_disk p) (phys_offset p) ;;
      match rd with
      | None => ret Failed
      | Some old_data =>
          new_data <- buf_block buf bpos ;;
          let new_parity :=
            xor_block (xor_block old_parity old_data) new_data in
          okd <- (if negb (missing cfg (data_disk p))
                  then dev_pwrite (data_disk p) new_data (phys_offset p)
                  else ret true) ;;
          if negb okd then ret Failed
          else if negb (missing cfg (parity_disk p)) then
            okp <- dev_pwrite (parity_disk p) new_parity (phys_offset p) ;;
            if okp : bool
            then ret (Advance (bpos + B) (u32 (len - B)) (u64 (offset + B)))
            else ret Failed
          else ret Failed
      end
  end.

(** One iteration of [while (len > 0)] of [xmp_write]. *)
Definition write_step (buf : list byte) (bpos len offset : Z)
    : M step_result :=
  span <- defined (int_mul (N - 1) B) ;;
  m <- defined (umod64 offset (u64 span)) ;;
  if (m =? 0) && (len >=? u32 span)
  then write_full_stripe buf bpos len offset span
  else write_rmw buf bpos len offset.

Fixpoint xmp_write_loop (fuel : nat) (buf : list byte) (bpos len offset : Z)
    : M Z :=
  if len >? 0 then
    match fuel with
    | O => out_of_fuel
    | S fuel' =>
        r <- write_step buf bpos len offset ;;
        match r with
        | Failed => ret (-1)
        | Advance bpos' len' offset' =>
            xmp_write_loop fuel' buf bpos' len' offset'
        end
    end
  else ret 0.

Definition xmp_write (fuel : nat) (buf : list byte) (len offset : Z) : M Z :=
  xmp_write_loop fuel buf 0 len offset.

(** *** Rebuild *)

(** Lines 110-173: one stripe.  [false]: [do_raid5_rebuild] returns
    [-1]. *)
Definition rebuild_stripe (stripe : Z) : M bool :=
  let phys_offset := u64 (stripe * u64 B) in
  parity_disk <- defined (s32 <$> umod64 stripe (u64 N)) ;;
  if rebuild_dev cfg =? parity_disk then
    vla B ;;;
    r <- xor_peers (fun i => i =? parity_disk) phys_offset (seqZ 0 N)
                   (zeros B) ;;
    match r with
    | None => ret false
    | Some parity_block => dev_pwrite (rebuild_dev cfg) parity_block phys_offset
    end
  else
    vla B ;;;
    r0 <- read_or_zero parity_disk phys_offset ;;
    match r0 with
    | None => ret false
    | Some data_block0 =>
        r <- xor_peers (fun i => (i =? parity_disk) || (i =? rebuild_dev cfg))
                       phys_offset (seqZ 0 N) data_block0 ;;
        match r with
        | None => ret false
        | Some data_block =>
            dev_pwrite (rebuild_dev cfg) data_block phys_offset
        end
    end.

(** [for (stripe = first; stripe < first + n; stripe++)] *)
Fixpoint rebuild_loop (n : nat) (stripe : Z) : M Z :=
  match n with
  | O => ret 0
  | S n' =>
      ok <- rebuild_stripe stripe ;;
      if ok : bool then rebuild_loop n' (stripe + 1) else ret (-1)
  end.

(** [malloc(block_size)] is taken to succeed. *)
Definition do_raid5_rebuild : M Z :=
  span <- defined (int_mul (N - 1) B) ;;
  num_stripes <- defined (udiv64 (raid_device_size cfg) (u64 span)) ;;
  rebuild_loop (Z.to_nat num_stripes) 0.

End Engine.


(** ** Start-up: [parse_opt] and [main] *)

Module Startup.

(** libc's [strtoul(s, NULL, 10)] on a 64-bit [unsigned long]: leading
    white space, an optional sign, then decimal digits; [0] when there is
    no digit, [ULONG_MAX] on overflow, the negation modulo [2^64] after a
    minus sign. *)
Definition is_space (c : ascii) : bool :=
  let n := nat_of_ascii c in
  ((9 <=? n) && (n <=? 13))%nat || (n =? 32)%nat.

Definition digit_of (c : ascii) : option Z :=
  let n := Z.of_nat (nat_of_ascii c) in
  if (48 <=? n) && (n <=? 57) then Some (n - 48) else None.

Fixpoint skip_spaces (s : string) : string :=
  match s with
  | String c s' => if is_space c then skip_spaces s' else s
  | EmptyString => s
  end.

Fixpoint strtoul_digits (s : string) (acc : Z) (any : bool) : Z * bool :=
  match s with
  | String c s' =>
      match digit_of c with
      | Some d => strtoul_digits s' (acc * 10 + d) true
      | None => (acc, any)
      end
  | EmptyString => (acc, any)
  end.

Definition strtoul (s : string) : Z :=
  let s1 := skip_spaces s in
  let '(neg, s2) :=
    match s1 with
    | String "-"%char r => (true, r)
    | String "+"%char r => (false, r)
    | _ => (false, s1)
    end in
  let '(v, any) := strtoul_digits s2 0 false in
  if negb any then 0
  else if v >? 2 ^ 64 - 1 then 2 ^ 64 - 1
  else if neg : bool then u64 (- v) else v.

(** [struct arguments] *)
Record arguments := Arguments {
  arg_block_size : Z;          (* uint32_t block_size *)
  arg_raid_device : string;
  arg_devices : list string    (* devices[0 .. num_devices - 1] *)
}.

(** How start-up ends. *)
Inductive started : Type :=
| Exited (status : Z)                  (* [exit], [errx], [argp_usage] *)
| Crashed                              (* undefined behaviour *)
| Serving (cfg : config) (ds : disks)  (* [buse_main] is entered *).

Definition EXIT_FAILURE : Z := 1.
Definition EX_USAGE : Z := 64.

(** The keys [argp_parse] hands to the parser: a positional argument with
    its number, and the end of the arguments with their count.  (The key
    ['v'] only turns logging on.) *)
Inductive argp_key : Type :=
| ARGP_KEY_ARG (arg_num : nat) (arg : string)
| ARGP_KEY_END (arg_num : nat).

(** [parse_opt]; on the right, the status the process exits with. *)
Definition parse_opt (key : argp_key) (a : arguments) : arguments + Z :=
  match key with
  | ARGP_KEY_ARG O arg =>
      inl (Arguments (u32 (strtoul arg)) (arg_raid_device a) (arg_devices a))
  | ARGP_KEY_ARG (S O) arg =>
      inl (Arguments (arg_block_size a) arg (arg_devices a))
  | ARGP_KEY_ARG _ arg =>
      if Z.of_nat (length (arg_devices a)) >=? MAX_DEVICES
      then inr EXIT_FAILURE
      else inl (Arguments (arg_block_size a) (arg_raid_device a)
                          (arg_devices a ++ [arg]))
  | ARGP_KEY_END arg_num =>
      if (arg_num <? 3)%nat then inr EX_USAGE else inl a
  end.

(** [argp_parse] over the positional arguments [args], from number
    [arg_num] on. *)
Fixpoint argp_parse (arg_num : nat) (args : list string) (a : arguments)
    : arguments + Z :=
  match args with
  | [] => parse_opt (ARGP_KEY_END arg_num) a
  | arg :: rest =>
      match parse_opt (ARGP_KEY_ARG arg_num arg) a with
      | inl a' => argp_parse (S arg_num) rest a'
      | inr status => inr status
      end
  end.

(** The state of the loop of lines 380-408. *)
Record opening := Opening {
  o_missing : list bool;
  o_disks : disks;
  o_rebuild_dev : Z;
  o_min_blocks : Z
}.

Inductive open_result : Type :=
| OpenExit (status : Z)
| OpenCrash
| Opened (o : opening).

Section Main.

(** [open(path, O_RDWR)]: the medium behind a path, if it opens.  The
    paths of distinct slots name distinct media. *)
Variable fs : string -> option (list byte).

(** The body of the loop of lines 380-408 for slot [i]. *)
Definition open_device (bs : Z) (i : Z) (dev_path : string) (o : opening)
    : open_result :=
  if String.eqb dev_path "MISSING" then
    Opened (Opening (o_missing o ++ [true]) (o_disks o ++ [[]])
                    (o_rebuild_dev o) (o_min_blocks o))
  else
    let plus := match dev_path with
                | String "+"%char _ => true
                | _ => false
                end in
    if plus && negb (o_rebuild_dev o =? -1) then OpenExit 1
    else
      let rebuild := if plus then i else o_rebuild_dev o in
      let path := match dev_path with
                  | String "+"%char r => r
                  | _ => dev_path
                  end in
      match fs path with
      | None => OpenExit 1
      | Some c =>
          let size := Z.of_nat (length c) in
          match udiv64 size (u64 bs) with
          | None => OpenCrash
          | Some blocks =>
              let mb := if (o_min_blocks o =? 0) || (blocks <? o_min_blocks o)
                        then blocks else o_min_blocks o in
              Opened (Opening (o_missing o ++ [false]) (o_disks o ++ [c])
                              rebuild mb)
          end
      end.

Fixpoint open_devices (bs : Z) (i : Z) (devs : list string) (o : opening)
    : open_result :=
  match devs with
  | [] => Opened o
  | dev_path :: rest =>
      match open_device bs i dev_path o with
      | Opened o' => open_devices bs (i + 1) rest o'
      | r => r
      end
  end.

(** [main], for the positional arguments [args]. *)
Definition main (args : list string) : started :=
  match argp_parse 0 args (Arguments 0 "" []) with
  | inr status => Exited status
  | inl a =>
      let bs := s32 (arg_block_size a) in
      let n := Z.of_nat (length (arg_devices a)) in
      if n <? 3 then Exited EXIT_FAILURE
      else
        match open_devices bs 0 (arg_devices a) (Opening [] [] (-1) 0) with
        | OpenExit status => Exited status
        | OpenCrash => Crashed
        | Opened o =>
            if o_min_blocks o =? 0 then Exited 1
            else
              let size := u64 (u64 ((n - 1) * o_min_blocks o) * u64 bs) in
              let cfg := Config n bs size (o_rebuild_dev o) (o_missing o) in
              if o_rebuild_dev o =? -1 then Serving cfg (o_disks o)
              else if missing cfg (o_rebuild_dev o) then Exited 1
              else
                match do_raid5_rebuild cfg (o_disks o) with
                | (Ret r, ds) =>
                    if r =? 0 then Serving cfg ds else Exited 1
                | (_, _) => Crashed
                end
        end
  end.

End Main.

End Startup.

(** ** Vocabulary of the properties *)

(** A computation that leaves the media as they are. *)
Definition read_only {A} (m : M A) : Prop := forall ds, (m ds).2 = ds.

Section Vocabulary.

Variable cfg : config.

Local Abbreviation N := (num_devices cfg).
Local Abbreviation B := (block_size cfg).

(** What [main] and [parse_opt] let through, and what an [int] holds. *)
Definition valid_geometry : Prop :=
  3 <= N <= MAX_DEVICES /\ 0 < B <= INT_MAX.

(** In addition, [(num_devices - 1) * block_size] is an [int]. *)
Definition wf_config : Prop :=
  valid_geometry /\ (N - 1) * B <= INT_MAX.

(** The mapping of section 3 of the specification, for the logical
    block [L]. *)
Definition place (L : Z) : placement :=
  let s := L / (N - 1) in
  let pos := L mod (N - 1) in
  let parity := s mod N in
  Placement s pos parity (if pos <? parity then pos else pos + 1) (s * B).

(** The same set with other slots marked missing. *)
Definition set_missing (l : list bool) : config :=
  Config N B (raid_device_size cfg) (rebuild_dev cfg) l.

Definition none_missing : config := set_missing [].

Definition all_present : Prop :=
  forall i, 0 <= i < N -> missing cfg i = false.

Definition at_most_one_missing : Prop :=
  forall i j, 0 <= i < N -> 0 <= j < N ->
    missing cfg i = true -> missing cfg j = true -> i = j.

Definition exactly_one_missing : Prop :=
  exists m, 0 <= m < N /\
    forall i, 0 <= i < N -> (missing cfg i = true <-> i = m).

(** The medium of slot [i]. *)
Definition disk (ds : disks) (i : Z) : list byte :=
  default [] (ds !! Z.to_nat i).

(** The block of slot [i] in stripe [s]. *)
Definition block_at (ds : disks) (i s : Z) : block :=
  slice (disk ds i) (s * B) B.

(** Byte-wise XOR of a list of blocks. *)
Definition xor_all (bs : list block) : block :=
  foldr xor_block (zeros B) bs.

Definition is_block (b : block) : Prop := length b = Z.to_nat B.

(** [f] with the value at [t] replaced by [b]. *)
Definition upd (t : Z) (b : block) (f : Z -> block) : Z -> block :=
  fun i => if i =? t then b else f i.

(** What the reconstruction loop computes from the blocks [f i] of the
    slots it can read. *)
Definition xor_over (f : Z -> block) (skip : Z -> bool) (sl : list Z)
    (acc : block) : block :=
  foldl (fun acc i => if skip i then acc else xor_block acc (f i)) acc sl.

Definition stripe_blocks (ds : disks) (s : Z) : list block :=
  (fun i => block_at ds i s) <$> seqZ 0 N.

(** The reconstruction of the block of [p] as the specification words
    it: the parity block of the stripe XOR the other [N - 2] data
    blocks. *)
Definition reconstructed (ds : disks) (p : placement) : block :=
  xor_all
    (block_at ds (parity_disk p) (stripe p) ::
     ((fun i => block_at ds i (stripe p)) <$>
      filter (fun i => i <> parity_disk p /\ i <> data_disk p) (seqZ 0 N))).

(** What a read hands out for the block of [p]: the block of its data
    slot when that slot is present, the reconstruction otherwise. *)
Definition delivered_block (ds : disks) (p : placement) : block :=
  if missing cfg (data_disk p) then reconstructed ds p
  else block_at ds (data_disk p) (stripe p).

(** The bytes a read of [k] blocks from logical block [L] hands out. *)
Definition delivered (ds : disks) (L k : Z) : list byte :=
  mjoin ((fun l => delivered_block ds (place l)) <$> seqZ L k).

(** The present slots hold the stripes of the logical blocks
    [L .. L + k - 1]. *)
Definition readable (ds : disks) (L k : Z) : Prop :=
  forall j i, 0 <= j < k -> 0 <= i < N -> missing cfg i = false ->
    in_range (disk ds i) (stripe (place (L + j)) * B) B = true.

(** The slot of the [d]-th data block of a stripe whose parity slot is
    [parity]. *)
Definition data_slot (parity d : Z) : Z :=
  if d >=? parity then d + 1 else d.

(** The media with [b] stored in slot [i] from byte [off] on. *)
Definition store_block (ds : disks) (i off : Z) (b : block) : disks :=
  <[Z.to_nat i := splice (disk ds i) off b]> ds.

(** The [d]-th block of a request buffer, counted from [bpos]. *)
Definition incoming (buf : list byte) (bpos d : Z) : block :=
  slice buf (bpos + d * B) B.

(** The media after the data blocks [dl] of a full stripe were stored. *)
Definition full_stripe_stores (buf : list byte) (bpos parity phys : Z)
    (dl : list Z) (ds : disks) : disks :=
  foldl (fun ds d =>
           if missing cfg (data_slot parity d) then ds
           else store_block ds (data_slot parity d) phys (incoming buf bpos d))
        ds dl.

(** Every slot has a whole block in stripe [s]. *)
Definition holds_stripe (ds : disks) (s : Z) : Prop :=
  0 <= s /\ forall i, 0 <= i < N -> in_range (disk ds i) (s * B) B = true.

(** Parity consistency of stripe [s]: the XOR over the [N] slots is zero
    at every byte position. *)
Definition parity_consistent (ds : disks) (s : Z) : Prop :=
  holds_stripe ds s /\ xor_all (stripe_blocks ds s) = zeros B.

(** The media while the rebuild runs: the first [k] stripes of the
    target are those of [ds0], the rest of it is that of the medium
    [c]. *)
Definition rebuilt (ds0 : disks) (c : list byte) (k : Z) : disks :=
  <[Z.to_nat (rebuild_dev cfg) :=
      take (Z.to_nat (k * B)) (disk ds0 (rebuild_dev cfg)) ++
      drop (Z.to_nat (k * B)) c]> ds0.

(** A write request, with the loop bound it is run under. *)
Record request := Request {
  req_fuel : nat;
  req_buf : list byte;
  req_len : Z;        (* u_int32_t len *)
  req_offset : Z      (* u_int64_t offset *)
}.

Definition valid_request (r : request) : Prop :=
  0 <= req_len r < 2 ^ 32 /\ 0 <= req_offset r < 2 ^ 64.

(** The media after the write requests [reqs], when each returned 0. *)
Fixpoint run_writes (reqs : list request) (ds : disks) : option disks :=
  match reqs with
  | [] => Some ds
  | r :: rest =>
      match xmp_write cfg (req_fuel r) (req_buf r) (req_len r) (req_offset r) ds with
      | (Ret status, ds') => if status =? 0 then run_writes rest ds' else None
      | (_, _) => None
      end
  end.

End Vocabulary.

(** ** Worked examples: B = 4, N = 3, two stripes *)

Module Samples.

Definition cfg3 : config := Config 3 4 16 (-1) [false; false; false].

(** Slot 1 missing. *)
Definition degraded : config := Config 3 4 16 (-1) [false; true; false].

(** Slots 0 and 1 missing. *)
Definition doubly_degraded : config := Config 3 4 16 (-1) [true; true; false].

(** Slot 1 is the rebuild target. *)
Definition rebuilding : config := Config 3 4 16 1 [false; false; false].

(** One stripe, slot 0 missing, slot 1 the rebuild target. *)
Definition rebuilding_degraded : config := Config 3 4 8 1 [true; false; false].

Definition blank : disks :=
  [[0; 0; 0; 0; 0; 0; 0; 0]; [0; 0; 0; 0; 0; 0; 0; 0]; [0; 0; 0; 0; 0; 0; 0; 0]].

(** AAAA BBBB *)
Definition AB : list byte := [65; 65; 65; 65; 66; 66; 66; 66].

(** The media after AAAA BBBB was written at offset 0. *)
Definition written : disks :=
  [[3; 3; 3; 3; 0; 0; 0; 0]; [65; 65; 65; 65; 0; 0; 0; 0];
   [66; 66; 66; 66; 0; 0; 0; 0]].

(** One stripe; the medium of slot 0 is not there. *)
Definition survivors : disks := [[]; [9; 9; 9; 9]; [1; 2; 3; 4]].

(** The back-ends behind the paths [d1] and [d2]. *)
Definition files (path : string) : option (list byte) :=
  if String.eqb path "d1" then Some [9; 9; 9; 9]
  else if String.eqb path "d2" then Some [1; 2; 3; 4]
  else None.

End Samples.

(** ** Vocabulary of the further properties *)

Section Logical.

Variable cfg : config.

Local Abbreviation N := (num_devices cfg).
Local Abbreviation B := (block_size cfg).

(** The logical block [L] of the virtual device: the block of its data
    slot in its stripe. *)
Definition logical (ds : disks) (L : Z) : block :=
  block_at cfg ds (data_disk (place cfg L)) (stripe (place cfg L)).

(** The logical blocks [L0 .. L0 + k - 1] are those of the buffer, from
    [bpos] on. *)
Definition holds_buffer (ds : disks) (buf : list byte) (bpos L0 k : Z) : Prop :=
  forall L, L0 <= L < L0 + k ->
    logical ds L = slice buf (bpos + (L - L0) * B) B.

(** Every slot holds the stripes of the logical blocks
    [L0 .. L0 + k - 1]. *)
Definition holds_blocks (ds : disks) (L0 k : Z) : Prop :=
  forall L, L0 <= L < L0 + k -> holds_stripe cfg ds (stripe (place cfg L)).

(** The media have the same bounds. *)
Definition same_bounds (ds ds' : disks) : Prop :=
  length ds' = length ds /\
  forall i off n, 0 <= i ->
    in_range (disk ds' i) off n = in_range (disk ds i) off n.

(** The media [ds'] are [ds] with the logical blocks [L0 .. L0 + k - 1]
    replaced by those of the buffer from [bpos] on: the other logical
    blocks, the stripes of no block of the range, and the bounds of the
    media are those of [ds]. *)
Definition write_effect (ds : disks) (buf : list byte) (bpos L0 k : Z)
    (ds' : disks) : Prop :=
  same_bounds ds ds' /\
  (forall L, 0 <= L ->
     logical ds' L =
       if decide (L0 <= L < L0 + k) then slice buf (bpos + (L - L0) * B) B
       else logical ds L) /\
  (forall i s, 0 <= i -> 0 <= s ->
     (forall L, L0 <= L < L0 + k -> stripe (place cfg L) <> s) ->
     block_at cfg ds' i s = block_at cfg ds i s).

End Logical.

(** A computation that stores to no slot but [t], and changes the size of
    no medium. *)
Definition writes_only {A} (t : Z) (m : M A) : Prop :=
  forall ds,
    length (m ds).2 = length ds /\
    (forall i, 0 <= i -> i <> t -> disk (m ds).2 i = disk ds i) /\
    length (disk (m ds).2 t) = length (disk ds t).

(** ** Vocabulary of the start-up properties *)

(** A device argument that names the rebuild target. *)
Definition is_plus (path : string) : bool :=
  match path with
  | String "+"%char _ => true
  | _ => false
  end.

(** The state of the device loop of [main] before slot [i]: one entry per
    slot opened so far, and a rebuild target among the present ones. *)
Definition opening_shape (i : Z) (o : Startup.opening) : Prop :=
  i = Z.of_nat (length (Startup.o_missing o)) /\
  length (Startup.o_disks o) = length (Startup.o_missing o) /\
  (Startup.o_rebuild_dev o = -1 \/
   0 <= Startup.o_rebuild_dev o < i /\
   Startup.o_missing o !! Z.to_nat (Startup.o_rebuild_dev o) = Some false).

(** [min_blocks] is nonzero only for a positive block size. *)
Definition opening_positive (bs : Z) (o : Startup.opening) : Prop :=
  0 <= Startup.o_min_blocks o /\ (Startup.o_min_blocks o <> 0 -> 0 < bs).

(** Every slot opened so far holds [min_blocks] blocks, and [min_blocks]
    is zero only while no slot was opened. *)
Definition opening_capacity (bs : Z) (o : Startup.opening) : Prop :=
  length (Startup.o_disks o) = length (Startup.o_missing o) /\
  0 <= Startup.o_min_blocks o /\
  (Startup.o_min_blocks o = 0 ->
     forall j, Startup.o_missing o !! j <> Some false) /\
  forall j c, Startup.o_missing o !! j = Some false ->
    Startup.o_disks o !! j = Some c ->
    Startup.o_min_blocks o * bs <= Z.of_nat (length c).


(** * Properties *)

(** ** Machine integers *)

Lemma u64_small x : 0 <= x < 2 ^ 64 -> u64 x = x.
Proof. intros; unfold u64; apply Z.mod_small; lia. Qed.

Lemma u32_small x : 0 <= x < 2 ^ 32 -> u32 x = x.
Proof. intros; unfold u32; apply Z.mod_small; lia. Qed.

Lemma s32_small x : INT_MIN <= x <= INT_MAX -> s32 x = x.
Proof.
  unfold s32, INT_MIN, INT_MAX; intros.
  rewrite Z.mod_small by lia. lia.
Qed.

Lemma int_mul_small a b :
  INT_MIN <= a * b <= INT_MAX -> int_mul a b = Some (a * b).
Proof.
  intros [H1 H2]; unfold int_mul; cbv zeta.
  apply Z.leb_le in H1, H2. now rewrite H1, H2.
Qed.

Lemma udiv64_pos a b : 0 < b -> udiv64 a b = Some (a / b).
Proof. intros; unfold udiv64. destruct (Z.eqb_spec b 0); [lia | done]. Qed.

Lemma umod64_pos a b : 0 < b -> umod64 a b = Some (a mod b).
Proof. intros; unfold umod64. destruct (Z.eqb_spec b 0); [lia | done]. Qed.

(** ** The mapping *)

Section Mapping.

Variable cfg : config.
Local Abbreviation N := (num_devices cfg).
Local Abbreviation B := (block_size cfg).
Hypothesis Hgeo : valid_geometry cfg.

Lemma place_bounds L :
  0 <= L ->
  let p := place cfg L in
  0 <= stripe p /\ stripe p * (N - 1) <= L /\
  0 <= parity_disk p < N /\ 0 <= data_disk p < N /\
  data_disk p <> parity_disk p /\ phys_offset p = stripe p * B.
Proof using Hgeo.
  destruct Hgeo as [[HN1 HN2] [HB1 HB2]]. unfold MAX_DEVICES in *.
  intros HL. unfold place; cbn.
  pose proof (Z.div_mod L (N - 1) ltac:(lia)) as Hdm.
  pose proof (Z.mod_pos_bound L (N - 1) ltac:(lia)) as Hpos.
  pose proof (Z.mod_pos_bound (L / (N - 1)) N ltac:(lia)) as Hpar.
  pose proof (Z.div_pos L (N - 1) ltac:(lia) ltac:(lia)).
  repeat split; try lia;
    destruct (Z.ltb_spec (L mod (N - 1)) (L / (N - 1) mod N)); nia.
Qed.

Lemma locate_place offset :
  0 <= offset < 2 ^ 64 -> locate cfg offset = Some (place cfg (offset / B)).
Proof using Hgeo.
  destruct Hgeo as [[HN1 HN2] [HB1 HB2]]. unfold MAX_DEVICES, INT_MAX in *.
  intros Hoff. unfold locate, place.
  rewrite !u64_small by lia.
  assert (0 <= offset / B <= offset).
  { split; [apply Z.div_pos; lia|]. apply Z.div_le_upper_bound; nia. }
  assert (0 <= offset / B / (N - 1) <= offset / B).
  { split; [apply Z.div_pos; lia|]. apply Z.div_le_upper_bound; nia. }
  assert (0 <= (offset / B) mod (N - 1) < N - 1) by (apply Z.mod_pos_bound; lia).
  assert (0 <= (offset / B / (N - 1)) mod N < N) by (apply Z.mod_pos_bound; lia).
  assert (offset / B * B <= offset).
  { pose proof (Z.mul_div_le offset B). lia. }
  repeat (first [rewrite udiv64_pos by lia | rewrite umod64_pos by lia]; cbn).
  rewrite !s32_small by (unfold INT_MIN, INT_MAX; lia).
  rewrite u64_small by nia.
  f_equal. f_equal.
  rewrite Z.geb_leb.
  destruct (Z.leb_spec (offset / B / (N - 1) mod N) (offset / B mod (N - 1)));
    destruct (Z.ltb_spec (offset / B mod (N - 1)) (offset / B / (N - 1) mod N));
    lia.
Qed.

End Mapping.

(** C1. For 3 <= N <= 16, B > 0 and L = offset / B, the placement the
    engine computes is stripe = L div (N-1), pos = L mod (N-1),
    parity = stripe mod N, data = pos when pos < parity and pos + 1
    otherwise, phys_off = stripe * B; so L = stripe * (N-1) + pos with
    0 <= pos < N-1, parity in [0, N) and data in [0, N) minus parity.  For
    B = 4 and N = 3 the logical blocks 0, 1 and 2 are placed at
    (0, 0, 1, 0), (0, 0, 2, 0) and (1, 1, 0, 4). *)
Theorem placement_laws (cfg : config) (offset : Z) :
  valid_geometry cfg ->
  0 <= offset < 2 ^ 64 ->
  let N := num_devices cfg in
  let B := block_size cfg in
  let L := offset / B in
  (exists p,
      locate cfg offset = Some p /\
      stripe p = L / (N - 1) /\
      pos p = L mod (N - 1) /\
      parity_disk p = stripe p mod N /\
      data_disk p = (if pos p <? parity_disk p then pos p else pos p + 1) /\
      phys_offset p = stripe p * B /\
      L = stripe p * (N - 1) + pos p /\
      0 <= pos p < N - 1 /\
      0 <= parity_disk p < N /\
      0 <= data_disk p < N /\
      data_disk p <> parity_disk p) /\
  (N = 3 -> B = 4 ->
   locate cfg (0 * B) = Some (Placement 0 0 0 1 0) /\
   locate cfg (1 * B) = Some (Placement 0 1 0 2 0) /\
   locate cfg (2 * B) = Some (Placement 1 0 1 0 4)).
Proof.
  intros Hgeo Hoff N B L. split.
  - exists (place cfg L). split; [by apply locate_place|].
    destruct Hgeo as [[HN1 HN2] [HB1 HB2]]. unfold MAX_DEVICES in *.
    fold N B in HN1, HN2, HB1, HB2.
    unfold place; cbn [stripe pos parity_disk data_disk phys_offset]. fold N B.
    pose proof (Z.div_mod L (N - 1) ltac:(lia)) as Hdm.
    pose proof (Z.mod_pos_bound L (N - 1) ltac:(lia)) as Hpos.
    pose proof (Z.mod_pos_bound (L / (N - 1)) N ltac:(lia)) as Hpar.
    repeat split; try lia;
      destruct (Z.ltb_spec (L mod (N - 1)) (L / (N - 1) mod N)); lia.
  - intros HN HB. subst N B.
    rewrite !locate_place by (try done; rewrite HB; lia).
    unfold place. rewrite HN, HB. done.
Qed.

Lemma placement_laws_witness :
  exists p, locate Samples.cfg3 8 = Some p /\ stripe p = 1 /\ data_disk p = 0.
Proof.
  destruct (placement_laws Samples.cfg3 8) as [[p Hp] _].
  - unfold valid_geometry, MAX_DEVICES, INT_MAX; cbn; lia.
  - lia.
  - exists p. destruct Hp as (Hl & Hs & Hpos & Hpar & Hd & _).
    split; [exact Hl|]. rewrite Hd, Hpar, Hpos, Hs. cbn. done.
Defined.

(** ** Byte lists: slices and splices *)

Lemma in_range_spec c off n :
  in_range c off n = true <-> 0 <= off /\ 0 <= n /\ off + n <= Z.of_nat (length c).
Proof. unfold in_range. rewrite !andb_true_iff, !Z.leb_le. tauto. Qed.

Lemma lookup_slice c off n j :
  slice c off n !! j =
    if decide (j < Z.to_nat n)%nat then c !! (Z.to_nat off + j)%nat else None.
Proof. unfold slice. rewrite lookup_take. case_decide; [apply lookup_drop | done]. Qed.

Lemma length_slice c off n :
  in_range c off n = true -> length (slice c off n) = Z.to_nat n.
Proof.
  intros (? & ? & ?)%in_range_spec. unfold slice.
  rewrite length_take, length_drop. lia.
Qed.

Lemma lookup_splice c off b j :
  in_range c off (Z.of_nat (length b)) = true ->
  splice c off b !! j =
    if decide (Z.to_nat off <= j < Z.to_nat off + length b)%nat
    then b !! (j - Z.to_nat off)%nat else c !! j.
Proof.
  intros (? & ? & ?)%in_range_spec. unfold splice.
  destruct (decide (j < Z.to_nat off)%nat).
  - rewrite lookup_app_l by (rewrite length_take; lia).
    rewrite lookup_take_lt by lia. case_decide; [lia | done].
  - rewrite lookup_app_r by (rewrite length_take; lia).
    rewrite length_take, Nat.min_l by lia.
    destruct (decide (j < Z.to_nat off + length b)%nat).
    + rewrite lookup_app_l by lia. case_decide; [done | lia].
    + rewrite lookup_app_r by lia. rewrite lookup_drop.
      case_decide; [lia | f_equal; lia].
Qed.

Lemma length_splice c off b :
  in_range c off (Z.of_nat (length b)) = true ->
  length (splice c off b) = length c.
Proof.
  intros (? & ? & ?)%in_range_spec. unfold splice.
  rewrite !length_app, length_take, length_drop. lia.
Qed.

Lemma slice_splice_same c off b :
  in_range c off (Z.of_nat (length b)) = true ->
  slice (splice c off b) off (Z.of_nat (length b)) = b.
Proof.
  intros Hr. pose proof Hr as (? & ? & ?)%in_range_spec.
  apply list_eq; intros j. rewrite lookup_slice, Nat2Z.id.
  case_decide.
  - rewrite lookup_splice by done. case_decide; [f_equal; lia | lia].
  - symmetry. apply lookup_ge_None. lia.
Qed.

Lemma slice_splice_other c off b off' n :
  in_range c off (Z.of_nat (length b)) = true ->
  0 <= off' -> 0 <= n ->
  off' + n <= off \/ off + Z.of_nat (length b) <= off' ->
  slice (splice c off b) off' n = slice c off' n.
Proof.
  intros Hr ? ? Hd. pose proof Hr as (? & ? & ?)%in_range_spec.
  apply list_eq; intros j. rewrite !lookup_slice.
  case_decide; [|done].
  rewrite lookup_splice by done. case_decide; [lia | done].
Qed.

Lemma in_range_splice c off b off' n :
  in_range c off (Z.of_nat (length b)) = true ->
  in_range (splice c off b) off' n = in_range c off' n.
Proof. intros Hr. unfold in_range. by rewrite length_splice. Qed.

Lemma slice_all c : slice c 0 (Z.of_nat (length c)) = c.
Proof. unfold slice. cbn. rewrite Nat2Z.id. apply take_ge. done. Qed.

(** Consecutive slices make up a longer one. *)
Lemma slice_app c off n m :
  0 <= off -> 0 <= n -> 0 <= m ->
  slice c off n ++ slice c (off + n) m = slice c off (n + m).
Proof.
  intros. unfold slice.
  rewrite !Z2Nat.inj_add by lia.
  rewrite <- (take_take_drop (drop (Z.to_nat off) c) (Z.to_nat n) (Z.to_nat m)).
  by rewrite drop_drop.
Qed.

(** ** The XOR kernel *)

Lemma xor_block_comm a b : xor_block a b = xor_block b a.
Proof.
  unfold xor_block. revert b.
  induction a as [|x a IH]; intros [|y b]; cbn; [done..|].
  by rewrite Z.lxor_comm, IH.
Qed.

Lemma xor_block_assoc a b c :
  xor_block a (xor_block b c) = xor_block (xor_block a b) c.
Proof.
  unfold xor_block. revert b c.
  induction a as [|x a IH]; intros [|y b] [|z c]; cbn; [done..|].
  by rewrite Z.lxor_assoc, IH.
Qed.

Lemma length_xor_block a b n :
  length a = n -> length b = n -> length (xor_block a b) = n.
Proof. intros. unfold xor_block. rewrite length_zip_with. lia. Qed.

Lemma xor_block_bytes a b :
  Forall is_byte a -> Forall is_byte b -> Forall is_byte (xor_block a b).
Proof.
  unfold xor_block. intros Ha. revert b.
  induction Ha as [|x a Hx Ha IH]; intros [|y b] Hb; cbn; [done..|].
  inversion Hb as [|? ? Hy Hb']; subst. constructor; [|by apply IH].
  unfold is_byte in *. change 256 with (2 ^ 8).
  split; [apply Z.lxor_nonneg; lia|].
  destruct (Z.eq_dec (Z.lxor x y) 0) as [->|Hne]; [lia|].
  apply Z.log2_lt_pow2; [pose proof (proj2 (Z.lxor_nonneg x y)); lia|].
  eapply Z.le_lt_trans; [apply Z.log2_lxor; lia|].
  apply Z.max_lub_lt.
  - destruct (Z.eq_dec x 0) as [->|]; [done|]. apply Z.log2_lt_pow2; lia.
  - destruct (Z.eq_dec y 0) as [->|]; [done|]. apply Z.log2_lt_pow2; lia.
Qed.

Section Xor.

Variable cfg : config.
Local Abbreviation B := (block_size cfg).
Local Abbreviation is_blk := (is_block cfg).

Lemma zeros_block : is_blk (zeros B).
Proof. unfold is_block, zeros. apply length_replicate. Qed.

Lemma xor_is_block a b : is_blk a -> is_blk b -> is_blk (xor_block a b).
Proof. unfold is_block. intros. by apply length_xor_block. Qed.

Lemma xor_zeros_r a : is_blk a -> xor_block a (zeros B) = a.
Proof.
  unfold is_block, xor_block, zeros. generalize (Z.to_nat B) as n.
  induction a as [|x a IH]; intros [|n] Hn; cbn in *; try done.
  rewrite Z.lxor_0_r, IH; [done | lia].
Qed.

Lemma xor_zeros_l a : is_blk a -> xor_block (zeros B) a = a.
Proof. intros. rewrite xor_block_comm. by apply xor_zeros_r. Qed.

Lemma xor_self a : is_blk a -> xor_block a a = zeros B.
Proof.
  unfold is_block, xor_block, zeros. generalize (Z.to_nat B) as n.
  induction a as [|x a IH]; intros [|n] Hn; cbn in *; try done.
  rewrite Z.lxor_nilpotent, (IH n); [done | lia].
Qed.

(** [a ^ (a ^ b) = b] *)
Lemma xor_cancel a b : is_blk a -> is_blk b -> xor_block a (xor_block a b) = b.
Proof.
  intros. by rewrite xor_block_assoc, xor_self, xor_zeros_l.
Qed.

Lemma xor_all_cons b (bs : list block) :
  xor_all cfg (b :: bs) = xor_block b (xor_all cfg bs).
Proof. done. Qed.

Lemma xor_all_block (bs : list block) :
  Forall is_blk bs -> is_blk (xor_all cfg bs).
Proof.
  induction 1; cbn; [apply zeros_block | by apply xor_is_block].
Qed.

Lemma xor_over_cons f skip i sl acc :
  xor_over f skip (i :: sl) acc =
    xor_over f skip sl (if skip i then acc else xor_block acc (f i)).
Proof. done. Qed.

(** The loop XORs into its accumulator the blocks it does not skip. *)
Lemma xor_over_all f skip sl acc :
  is_blk acc -> (forall i, i ∈ sl -> skip i = false -> is_blk (f i)) ->
  xor_over f skip sl acc =
    xor_block acc
      (xor_all cfg ((fun i => if skip i then zeros B else f i) <$> sl)).
Proof.
  revert acc. induction sl as [|i sl IH]; intros acc Hacc Hf.
  - cbn. by rewrite xor_zeros_r.
  - rewrite xor_over_cons, fmap_cons, xor_all_cons.
    assert (is_blk (xor_all cfg
              ((fun i => if skip i then zeros B else f i) <$> sl))) as Hrest.
    { apply xor_all_block, Forall_fmap, Forall_forall. intros j Hj. cbn.
      destruct (skip j) eqn:?; [apply zeros_block | apply Hf; [by right | done]]. }
    assert (forall j, j ∈ sl -> skip j = false -> is_blk (f j)) as Hf'
      by (intros; apply Hf; [by right | done]).
    destruct (skip i) eqn:Hs.
    + rewrite IH by done. by rewrite xor_zeros_l.
    + rewrite IH; [|apply xor_is_block; [done | apply Hf; [left | done]]|done].
      by rewrite xor_block_assoc.
Qed.

(** Skipped blocks count as zero, or are left out. *)
Lemma xor_all_masked f skip (P : Z -> Prop) `{!forall i, Decision (P i)} sl :
  (forall i, skip i = false <-> P i) ->
  (forall i, i ∈ sl -> skip i = false -> is_blk (f i)) ->
  xor_all cfg ((fun i => if skip i then zeros B else f i) <$> sl) =
    xor_all cfg (f <$> filter P sl).
Proof.
  intros HP. induction sl as [|i sl IH]; intros Hf; [done|].
  assert (forall j, j ∈ sl -> skip j = false -> is_blk (f j)) as Hf'
    by (intros; apply Hf; [by right | done]).
  rewrite fmap_cons, xor_all_cons, filter_cons.
  destruct (skip i) eqn:Hs.
  - destruct (decide (P i)) as [HPi|_]; [apply HP in HPi; congruence|].
    rewrite <- IH by done. apply xor_zeros_l.
    apply xor_all_block, Forall_fmap, Forall_forall. intros j Hj. cbn.
    destruct (skip j) eqn:?; [apply zeros_block | by apply Hf'].
  - destruct (decide (P i)) as [_|HPi]; [|by apply HP in Hs].
    by rewrite fmap_cons, xor_all_cons, IH.
Qed.

(** Replacing one block of a sum. *)
Lemma xor_all_upd f t b sl :
  NoDup sl -> t ∈ sl -> is_blk b -> (forall i, i ∈ sl -> is_blk (f i)) ->
  xor_all cfg (upd t b f <$> sl) =
    xor_block (xor_block (f t) b) (xor_all cfg (f <$> sl)).
Proof.
  intros Hnd Ht Hb. induction Hnd as [|i sl Hi Hnd IH]; intros Hf.
  - by apply elem_of_nil in Ht.
  - assert (forall j, j ∈ sl -> is_blk (f j)) as Hf' by (intros; apply Hf; by right).
    assert (is_blk (f i)) as Hfi by (apply Hf; left).
    assert (is_blk (xor_all cfg (f <$> sl))) as Hrest.
    { apply xor_all_block, Forall_fmap, Forall_forall. intros j Hj. by apply Hf'. }
    rewrite !fmap_cons, !xor_all_cons. unfold upd at 1.
    destruct (Z.eqb_spec i t) as [->|Hne].
    + replace (upd t b f <$> sl) with (f <$> sl).
      2:{ apply list_fmap_ext. intros k j Hj. unfold upd.
          destruct (Z.eqb_spec j t) as [->|]; [|done].
          exfalso. apply Hi. eapply list_elem_of_lookup_2. exact Hj. }
      rewrite (xor_block_comm (f t) b), <- xor_block_assoc.
      f_equal. symmetry. by apply xor_cancel.
    + apply elem_of_cons in Ht as [->|Ht]; [done|].
      rewrite IH by done.
      rewrite (xor_block_assoc (f i)), (xor_block_assoc _ (f i)).
      f_equal. apply xor_block_comm.
Qed.

End Xor.

(** ** The engine monad *)

Lemma bind_ret_l {A B} (a : A) (f : A -> M B) ds :
  bind (ret a) f ds = f a ds.
Proof. done. Qed.

Lemma bind_eq {A B} (m : M A) (f : A -> M B) ds a ds' :
  m ds = (Ret a, ds') -> bind m f ds = f a ds'.
Proof. intros H. unfold bind. by rewrite H. Qed.

Lemma read_only_ret {A} (a : A) : read_only (ret a).
Proof. done. Qed.

Lemma read_only_undef {A} : read_only (@undef A).
Proof. done. Qed.

Lemma read_only_fuel {A} : read_only (@out_of_fuel A).
Proof. done. Qed.

Lemma read_only_defined {A} (o : option A) : read_only (defined o).
Proof. by destruct o. Qed.

Lemma read_only_bind {A B} (m : M A) (f : A -> M B) :
  read_only m -> (forall a, read_only (f a)) -> read_only (bind m f).
Proof.
  intros Hm Hf ds. unfold bind. specialize (Hm ds).
  destruct (m ds) as [[a| |] ds']; cbn in *; subst; [apply Hf | done..].
Qed.

Create HintDb read_only.
#[local] Hint Resolve read_only_ret read_only_undef read_only_fuel
  read_only_defined : read_only.

Section ReadOnly.

Variable cfg : config.

Lemma read_only_vla n : read_only (vla n).
Proof. unfold vla. destruct (0 <? n); auto with read_only. Qed.

Lemma read_only_pread i off : read_only (dev_pread cfg i off).
Proof.
  intros ds. unfold dev_pread.
  destruct (missing cfg i); [done|].
  destruct (ds !! Z.to_nat i); [|done].
  by destruct (in_range _ _ _).
Qed.

Lemma read_only_buf_store buf pos b : read_only (buf_store cfg buf pos b).
Proof. unfold buf_store. destruct (in_range _ _ _); auto with read_only. Qed.

Lemma read_only_xor_peers skip phys sl acc :
  read_only (xor_peers cfg skip phys sl acc).
Proof.
  revert acc. induction sl as [|i sl IH]; intros acc; cbn.
  - auto with read_only.
  - destruct (skip i); [apply IH|].
    destruct (missing cfg i); [auto with read_only|].
    apply read_only_bind; [apply read_only_pread|].
    intros [other|]; [apply IH | auto with read_only].
Qed.

Lemma read_only_read_block p : read_only (read_block cfg p).
Proof.
  unfold read_block.
  destruct (missing cfg (data_disk p)); cbn; [|apply read_only_pread].
  destruct (missing cfg (parity_disk p)); [auto with read_only|].
  apply read_only_bind; [apply read_only_pread|].
  intros [temp|]; [apply read_only_xor_peers | auto with read_only].
Qed.

Lemma read_only_read_loop fuel buf bpos len offset :
  read_only (xmp_read_loop cfg fuel buf bpos len offset).
Proof.
  revert buf bpos len offset.
  induction fuel as [|fuel IH]; intros buf bpos len offset; cbn;
    destruct (len >? 0); auto with read_only.
  apply read_only_bind; [auto with read_only|]. intros p.
  apply read_only_bind; [apply read_only_vla|]. intros _.
  apply read_only_bind; [apply read_only_read_block|].
  intros [temp|]; [|auto with read_only].
  apply read_only_bind; [apply read_only_buf_store|]. intros buf'. apply IH.
Qed.

End ReadOnly.

(** C10. A read request, whatever its length, offset and slot
    configuration, writes to no back-end device: every slot holds after the
    call what it held before, whether the call returns success or an
    error. *)
Theorem xmp_read_writes_nothing (cfg : config) (fuel : nat) (buf : list byte)
    (len offset : Z) (ds : disks) :
  (xmp_read cfg fuel buf len offset ds).2 = ds.
Proof. apply read_only_read_loop. Qed.

(** ** Back-end transfers *)

Section Transfers.

Variable cfg : config.
Local Abbreviation N := (num_devices cfg).
Local Abbreviation B := (block_size cfg).
Hypothesis HB : 0 < B.

Lemma in_range_disk ds i off :
  in_range (disk ds i) off B = true ->
  ds !! Z.to_nat i = Some (disk ds i).
Proof using HB.
  intros (? & ? & Hlen)%in_range_spec. unfold disk in *.
  destruct (ds !! Z.to_nat i); [done|]. cbn in Hlen. lia.
Qed.

Lemma block_at_block ds i s :
  in_range (disk ds i) (s * B) B = true -> is_block cfg (block_at cfg ds i s).
Proof. intros. unfold is_block, block_at. by apply length_slice. Qed.

Lemma dev_pread_ok ds i off :
  missing cfg i = false ->
  in_range (disk ds i) off B = true ->
  dev_pread cfg i off ds = (Ret (Some (slice (disk ds i) off B)), ds).
Proof using HB.
  intros Hm Hr. unfold dev_pread.
  rewrite Hm, (in_range_disk _ _ _ Hr). by rewrite Hr.
Qed.

Lemma dev_pread_some ds i off r ds' :
  dev_pread cfg i off ds = (Ret (Some r), ds') ->
  in_range (disk ds i) off B = true /\ r = slice (disk ds i) off B /\ ds' = ds.
Proof.
  unfold dev_pread, disk. destruct (missing cfg i); [done|].
  destruct (ds !! Z.to_nat i) as [c|]; [|done]. cbn.
  destruct (in_range c off B); [|done]. by intros [= <- <-].
Qed.

(** The media after a block was stored in slot [i]. *)
Lemma dev_pwrite_ok ds i b off :
  missing cfg i = false ->
  in_range (disk ds i) off B = true ->
  dev_pwrite cfg i b off ds =
    (Ret true, <[Z.to_nat i := splice (disk ds i) off b]> ds).
Proof using HB.
  intros Hm Hr. unfold dev_pwrite.
  rewrite Hm, (in_range_disk _ _ _ Hr). by rewrite Hr.
Qed.

Lemma dev_pwrite_true ds i b off ds' :
  dev_pwrite cfg i b off ds = (Ret true, ds') ->
  missing cfg i = false /\ in_range (disk ds i) off B = true /\
  ds' = store_block ds i off b.
Proof.
  unfold dev_pwrite, store_block, disk. destruct (missing cfg i); [done|].
  destruct (ds !! Z.to_nat i) as [c|]; [|done]. cbn.
  destruct (in_range c off B); [|done]. by intros [= <-].
Qed.

Lemma disk_insert_same ds i c :
  0 <= i -> (Z.to_nat i < length ds)%nat ->
  disk (<[Z.to_nat i := c]> ds) i = c.
Proof. intros. unfold disk. by rewrite list_lookup_insert_eq. Qed.

Lemma disk_insert_other ds i j c :
  0 <= i -> 0 <= j -> i <> j ->
  disk (<[Z.to_nat i := c]> ds) j = disk ds j.
Proof. intros. unfold disk. rewrite list_lookup_insert_ne; [done | lia]. Qed.

(** *** The reconstruction loop *)

Lemma xor_peers_ok ds skip phys sl acc :
  (forall i, i ∈ sl -> skip i = false ->
     missing cfg i = false /\ in_range (disk ds i) phys B = true) ->
  xor_peers cfg skip phys sl acc ds =
    (Ret (Some (xor_over (fun i => slice (disk ds i) phys B) skip sl acc)), ds).
Proof using HB.
  revert acc. induction sl as [|i sl IH]; intros acc Hsl; [done|].
  cbn [xor_peers]. rewrite xor_over_cons.
  destruct (skip i) eqn:Hs.
  - apply IH. intros j Hj. apply Hsl. by right.
  - destruct (Hsl i ltac:(left) Hs) as [Hm Hr]. rewrite Hm.
    erewrite bind_eq by (by apply dev_pread_ok).
    apply IH. intros j Hj. apply Hsl. by right.
Qed.

(** A missing slot that the loop does not skip stops it. *)
Lemma xor_peers_refuses ds skip phys sl acc i :
  i ∈ sl -> skip i = false -> missing cfg i = true ->
  xor_peers cfg skip phys sl acc ds = (Ret None, ds).
Proof.
  intros Hi Hs Hm. revert acc.
  induction sl as [|j sl IH]; intros acc; [by apply elem_of_nil in Hi|].
  cbn [xor_peers].
  destruct (decide (j = i)) as [->|Hne].
  - by rewrite Hs, Hm.
  - apply elem_of_cons in Hi as [->|Hi]; [done|].
    destruct (skip j); [by apply IH|].
    destruct (missing cfg j); [done|].
    unfold bind. pose proof (read_only_pread cfg j phys ds) as Hro.
    destruct (dev_pread cfg j phys ds) as [[[other|]| |] ds'] eqn:Hp;
      cbn in Hro; subst ds'; try done.
    + by apply IH.
    + unfold dev_pread in Hp. repeat case_match; done.
    + unfold dev_pread in Hp. repeat case_match; done.
Qed.

End Transfers.

(** ** Reading one block *)

Section ReadBlock.

Variable cfg : config.
Local Abbreviation N := (num_devices cfg).
Local Abbreviation B := (block_size cfg).
Hypothesis Hgeo : valid_geometry cfg.

Lemma geo_B : 0 < B.
Proof using Hgeo. destruct Hgeo as [_ [? _]]. done. Qed.

(** In a parity-consistent stripe the reconstruction of a block is the
    block. *)
Lemma reconstructed_consistent ds p :
  parity_consistent cfg ds (stripe p) ->
  0 <= parity_disk p < N -> 0 <= data_disk p < N ->
  data_disk p <> parity_disk p ->
  reconstructed cfg ds p = block_at cfg ds (data_disk p) (stripe p).
Proof using Hgeo.
  intros [[Hs Hr] Hx] Hp Hd Hne. pose proof geo_B as HB.
  set (f := fun i => block_at cfg ds i (stripe p)).
  assert (forall i, i ∈ seqZ 0 N -> is_block cfg (f i)) as Hf.
  { intros i Hi%elem_of_seqZ. unfold f. apply block_at_block, Hr. lia. }
  unfold reconstructed. rewrite xor_all_cons. fold f.
  rewrite <- (xor_all_masked cfg f
    (fun i => (i =? parity_disk p) || (i =? data_disk p))); cycle 1.
  { intros i. rewrite orb_false_iff, !Z.eqb_neq. done. }
  { intros; by apply Hf. }
  replace ((fun i => if (i =? parity_disk p) || (i =? data_disk p)
                     then zeros B else f i) <$> seqZ 0 N)
    with (upd (data_disk p) (zeros B) (upd (parity_disk p) (zeros B) f)
            <$> seqZ 0 N).
  2:{ apply list_fmap_ext. intros _ i _. unfold upd.
      destruct (Z.eqb_spec i (data_disk p)), (Z.eqb_spec i (parity_disk p)); done. }
  rewrite xor_all_upd; cycle 1.
  { apply NoDup_seqZ. } { apply elem_of_seqZ; lia. } { apply zeros_block. }
  { intros i Hi. unfold upd. destruct (i =? parity_disk p); [apply zeros_block | by apply Hf]. }
  rewrite xor_all_upd; cycle 1.
  { apply NoDup_seqZ. } { apply elem_of_seqZ; lia. } { apply zeros_block. }
  { done. }
  unfold stripe_blocks in Hx. fold f in Hx. rewrite Hx.
  unfold upd at 1. destruct (Z.eqb_spec (data_disk p) (parity_disk p)); [done|].
  assert (is_block cfg (f (data_disk p))) by (apply Hf, elem_of_seqZ; lia).
  assert (is_block cfg (f (parity_disk p))) by (apply Hf, elem_of_seqZ; lia).
  rewrite !xor_zeros_r by (repeat apply xor_is_block; done || apply zeros_block).
  rewrite (xor_block_comm (f (data_disk p))). by apply (xor_cancel cfg).
Qed.

(** With at most one slot missing, the block of a placement is read or
    rebuilt. *)
Lemma read_block_ok ds p :
  at_most_one_missing cfg ->
  0 <= parity_disk p < N -> 0 <= data_disk p < N ->
  data_disk p <> parity_disk p ->
  phys_offset p = stripe p * B ->
  (forall i, 0 <= i < N -> missing cfg i = false ->
     in_range (disk ds i) (stripe p * B) B = true) ->
  read_block cfg p ds = (Ret (Some (delivered_block cfg ds p)), ds) /\
  is_block cfg (delivered_block cfg ds p).
Proof using Hgeo.
  intros Hone Hp Hd Hne Hphys Hr. pose proof geo_B as HB.
  unfold read_block, delivered_block. rewrite Hphys.
  destruct (missing cfg (data_disk p)) eqn:Hmd; cbn [negb].
  - assert (forall i, 0 <= i < N -> i <> data_disk p -> missing cfg i = false) as Hothers.
    { intros i Hi Hid. destruct (missing cfg i) eqn:Hmi; [|done].
      exfalso. apply Hid. by apply Hone. }
    rewrite (Hothers (parity_disk p)) by done.
    erewrite bind_eq; cycle 1.
    { apply dev_pread_ok; [done | by apply Hothers | apply Hr; [done | by apply Hothers]]. }
    cbv beta iota.
    rewrite xor_peers_ok; [|done|]; cycle 1.
    { intros i Hi%elem_of_seqZ [? ?]%orb_false_iff.
      assert (i <> data_disk p) by by apply Z.eqb_neq.
      split; [apply Hothers | apply Hr; [|apply Hothers]]; lia. }
    assert (forall i, i ∈ seqZ 0 N ->
              (i =? parity_disk p) || (i =? data_disk p) = false ->
              is_block cfg (slice (disk ds i) (stripe p * B) B)) as Hf.
    { intros i Hi%elem_of_seqZ [? ?]%orb_false_iff.
      assert (i <> data_disk p) by by apply Z.eqb_neq.
      apply (block_at_block cfg). apply Hr; [|apply Hothers]; lia. }
    assert (is_block cfg (slice (disk ds (parity_disk p)) (stripe p * B) B)) as Hpb.
    { apply (block_at_block cfg). apply Hr; [|apply Hothers]; lia. }
    rewrite (xor_over_all cfg) by done.
    rewrite (xor_all_masked cfg _ _
               (fun i => i <> parity_disk p /\ i <> data_disk p)); cycle 1.
    { intros i. rewrite orb_false_iff, !Z.eqb_neq. done. }
    { done. }
    split; [done|].
    apply xor_is_block; [done|].
    apply xor_all_block, Forall_fmap, Forall_forall.
    intros i [[? ?] Hi]%list_elem_of_filter. cbn.
    apply Hf; [done|]. apply orb_false_iff. by rewrite !Z.eqb_neq.
  - split; [apply dev_pread_ok; [done..|by apply Hr] |].
    apply block_at_block. by apply Hr.
Qed.

End ReadBlock.

(** ** The read loop *)

Lemma splice_nil c off : splice c off [] = c.
Proof. unfold splice. cbn. rewrite Nat.add_0_r. apply take_drop. Qed.

Lemma splice_whole c b : length b = length c -> splice c 0 b = b.
Proof.
  intros Hl. unfold splice. cbn. rewrite drop_ge by lia. apply app_nil_r.
Qed.

Lemma splice_app c off b1 b2 :
  in_range c off (Z.of_nat (length b1 + length b2)) = true ->
  splice (splice c off b1) (off + Z.of_nat (length b1)) b2 =
    splice c off (b1 ++ b2).
Proof.
  intros Hr. pose proof Hr as (? & ? & ?)%in_range_spec.
  assert (in_range c off (Z.of_nat (length b1)) = true) as Hr1
    by (apply in_range_spec; lia).
  assert (in_range (splice c off b1) (off + Z.of_nat (length b1))
            (Z.of_nat (length b2)) = true) as Hr2.
  { rewrite in_range_splice by done. apply in_range_spec; lia. }
  apply list_eq; intros j.
  rewrite !lookup_splice; [|by rewrite length_app|done..].
  rewrite length_app, lookup_app.
  repeat case_decide; try lia.
  - rewrite (lookup_ge_None_2 b1) by lia. f_equal. lia.
  - destruct (lookup_lt_is_Some_2 b1 (j - Z.to_nat off)) as [x Hx]; [lia|].
    by rewrite Hx.
  - done.
Qed.

Section ReadLoop.

Variable cfg : config.
Local Abbreviation N := (num_devices cfg).
Local Abbreviation B := (block_size cfg).
Hypothesis Hgeo : valid_geometry cfg.
Hypothesis Hone : at_most_one_missing cfg.

Variable ds : disks.

Local Abbreviation readable := (readable cfg ds).

Lemma delivered_cons L k :
  0 < k ->
  delivered cfg ds L k =
    delivered_block cfg ds (place cfg L) ++ delivered cfg ds (Z.succ L) (Z.pred k).
Proof. intros. unfold delivered. by rewrite seqZ_cons. Qed.

Lemma read_place_ok L :
  0 <= L -> readable L 1 ->
  read_block cfg (place cfg L) ds =
    (Ret (Some (delivered_block cfg ds (place cfg L))), ds) /\
  is_block cfg (delivered_block cfg ds (place cfg L)).
Proof using Hgeo Hone.
  intros HL Hr.
  destruct (place_bounds cfg Hgeo L HL) as (? & ? & ? & ? & ? & ?).
  apply read_block_ok; try done.
  intros i Hi Hm. specialize (Hr 0 i). rewrite Z.add_0_r in Hr.
  apply Hr; [lia | done..].
Qed.

Lemma length_delivered L (n : nat) :
  0 <= L -> readable L (Z.of_nat n) ->
  length (delivered cfg ds L (Z.of_nat n)) = (n * Z.to_nat B)%nat.
Proof using Hgeo Hone.
  revert L. induction n as [|n IH]; intros L HL Hr; [done|].
  rewrite delivered_cons by lia. rewrite length_app.
  destruct (read_place_ok L HL) as [_ Hb].
  { intros j i ? ? ?. apply Hr; [lia | done..]. }
  rewrite Hb.
  replace (Z.pred (Z.of_nat (S n))) with (Z.of_nat n) by lia.
  rewrite IH; [lia | lia |].
  intros j i ? ? ?. replace (Z.succ L + j) with (L + (j + 1)) by lia.
  apply Hr; [lia | done..].
Qed.

Lemma read_loop_ok (n : nat) : forall fuel buf bpos offset,
  (n <= fuel)%nat ->
  0 <= offset -> offset + Z.of_nat n * B < 2 ^ 64 ->
  Z.of_nat n * B < 2 ^ 32 ->
  0 <= bpos -> bpos + Z.of_nat n * B <= Z.of_nat (length buf) ->
  readable (offset / B) (Z.of_nat n) ->
  xmp_read_loop cfg fuel buf bpos (Z.of_nat n * B) offset ds =
    (Ret (0, splice buf bpos (delivered cfg ds (offset / B) (Z.of_nat n))), ds).
Proof using Hgeo Hone.
  pose proof geo_B cfg Hgeo as HB.
  induction n as [|n IH]; intros fuel buf bpos offset Hfuel Hoff Hend Hlen Hbpos Hbuf Hr.
  - destruct fuel; cbn; by rewrite splice_nil.
  - destruct fuel as [|fuel]; [lia|].
    cbn [xmp_read_loop].
    destruct (Z.gtb_spec (Z.of_nat (S n) * B) 0) as [_|]; [|nia].
    assert (0 <= offset / B) as HL by (apply Z.div_pos; lia).
    rewrite locate_place by (done || nia). cbn [defined].
    rewrite bind_ret_l. unfold vla.
    destruct (Z.ltb_spec 0 B); [|lia]. rewrite bind_ret_l.
    destruct (read_place_ok (offset / B) HL) as [Hrb Hblk].
    { intros j i ? ? ?. apply Hr; [lia | done..]. }
    erewrite bind_eq by exact Hrb. cbv beta iota.
    unfold buf_store.
    assert (in_range buf bpos B = true) as Hin by (apply in_range_spec; nia).
    rewrite Hin, bind_ret_l.
    replace (u32 (Z.of_nat (S n) * B - B)) with (Z.of_nat n * B)
      by (rewrite u32_small; nia).
    replace (u64 (offset + B)) with (offset + B) by (rewrite u64_small; nia).
    assert ((offset + B) / B = Z.succ (offset / B)) as HL'.
    { replace (offset + B) with (offset + 1 * B) by lia.
      rewrite Z.div_add by lia. lia. }
    assert (readable (Z.succ (offset / B)) (Z.of_nat n)) as Hr'.
    { intros j i ? ? ?. replace (Z.succ (offset / B) + j) with (offset / B + (j + 1)) by lia.
      apply Hr; [lia | done..]. }
    assert (Z.of_nat (length (delivered_block cfg ds (place cfg (offset / B)))) = B) as Hlb.
    { rewrite Hblk. lia. }
    rewrite IH; try (done || lia || nia); cycle 1.
    { rewrite length_splice; [nia|]. rewrite Hlb. done. }
    { by rewrite HL'. }
    rewrite HL'. do 2 f_equal.
    replace (bpos + B)
      with (bpos + Z.of_nat (length (delivered_block cfg ds (place cfg (offset / B)))))
      by (by rewrite Hlb).
    rewrite splice_app.
    + f_equal. rewrite (delivered_cons (offset / B)) by lia.
      by replace (Z.pred (Z.of_nat (S n))) with (Z.of_nat n) by lia.
    + rewrite length_delivered by (done || lia).
      apply in_range_spec. rewrite Hblk. nia.
Qed.

(** A request of [k] whole blocks that the present slots can serve
    returns 0 and fills the buffer. *)
Lemma xmp_read_ok fuel buf k offset :
  0 <= k -> k * B < 2 ^ 32 ->
  0 <= offset -> offset + k * B < 2 ^ 64 ->
  Z.of_nat (length buf) = k * B ->
  (Z.to_nat k <= fuel)%nat ->
  readable (offset / B) k ->
  xmp_read cfg fuel buf (k * B) offset ds =
    (Ret (0, delivered cfg ds (offset / B) k), ds).
Proof using Hgeo Hone.
  intros Hk Hlen Hoff Hend Hbuf Hfuel Hr.
  pose proof geo_B cfg Hgeo as HB.
  assert (0 <= offset / B) as HL by (apply Z.div_pos; lia).
  unfold xmp_read. rewrite <- (Z2Nat.id k) by done.
  rewrite read_loop_ok; rewrite ?Z2Nat.id by done; try (done || lia).
  rewrite splice_whole; [done|].
  rewrite <- (Z2Nat.id k) by done. rewrite length_delivered; try done.
  - nia.
  - by rewrite Z2Nat.id.
Qed.

End ReadLoop.

Section DegradedRead.

Variable cfg : config.
Local Abbreviation N := (num_devices cfg).
Local Abbreviation B := (block_size cfg).
Hypothesis Hgeo : valid_geometry cfg.

Lemma missing_none i : missing (none_missing cfg) i = false.
Proof. unfold missing, none_missing, set_missing. cbn. by rewrite lookup_nil. Qed.

Lemma exactly_at_most : exactly_one_missing cfg -> at_most_one_missing cfg.
Proof.
  intros (m & Hm & Hiff) i j Hi Hj Hmi Hmj.
  apply Hiff in Hmi, Hmj; try done. congruence.
Qed.

(** Block by block, a degraded read of parity-consistent stripes hands
    out what the data slots hold. *)
Lemma delivered_consistent ds L k :
  0 <= L ->
  (forall j, 0 <= j < k ->
     parity_consistent cfg ds (stripe (place cfg (L + j)))) ->
  delivered cfg ds L k = delivered (none_missing cfg) ds L k.
Proof using Hgeo.
  intros HL Hc. unfold delivered. f_equal.
  apply list_fmap_ext. intros n l Hl%lookup_seqZ.
  destruct Hl as [-> Hn].
  unfold delivered_block at 2. rewrite missing_none.
  unfold delivered_block.
  destruct (missing cfg _) eqn:Hm; [|done].
  destruct (place_bounds cfg Hgeo (L + Z.of_nat n)) as (? & ? & ? & ? & ? & ?); [lia|].
  rewrite reconstructed_consistent; try done. apply Hc. lia.
Qed.

End DegradedRead.

(** C3. A read request issued with exactly one slot missing returns 0 and
    fills the buffer: a block whose data slot is present is read from that
    slot, a block whose data slot is the missing one is the XOR of the
    parity block of its stripe and the other N-2 data blocks; on
    parity-consistent stripes that is the content a read with no slot
    missing returns. *)
Theorem degraded_read_complete (cfg : config) (ds : disks) (fuel : nat)
    (buf : list byte) (k offset : Z) :
  let N := num_devices cfg in
  let B := block_size cfg in
  let L := offset / B in
  valid_geometry cfg ->
  exactly_one_missing cfg ->
  0 <= k -> k * B < 2 ^ 32 ->
  0 <= offset -> offset + k * B < 2 ^ 64 ->
  Z.of_nat (length buf) = k * B ->
  (Z.to_nat k <= fuel)%nat ->
  readable cfg ds L k ->
  xmp_read cfg fuel buf (k * B) offset ds =
    (Ret (0, delivered cfg ds L k), ds) /\
  (forall j, 0 <= j < k ->
     let p := place cfg (L + j) in
     delivered_block cfg ds p =
       if missing cfg (data_disk p) then reconstructed cfg ds p
       else block_at cfg ds (data_disk p) (stripe p)) /\
  ((forall j, 0 <= j < k ->
      parity_consistent cfg ds (stripe (place cfg (L + j)))) ->
   xmp_read cfg fuel buf (k * B) offset ds =
     xmp_read (none_missing cfg) fuel buf (k * B) offset ds).
Proof.
  intros N B L Hgeo Hone Hk Hlen Hoff Hend Hbuf Hfuel Hr. subst N B L.
  pose proof (exactly_at_most cfg Hone) as Hone'.
  assert (0 <= offset / block_size cfg) as HL.
  { apply Z.div_pos; [done|]. by apply geo_B. }
  split; [|split].
  - by apply xmp_read_ok.
  - done.
  - intros Hc. rewrite xmp_read_ok by done.
    rewrite (xmp_read_ok (none_missing cfg)); try done.
    + by rewrite (delivered_consistent cfg Hgeo ds _ k) by done.
    + intros j i Hj Hi _. by apply (Hc j Hj).
Qed.

(** ** Refusing a double failure *)

Lemma drop_splice c off b m :
  in_range c off (Z.of_nat (length b)) = true ->
  (Z.to_nat off + length b <= m)%nat ->
  drop m (splice c off b) = drop m c.
Proof.
  intros Hr Hm. pose proof Hr as (? & ? & ?)%in_range_spec.
  apply list_eq; intros j. rewrite !lookup_drop, lookup_splice by done.
  case_decide; [lia | done].
Qed.

Section Refusal.

Variable cfg : config.
Local Abbreviation N := (num_devices cfg).
Local Abbreviation B := (block_size cfg).
Hypothesis Hgeo : valid_geometry cfg.

Lemma dev_pread_ret ds i off :
  exists r, dev_pread cfg i off ds = (Ret r, ds) /\
            (forall b, r = Some b -> is_block cfg b).
Proof.
  unfold dev_pread. destruct (missing cfg i); [by eexists|].
  destruct (ds !! Z.to_nat i) as [c|]; [|by eexists].
  destruct (in_range c off B) eqn:Hr; [|by eexists].
  eexists; split; [done|]. intros b [= <-]. by apply length_slice.
Qed.

Lemma xor_peers_ret ds skip phys sl acc :
  is_block cfg acc ->
  exists r, xor_peers cfg skip phys sl acc ds = (Ret r, ds) /\
            (forall b, r = Some b -> is_block cfg b).
Proof.
  revert acc. induction sl as [|i sl IH]; intros acc Hacc; cbn [xor_peers].
  - eexists; split; [done|]. by intros b [= <-].
  - destruct (skip i); [by apply IH|].
    destruct (missing cfg i); [by eexists|].
    destruct (dev_pread_ret ds i phys) as (r & Hr & Hb).
    erewrite bind_eq by exact Hr.
    destruct r as [other|]; [|by eexists].
    apply IH. apply xor_is_block; [done | by apply Hb].
Qed.

Lemma read_block_ret ds p :
  exists r, read_block cfg p ds = (Ret r, ds) /\
            (forall b, r = Some b -> is_block cfg b).
Proof.
  unfold read_block.
  destruct (missing cfg (data_disk p)); cbn [negb]; [|apply dev_pread_ret].
  destruct (missing cfg (parity_disk p)); [by eexists|].
  destruct (dev_pread_ret ds (parity_disk p) (phys_offset p)) as (r & Hr & Hb).
  erewrite bind_eq by exact Hr.
  destruct r as [temp|]; [|by eexists].
  apply xor_peers_ret. by apply Hb.
Qed.

(** A block whose data slot and one more slot are missing is refused. *)
Lemma read_block_refuses ds p :
  0 <= parity_disk p < N -> 0 <= data_disk p < N ->
  missing cfg (data_disk p) = true ->
  (missing cfg (parity_disk p) = true \/
   exists i, 0 <= i < N /\ i <> data_disk p /\ i <> parity_disk p /\
             missing cfg i = true) ->
  read_block cfg p ds = (Ret None, ds).
Proof.
  intros Hp Hd Hmd Hother. unfold read_block. rewrite Hmd. cbn [negb].
  destruct (missing cfg (parity_disk p)) eqn:Hmp; [done|].
  destruct Hother as [?|(i & Hi & Hid & Hip & Hmi)]; [done|].
  destruct (dev_pread_ret ds (parity_disk p) (phys_offset p)) as (r & Hr & _).
  erewrite bind_eq by exact Hr.
  destruct r as [temp|]; [|done].
  apply (xor_peers_refuses cfg ds _ _ _ _ i); [|by apply orb_false_iff; rewrite !Z.eqb_neq|done].
  apply elem_of_seqZ. lia.
Qed.

Lemma read_loop_refuses ds (n : nat) : forall fuel buf bpos len offset,
  (n < fuel)%nat ->
  0 <= offset -> offset + Z.of_nat n * B < 2 ^ 64 ->
  Z.of_nat n * B < len < 2 ^ 32 ->
  0 <= bpos -> bpos + Z.of_nat n * B <= Z.of_nat (length buf) ->
  read_block cfg (place cfg (offset / B + Z.of_nat n)) ds = (Ret None, ds) ->
  exists buf',
    xmp_read_loop cfg fuel buf bpos len offset ds = (Ret (-1, buf'), ds) /\
    length buf' = length buf /\
    drop (Z.to_nat (bpos + Z.of_nat n * B)) buf' =
      drop (Z.to_nat (bpos + Z.of_nat n * B)) buf.
Proof using Hgeo.
  pose proof geo_B cfg Hgeo as HB.
  induction n as [|n IH];
    intros fuel buf bpos len offset Hfuel Hoff Hend Hlen Hbpos Hbuf Hrb;
    (destruct fuel as [|fuel]; [lia|]); cbn [xmp_read_loop];
    (destruct (Z.gtb_spec len 0) as [_|]; [|nia]);
    rewrite locate_place by (done || nia); cbn [defined];
    rewrite bind_ret_l; unfold vla;
    (destruct (Z.ltb_spec 0 B); [|lia]); rewrite bind_ret_l.
  - rewrite Z.add_0_r in Hrb. erewrite bind_eq by exact Hrb.
    by exists buf.
  - destruct (read_block_ret ds (place cfg (offset / B))) as (r & Hr & Hblk).
    erewrite bind_eq by exact Hr.
    destruct r as [temp|]; [|by exists buf].
    specialize (Hblk temp eq_refl). unfold is_block in Hblk.
    unfold buf_store.
    assert (in_range buf bpos B = true) as Hin by (apply in_range_spec; nia).
    rewrite Hin, bind_ret_l.
    assert (in_range buf bpos (Z.of_nat (length temp)) = true) as Hin'.
    { rewrite Hblk, Z2Nat.id by lia. done. }
    destruct (IH fuel (splice buf bpos temp) (bpos + B) (u32 (len - B))
                 (u64 (offset + B))) as (buf' & Hloop & Hlen' & Hdrop).
    + lia.
    + rewrite u64_small; nia.
    + rewrite u64_small; nia.
    + rewrite u32_small; nia.
    + lia.
    + rewrite length_splice by done. nia.
    + rewrite u64_small by nia.
      replace (offset + B) with (offset + 1 * B) by lia.
      rewrite Z.div_add by lia.
      by replace (offset / B + 1 + Z.of_nat n) with (offset / B + Z.of_nat (S n)) by lia.
    + exists buf'. split; [done|]. rewrite Hlen', length_splice by done.
      split; [done|].
      replace (bpos + Z.of_nat (S n) * B) with (bpos + B + Z.of_nat n * B) by lia.
      rewrite Hdrop. apply drop_splice; [done|]. nia.
Qed.

End Refusal.

(** C4. A read request that touches a logical block whose data slot is
    missing, in a stripe whose parity slot or any other slot is missing as
    well, returns a nonzero error, and no byte is delivered for that block
    (nor for any block after it). *)
Theorem double_failure_refused (cfg : config) (ds : disks) (fuel : nat)
    (buf : list byte) (len offset k : Z) :
  let N := num_devices cfg in
  let B := block_size cfg in
  let p := place cfg (offset / B + k) in
  valid_geometry cfg ->
  0 <= offset -> 0 <= len < 2 ^ 32 -> offset + len <= 2 ^ 64 ->
  len <= Z.of_nat (length buf) ->
  0 <= k -> k * B < len ->
  (Z.to_nat k < fuel)%nat ->
  missing cfg (data_disk p) = true ->
  (missing cfg (parity_disk p) = true \/
   exists i, 0 <= i < N /\ i <> data_disk p /\ i <> parity_disk p /\
             missing cfg i = true) ->
  exists buf',
    xmp_read cfg fuel buf len offset ds = (Ret (-1, buf'), ds) /\
    drop (Z.to_nat (k * B)) buf' = drop (Z.to_nat (k * B)) buf.
Proof.
  intros N B p Hgeo Hoff Hlen Hend Hbuf Hk Hkl Hfuel Hmd Hother.
  subst N B p. pose proof (geo_B cfg Hgeo) as HB.
  assert (0 <= offset / block_size cfg) as HL by (apply Z.div_pos; lia).
  destruct (place_bounds cfg Hgeo (offset / block_size cfg + k)) as (? & ? & ? & ? & ? & ?); [lia|].
  destruct (read_loop_refuses cfg Hgeo ds (Z.to_nat k) fuel buf 0 len offset)
    as (buf' & Hloop & _ & Hdrop); rewrite ?Z2Nat.id by done; try (done || lia).
  - apply read_block_refuses; [lia | lia | exact Hmd | exact Hother].
  - exists buf'. by rewrite Z.add_0_l, Z2Nat.id in Hdrop by done.
Qed.

(** ** Storing blocks *)

Section Stores.

Variable cfg : config.
Local Abbreviation N := (num_devices cfg).
Local Abbreviation B := (block_size cfg).
Hypothesis HB : 0 < B.

Lemma dev_pwrite_store ds i b off :
  missing cfg i = false ->
  in_range (disk ds i) off B = true ->
  dev_pwrite cfg i b off ds = (Ret true, store_block ds i off b).
Proof using HB. apply dev_pwrite_ok; done. Qed.

Lemma length_store_block ds i off b :
  length (store_block ds i off b) = length ds.
Proof. apply length_insert. Qed.

Lemma disk_store_same ds i s b :
  0 <= i -> in_range (disk ds i) (s * B) B = true ->
  disk (store_block ds i (s * B) b) i = splice (disk ds i) (s * B) b.
Proof using HB.
  intros Hi Hr. unfold store_block. apply disk_insert_same; [done|].
  apply lookup_lt_is_Some. rewrite (in_range_disk cfg HB _ _ _ Hr). by eexists.
Qed.

Lemma disk_store_other ds i j off b :
  0 <= i -> 0 <= j -> i <> j ->
  disk (store_block ds i off b) j = disk ds j.
Proof. intros. unfold store_block. by apply disk_insert_other. Qed.

Lemma in_range_store ds i s b j off n :
  0 <= i -> 0 <= j -> is_block cfg b ->
  in_range (disk ds i) (s * B) B = true ->
  in_range (disk (store_block ds i (s * B) b) j) off n =
    in_range (disk ds j) off n.
Proof using HB.
  intros Hi Hj Hb Hr.
  assert (Z.of_nat (length b) = B) as Hlb by (rewrite Hb; lia).
  destruct (decide (i = j)) as [<-|Hne].
  - rewrite disk_store_same by done. apply in_range_splice. by rewrite Hlb.
  - by rewrite disk_store_other.
Qed.

Lemma block_store_same ds i s b :
  0 <= i -> is_block cfg b ->
  in_range (disk ds i) (s * B) B = true ->
  block_at cfg (store_block ds i (s * B) b) i s = b.
Proof using HB.
  intros Hi Hb Hr.
  assert (Z.of_nat (length b) = B) as Hlb by (rewrite Hb; lia).
  unfold block_at. rewrite disk_store_same by done.
  pose proof (slice_splice_same (disk ds i) (s * B) b) as Hss.
  rewrite Hlb in Hss. by apply Hss.
Qed.

Lemma block_store_other ds i s b j s' :
  0 <= i -> 0 <= j -> 0 <= s -> 0 <= s' -> is_block cfg b ->
  in_range (disk ds i) (s * B) B = true ->
  i <> j \/ s <> s' ->
  block_at cfg (store_block ds i (s * B) b) j s' = block_at cfg ds j s'.
Proof using HB.
  intros Hi Hj Hs Hs' Hb Hr Hne.
  assert (Z.of_nat (length b) = B) as Hlb by (rewrite Hb; lia).
  unfold block_at.
  destruct (decide (i = j)) as [<-|Hij]; [|by rewrite disk_store_other].
  rewrite disk_store_same by done.
  apply slice_splice_other; [by rewrite Hlb | nia | lia |].
  rewrite Hlb. destruct Hne as [|Hss]; [done|]. nia.
Qed.

Lemma incoming_block buf bpos d :
  in_range buf (bpos + d * B) B = true -> is_block cfg (incoming cfg buf bpos d).
Proof. intros. unfold is_block, incoming. by apply length_slice. Qed.

Lemma buf_block_ok buf bpos d ds :
  in_range buf (bpos + d * B) B = true ->
  buf_block cfg buf (bpos + d * B) ds = (Ret (incoming cfg buf bpos d), ds).
Proof. intros Hr. unfold buf_block. by rewrite Hr. Qed.

End Stores.

(** ** The full-stripe path *)

Lemma data_slot_inj parity d d' :
  data_slot parity d = data_slot parity d' -> d = d'.
Proof.
  unfold data_slot. rewrite !Z.geb_leb.
  destruct (Z.leb_spec parity d), (Z.leb_spec parity d'); lia.
Qed.

Lemma data_slot_bounds parity d n :
  0 <= parity < n -> 0 <= d <= n - 2 ->
  0 <= data_slot parity d < n /\ data_slot parity d <> parity.
Proof.
  unfold data_slot. rewrite !Z.geb_leb. destruct (Z.leb_spec parity d); lia.
Qed.

Section FullStripe.

Variable cfg : config.
Local Abbreviation N := (num_devices cfg).
Local Abbreviation B := (block_size cfg).
Hypothesis Hwf : wf_config cfg.

Lemma wf_geo : valid_geometry cfg.
Proof using Hwf. by destruct Hwf. Qed.

Lemma wf_B : 0 < B.
Proof using Hwf. apply geo_B, wf_geo. Qed.

Variables (buf : list byte) (bpos parity s : Z).
Hypothesis Hparity : 0 <= parity.
Hypothesis Hs : 0 <= s.

Local Abbreviation slot := (data_slot parity).
Local Abbreviation stores := (full_stripe_stores cfg buf bpos parity (s * B)).

Lemma full_stripe_stores_cons d dl ds :
  stores (d :: dl) ds =
    stores dl (if missing cfg (slot d) then ds
               else store_block ds (slot d) (s * B) (incoming cfg buf bpos d)).
Proof. done. Qed.

Lemma slot_nonneg d : 0 <= d -> 0 <= slot d.
Proof. unfold data_slot. destruct (d >=? parity); lia. Qed.

Lemma full_stripe_data_ok dl : forall pb ds,
  (forall d, d ∈ dl -> 0 <= d <= N - 2) ->
  (forall d, d ∈ dl -> in_range buf (bpos + d * B) B = true) ->
  (forall d, d ∈ dl -> missing cfg (slot d) = false ->
     in_range (disk ds (slot d)) (s * B) B = true) ->
  full_stripe_data cfg buf bpos parity (s * B) dl pb ds =
    (Ret (Some (xor_over (incoming cfg buf bpos) (fun _ => false) dl pb)),
     stores dl ds).
Proof using Hwf Hparity.
  pose proof wf_B as HB. destruct Hwf as [[[HN1 HN2] [_ HB2]] Hspan].
  induction dl as [|d dl IH]; intros pb ds Hd Hbuf Hdisk; [done|].
  cbn [full_stripe_data]. rewrite full_stripe_stores_cons, xor_over_cons.
  assert (0 <= d <= N - 2) as Hd0 by (apply Hd; left).
  assert (in_range buf (bpos + d * B) B = true) as Hb0 by (apply Hbuf; left).
  rewrite int_mul_small by (unfold INT_MIN, INT_MAX in *; nia).
  cbn [defined]. rewrite bind_ret_l.
  fold (slot d).
  destruct (missing cfg (slot d)) eqn:Hm; cbn [negb].
  - rewrite bind_ret_l. erewrite bind_eq by (by apply buf_block_ok).
    apply IH.
    + intros; apply Hd; by right.
    + intros; apply Hbuf; by right.
    + intros; apply Hdisk; [by right | done].
  - erewrite bind_eq; cycle 1.
    { erewrite bind_eq by (by apply buf_block_ok).
      apply dev_pwrite_store; [done..|]. apply Hdisk; [left | done]. }
    cbv beta iota.
    erewrite bind_eq by (by apply buf_block_ok).
    apply IH.
    + intros; apply Hd; by right.
    + intros; apply Hbuf; by right.
    + intros d' Hd' Hm'. rewrite in_range_store; try done.
      * apply Hdisk; [by right | done].
      * apply slot_nonneg; lia.
      * apply slot_nonneg. specialize (Hd d' ltac:(by right)). lia.
      * by apply incoming_block.
      * apply Hdisk; [left | done].
Qed.

(** What the media hold after the data blocks were stored. *)
Lemma full_stripe_stores_spec dl : forall ds,
  NoDup dl ->
  (forall d, d ∈ dl -> 0 <= d) ->
  (forall d, d ∈ dl -> in_range buf (bpos + d * B) B = true) ->
  (forall d, d ∈ dl -> missing cfg (slot d) = false ->
     in_range (disk ds (slot d)) (s * B) B = true) ->
  let ds' := stores dl ds in
  length ds' = length ds /\
  (forall j off n, 0 <= j ->
     in_range (disk ds' j) off n = in_range (disk ds j) off n) /\
  (forall j s', 0 <= j -> 0 <= s' -> s' <> s ->
     block_at cfg ds' j s' = block_at cfg ds j s') /\
  (forall j, 0 <= j ->
     (forall d, d ∈ dl -> slot d = j -> missing cfg j = true) ->
     disk ds' j = disk ds j) /\
  (forall d, d ∈ dl -> missing cfg (slot d) = false ->
     block_at cfg ds' (slot d) s = incoming cfg buf bpos d).
Proof using Hwf Hparity Hs.
  pose proof wf_B as HB.
  induction dl as [|d dl IH]; intros ds Hnd Hd Hbuf Hdisk.
  - cbn. repeat split; try done. intros d Hd'. by apply elem_of_nil in Hd'.
  - apply NoDup_cons in Hnd as [Hnotin Hnd].
    rewrite full_stripe_stores_cons.
    assert (0 <= slot d) as Hsd by (apply slot_nonneg, Hd; left).
    assert (is_block cfg (incoming cfg buf bpos d)) as Hinc
      by (apply incoming_block, Hbuf; left).
    set (ds1 := if missing cfg (slot d) then ds
                else store_block ds (slot d) (s * B) (incoming cfg buf bpos d)).
    assert (forall j off n, 0 <= j ->
              in_range (disk ds1 j) off n = in_range (disk ds j) off n) as Hr1.
    { intros j off n Hj. unfold ds1.
      destruct (missing cfg (slot d)) eqn:Hm; [done|].
      apply in_range_store; try done. apply Hdisk; [left | done]. }
    destruct (IH ds1) as (Hlen & Hrange & Hother & Hdisk' & Hblk); try done.
    { intros; apply Hd; by right. }
    { intros; apply Hbuf; by right. }
    { intros d' Hd' Hm'. rewrite Hr1; [apply Hdisk; [by right | done]|].
      apply slot_nonneg, Hd. by right. }
    cbv zeta. split; [|split; [|split; [|split]]].
    + rewrite Hlen. unfold ds1. destruct (missing cfg (slot d)); [done|].
      apply length_store_block.
    + intros j off n Hj. by rewrite Hrange, Hr1.
    + intros j s' Hj Hs' Hne. rewrite Hother by done. unfold ds1.
      destruct (missing cfg (slot d)) eqn:Hm; [done|].
      apply block_store_other; try done; [|by right].
      apply Hdisk; [left | done].
    + intros j Hj Hall. rewrite Hdisk'; [|done|].
      2:{ intros d' Hd'. apply Hall. by right. }
      unfold ds1. destruct (missing cfg (slot d)) eqn:Hm; [done|].
      apply disk_store_other; [done..|].
      intros Heq. specialize (Hall d ltac:(left) Heq). congruence.
    + intros d' [->|Hd']%elem_of_cons Hm'.
      * unfold block_at. rewrite Hdisk'; [|done|].
        2:{ intros d' Hd' Heq. apply data_slot_inj in Heq. by subst. }
        unfold ds1. rewrite Hm'.
        apply (block_store_same cfg HB); [done..|].
        apply Hdisk; [left | done].
      * by apply Hblk.
Qed.

End FullStripe.

Section WriteFull.

Variable cfg : config.
Local Abbreviation N := (num_devices cfg).
Local Abbreviation B := (block_size cfg).
Hypothesis Hwf : wf_config cfg.

Variables (buf : list byte) (bpos len offset : Z) (ds : disks).

Local Abbreviation span := ((N - 1) * B).
Local Abbreviation s := (offset / span).
Local Abbreviation parity := (s mod N).
Local Abbreviation stored :=
  (full_stripe_stores cfg buf bpos parity (s * B) (seqZ 0 (N - 1)) ds).
Local Abbreviation P := (xor_all cfg (incoming cfg buf bpos <$> seqZ 0 (N - 1))).

Hypothesis Hoff : 0 <= offset < 2 ^ 64.
Hypothesis Halign : offset mod span = 0.
Hypothesis Hlen : span <= len < 2 ^ 32.
Hypothesis Hbpos : 0 <= bpos.
Hypothesis Hbuf : bpos + span <= Z.of_nat (length buf).
Hypothesis Hdisks : forall i, 0 <= i < N -> missing cfg i = false ->
  in_range (disk ds i) (s * B) B = true.

Lemma full_stripe_facts :
  0 < span <= INT_MAX /\ 0 <= s /\ s * B <= offset /\ 0 <= parity < N.
Proof using All.
  destruct Hwf as [[[HN1 HN2] [HB1 HB2]] Hspan]. unfold MAX_DEVICES in *.
  assert (0 < span) by nia.
  assert (0 <= s) by (apply Z.div_pos; lia).
  pose proof (Z.mul_div_le offset span ltac:(lia)).
  pose proof (Z.mod_pos_bound s N ltac:(lia)).
  repeat split; try lia. nia.
Qed.

Lemma incoming_in_range d :
  0 <= d <= N - 2 -> in_range buf (bpos + d * B) B = true.
Proof using All.
  destruct Hwf as [[_ [HB1 _]] _]. intros. apply in_range_spec. nia.
Qed.

Lemma write_step_full :
  write_step cfg buf bpos len offset ds =
    if missing cfg parity then (Ret Failed, stored)
    else (Ret (Advance (bpos + span) (len - span) (u64 (offset + span))),
          store_block stored parity (s * B) P).
Proof using All.
  destruct full_stripe_facts as (Hsp & Hs & HsB & Hpar).
  pose proof (wf_B cfg Hwf) as HB.
  destruct Hwf as [[[HN1 HN2] [_ HB2]] _].
  unfold MAX_DEVICES, INT_MAX, INT_MIN in *.
  unfold write_step.
  rewrite int_mul_small by (unfold INT_MIN, INT_MAX; lia).
  cbn [defined]. rewrite bind_ret_l.
  rewrite (u64_small span) by lia.
  rewrite umod64_pos by lia. cbn [defined]. rewrite bind_ret_l.
  rewrite Halign, (u32_small span) by lia.
  destruct (Z.geb_spec len span) as [_|]; [|lia]. cbn [Z.eqb andb].
  unfold write_full_stripe.
  rewrite (u64_small span) by lia.
  rewrite udiv64_pos by lia. cbn [defined]. rewrite bind_ret_l.
  rewrite (u64_small B), (u64_small N) by lia.
  rewrite (u64_small (s * B)) by lia.
  rewrite umod64_pos by lia. cbn [fmap option_fmap option_map defined].
  rewrite bind_ret_l, s32_small by (unfold INT_MIN, INT_MAX; lia).
  unfold vla. destruct (Z.ltb_spec 0 B) as [_|]; [|lia]. rewrite bind_ret_l.
  erewrite bind_eq; cycle 1.
  { apply full_stripe_data_ok; try done; try lia.
    - intros d Hd%elem_of_seqZ. lia.
    - intros d Hd%elem_of_seqZ. apply incoming_in_range. lia.
    - intros d Hd%elem_of_seqZ Hm. apply Hdisks; [|done].
      apply data_slot_bounds; lia. }
  cbv beta iota.
  destruct (missing cfg parity) eqn:Hmp; cbn [negb]; [done|].
  assert (xor_over (incoming cfg buf bpos) (fun _ => false) (seqZ 0 (N - 1)) (zeros B)
          = P) as ->.
  { rewrite (xor_over_all cfg); [|apply zeros_block|].
    - apply xor_zeros_l. apply xor_all_block, Forall_fmap, Forall_forall.
      intros d Hd%elem_of_seqZ. cbn. apply incoming_block, incoming_in_range. lia.
    - intros d Hd%elem_of_seqZ _. apply incoming_block, incoming_in_range. lia. }
  erewrite bind_eq; cycle 1.
  { apply dev_pwrite_store; [done..|].
    destruct (full_stripe_stores_spec cfg Hwf buf bpos parity s ltac:(lia) ltac:(lia)
                (seqZ 0 (N - 1)) ds) as (_ & Hr & _).
    - apply NoDup_seqZ.
    - intros d Hd%elem_of_seqZ. lia.
    - intros d Hd%elem_of_seqZ. apply incoming_in_range. lia.
    - intros d Hd%elem_of_seqZ Hm. apply Hdisks; [|done].
      apply data_slot_bounds; lia.
    - rewrite Hr by lia. by apply Hdisks. }
  cbv beta iota. by rewrite (u32_small (len - span)) by lia.
Qed.

Local Abbreviation final :=
  (if missing cfg parity then stored else store_block stored parity (s * B) P).

Lemma P_block : is_block cfg P.
Proof using All.
  destruct full_stripe_facts as (Hsp & Hs & HsB & Hpar).
  apply xor_all_block, Forall_fmap, Forall_forall.
  intros d Hd%elem_of_seqZ. cbn. apply incoming_block, incoming_in_range. lia.
Qed.

(** The stripe after the full-stripe path, and the rest of the media. *)
Lemma full_stripe_blocks :
  (forall d, 0 <= d <= N - 2 ->
     block_at cfg final (data_slot parity d) s =
       if missing cfg (data_slot parity d)
       then block_at cfg ds (data_slot parity d) s
       else incoming cfg buf bpos d) /\
  block_at cfg final parity s =
    (if missing cfg parity then block_at cfg ds parity s else P) /\
  (forall i s', 0 <= i -> 0 <= s' -> s' <> s ->
     block_at cfg final i s' = block_at cfg ds i s') /\
  (forall i off n, 0 <= i ->
     in_range (disk final i) off n = in_range (disk ds i) off n) /\
  length final = length ds.
Proof using All.
  destruct full_stripe_facts as (Hsp & Hs & HsB & Hpar).
  pose proof (wf_B cfg Hwf) as HB. pose proof P_block as HP.
  pose proof Hwf as [[[HN1 HN2] _] _].
  destruct (full_stripe_stores_spec cfg Hwf buf bpos parity s ltac:(lia) Hs
              (seqZ 0 (N - 1)) ds) as (Hlen' & Hr & Hother & Hdisk & Hblk).
  { apply NoDup_seqZ. }
  { intros d Hd%elem_of_seqZ. lia. }
  { intros d Hd%elem_of_seqZ. apply incoming_in_range. lia. }
  { intros d Hd%elem_of_seqZ Hm. apply Hdisks; [|done].
    apply data_slot_bounds; lia. }
  cbv zeta in Hlen', Hr, Hother, Hdisk, Hblk.
  assert (forall d, 0 <= d <= N - 2 ->
            0 <= data_slot parity d < N /\ data_slot parity d <> parity) as Hslot.
  { intros d Hd. apply data_slot_bounds; lia. }
  assert (forall d, 0 <= d <= N - 2 ->
            block_at cfg stored (data_slot parity d) s =
              if missing cfg (data_slot parity d)
              then block_at cfg ds (data_slot parity d) s
              else incoming cfg buf bpos d) as Hdata.
  { intros d Hd. destruct (Hslot d Hd) as [Hd1 Hd2].
    destruct (missing cfg (data_slot parity d)) eqn:Hm.
    - unfold block_at. rewrite Hdisk; [done | lia |].
      intros d' _ Heq. by rewrite <- Heq, (data_slot_inj _ _ _ Heq).
    - apply Hblk; [apply elem_of_seqZ; lia | done]. }
  destruct (missing cfg parity) eqn:Hmp.
  - split; [done|]. split; [|done].
    unfold block_at. rewrite Hdisk; [done | lia |].
    intros d Hd%elem_of_seqZ Heq. exfalso.
    destruct (Hslot d); lia.
  - assert (in_range (disk stored parity) (s * B) B = true) as Hpr.
    { rewrite Hr by lia. by apply Hdisks. }
    split; [|split; [|split; [|split]]].
    + intros d Hd. destruct (Hslot d Hd) as [Hd1 Hd2].
      rewrite block_store_other;
        [by apply Hdata | first [done | lia | by left] ..].
    + by apply block_store_same; try lia.
    + intros i s' Hi Hs' Hne.
      rewrite block_store_other;
        [by apply Hother | first [done | lia | by right] ..].
    + intros i off n Hi. rewrite in_range_store; try done; try lia. by apply Hr.
    + by rewrite length_store_block.
Qed.

End WriteFull.

(** C5. A write whose current offset is a multiple of (N-1)*B and whose
    remaining length is at least (N-1)*B takes the full-stripe path: the
    d-th incoming block goes to slot d (d < parity) or d+1 of the stripe,
    missing data slots being skipped, the XOR of the N-1 incoming blocks
    goes to the parity slot, and with the parity slot missing the write
    returns a nonzero error.  For B = 4 and N = 3, writing AAAA BBBB at
    offset 0 leaves AAAA in slot 1, BBBB in slot 2 and AAAA xor BBBB in
    slot 0. *)
Theorem full_stripe_path (cfg : config) (ds : disks) (buf : list byte)
    (bpos len offset : Z) (fuel : nat) :
  let N := num_devices cfg in
  let B := block_size cfg in
  let span := (N - 1) * B in
  let s := offset / span in
  let parity := s mod N in
  let P := xor_all cfg (incoming cfg buf bpos <$> seqZ 0 (N - 1)) in
  wf_config cfg ->
  0 <= offset < 2 ^ 64 -> offset mod span = 0 ->
  span <= len < 2 ^ 32 ->
  0 <= bpos -> bpos + span <= Z.of_nat (length buf) ->
  (forall i, 0 <= i < N -> missing cfg i = false ->
     in_range (disk ds i) (s * B) B = true) ->
  (exists ds',
     xmp_write_loop cfg (S fuel) buf bpos len offset ds =
       (if missing cfg parity then (Ret (-1), ds')
        else xmp_write_loop cfg fuel buf (bpos + span) (len - span)
               (u64 (offset + span)) ds') /\
     (forall d, 0 <= d <= N - 2 ->
        let i := if d <? parity then d else d + 1 in
        block_at cfg ds' i s =
          if missing cfg i then block_at cfg ds i s
          else incoming cfg buf bpos d) /\
     block_at cfg ds' parity s =
       (if missing cfg parity then block_at cfg ds parity s else P) /\
     (forall i s', 0 <= i -> 0 <= s' -> s' <> s ->
        block_at cfg ds' i s' = block_at cfg ds i s')) /\
  xmp_write (Config 3 4 16 (-1) [false; false; false]) 1
    [65; 65; 65; 65; 66; 66; 66; 66] 8 0
    [[0; 0; 0; 0; 0; 0; 0; 0]; [0; 0; 0; 0; 0; 0; 0; 0]; [0; 0; 0; 0; 0; 0; 0; 0]] =
    (Ret 0, [[Z.lxor 65 66; Z.lxor 65 66; Z.lxor 65 66; Z.lxor 65 66; 0; 0; 0; 0];
             [65; 65; 65; 65; 0; 0; 0; 0];
             [66; 66; 66; 66; 0; 0; 0; 0]]).
Proof.
  intros N B span s parity P Hwf Hoff Halign Hlen Hbpos Hbuf Hdisks.
  split; [|by vm_compute].
  subst N B span s parity P.
  pose proof (write_step_full cfg Hwf buf bpos len offset ds Hoff Halign Hlen
                Hbpos Hbuf Hdisks) as Hstep.
  destruct (full_stripe_blocks cfg Hwf buf bpos len offset ds Hoff Halign Hlen
              Hbpos Hbuf Hdisks) as (Hdata & Hpar & Hother & _).
  pose proof (wf_B cfg Hwf) as HB.
  pose proof Hwf as [[[HN1 HN2] _] _].
  match type of Hpar with block_at _ ?f _ _ = _ => exists f end.
  split; [|split; [|split]].
  - cbn [xmp_write_loop].
    destruct (Z.gtb_spec len 0) as [_|]; [|nia].
    unfold bind at 1. rewrite Hstep.
    destruct (missing cfg _); reflexivity.
  - intros d Hd. cbv zeta.
    replace (if d <? _ then d else d + 1)
      with (data_slot (offset / ((num_devices cfg - 1) * block_size cfg)
                         mod num_devices cfg) d).
    + by apply Hdata.
    + unfold data_slot. rewrite Z.geb_leb.
      by destruct (Z.ltb_spec d (offset / ((num_devices cfg - 1) * block_size cfg)
                         mod num_devices cfg)), (Z.leb_spec (offset / ((num_devices cfg - 1) * block_size cfg)
                         mod num_devices cfg) d); try lia.
  - exact Hpar.
  - exact Hother.
Qed.

(** ** Data slots and parity slot of a stripe *)

Lemma filter_keep {A} (P : A -> Prop) `{!forall x, Decision (P x)} (l : list A) :
  Forall P l -> filter P l = l.
Proof.
  induction 1 as [|x l Hx _ IH]; [done|].
  rewrite filter_cons. destruct (decide (P x)); [by rewrite IH | done].
Qed.

(** The slots other than the parity slot are the data slots, in order. *)
Lemma data_slots parity n :
  0 <= parity < n ->
  filter (fun i => i <> parity) (seqZ 0 n) = data_slot parity <$> seqZ 0 (n - 1).
Proof.
  intros Hp.
  replace n with (parity + (1 + (n - 1 - parity))) at 1 by lia.
  rewrite seqZ_app, (seqZ_cons (0 + parity)) by lia.
  replace (n - 1) with (parity + (n - 1 - parity)) at 2 by lia.
  rewrite (seqZ_app 0 parity) by lia.
  rewrite filter_app, filter_cons, fmap_app.
  destruct (decide (0 + parity <> parity)); [lia|].
  f_equal.
  - rewrite filter_keep by (apply Forall_seqZ; lia).
    rewrite <- (list_fmap_id (seqZ 0 parity)) at 1.
    apply list_fmap_ext. intros k d [-> ?]%lookup_seqZ.
    unfold data_slot. rewrite Z.geb_leb.
    destruct (Z.leb_spec parity (0 + Z.of_nat k)); [lia | done].
  - rewrite filter_keep by (apply Forall_seqZ; lia).
    replace (Z.pred (1 + (n - 1 - parity))) with (n - 1 - parity) by lia.
    replace (Z.succ (0 + parity)) with (1 + (0 + parity)) by lia.
    rewrite <- fmap_add_seqZ.
    apply list_fmap_ext. intros k d [-> ?]%lookup_seqZ.
    unfold data_slot. rewrite Z.geb_leb.
    destruct (Z.leb_spec parity (0 + parity + Z.of_nat k)); lia.
Qed.

Section StripeParity.

Variable cfg : config.
Local Abbreviation N := (num_devices cfg).
Local Abbreviation B := (block_size cfg).

(** A stripe whose parity slot holds the XOR of its data slots is
    parity-consistent. *)
Lemma xor_stripe_zero (g : Z -> block) parity :
  0 <= parity < N ->
  (forall i, 0 <= i < N -> is_block cfg (g i)) ->
  g parity = xor_all cfg ((fun d => g (data_slot parity d)) <$> seqZ 0 (N - 1)) ->
  xor_all cfg (g <$> seqZ 0 N) = zeros B.
Proof.
  intros Hp Hg HP.
  assert (forall i, i ∈ seqZ 0 N -> is_block cfg (g i)) as Hg'.
  { intros i Hi%elem_of_seqZ. apply Hg. lia. }
  assert (is_block cfg (xor_all cfg (g <$> seqZ 0 N))) as HT.
  { apply xor_all_block, Forall_fmap, Forall_forall. intros i Hi. by apply Hg'. }
  pose proof (xor_all_upd cfg g parity (zeros B) (seqZ 0 N)) as Hupd.
  rewrite xor_zeros_r in Hupd by (by apply Hg).
  assert (xor_all cfg (upd parity (zeros B) g <$> seqZ 0 N) = g parity) as Hrest.
  { replace (upd parity (zeros B) g <$> seqZ 0 N)
      with ((fun i => if i =? parity then zeros B else g i) <$> seqZ 0 N) by done.
    rewrite (xor_all_masked cfg g (fun i => i =? parity) (fun i => i <> parity)).
    - rewrite data_slots by done. by rewrite <- list_fmap_compose.
    - intros i. apply Z.eqb_neq.
    - intros i Hi _. by apply Hg'. }
  rewrite Hrest in Hupd.
  rewrite <- (xor_cancel cfg (g parity) (xor_all cfg (g <$> seqZ 0 N)));
    [|by apply Hg | done].
  rewrite <- Hupd; [by apply xor_self, Hg | apply NoDup_seqZ | apply elem_of_seqZ; lia
                   | apply zeros_block | done].
Qed.

End StripeParity.

(** ** Round trip of a full stripe *)

Section RoundTrip.

Variable cfg : config.
Local Abbreviation N := (num_devices cfg).
Local Abbreviation B := (block_size cfg).
Hypothesis Hwf : wf_config cfg.

(** The logical blocks of stripe [s]. *)
Lemma place_in_stripe s j :
  0 <= s -> 0 <= j < N - 1 ->
  place cfg (s * (N - 1) + j) =
    Placement s j (s mod N) (data_slot (s mod N) j) (s * B).
Proof using Hwf.
  destruct Hwf as [[[HN1 HN2] _] _]. intros Hs Hj. unfold place. cbv zeta.
  assert ((s * (N - 1) + j) / (N - 1) = s) as ->.
  { rewrite Z.add_comm, Z.div_add by lia. rewrite Z.div_small by lia. lia. }
  assert ((s * (N - 1) + j) mod (N - 1) = j) as ->.
  { rewrite Z.add_comm, Z.mod_add by lia. apply Z.mod_small. lia. }
  f_equal. unfold data_slot. rewrite Z.geb_leb.
  destruct (Z.ltb_spec j (s mod N)), (Z.leb_spec (s mod N) j); lia.
Qed.

Lemma join_slices (data : list byte) (n : nat) : forall a,
  0 <= a ->
  mjoin ((fun j => slice data (j * B) B) <$> seqZ a (Z.of_nat n)) =
    slice data (a * B) (Z.of_nat n * B).
Proof using Hwf.
  pose proof (wf_B cfg Hwf) as HB.
  induction n as [|n IH]; intros a Ha; [done|].
  rewrite seqZ_cons by lia. rewrite fmap_cons. cbn [mjoin list_join].
  replace (Z.pred (Z.of_nat (S n))) with (Z.of_nat n) by lia.
  change (list_join ?l) with (mjoin l).
  rewrite IH by lia.
  replace (Z.succ a * B) with (a * B + B) by lia.
  rewrite slice_app by nia. f_equal. lia.
Qed.

Variables (buf : list byte) (bpos len offset : Z) (ds : disks).

Local Abbreviation span := ((N - 1) * B).
Local Abbreviation s := (offset / span).
Local Abbreviation parity := (s mod N).

Hypothesis Hoff : 0 <= offset < 2 ^ 64.
Hypothesis Halign : offset mod span = 0.
Hypothesis Hlen : span <= len < 2 ^ 32.
Hypothesis Hbpos : 0 <= bpos.
Hypothesis Hbuf : bpos + span <= Z.of_nat (length buf).
Hypothesis Hpresent : all_present cfg.
Hypothesis Hdisks : forall i, 0 <= i < N ->
  in_range (disk ds i) (s * B) B = true.

Local Abbreviation final :=
  (store_block
     (full_stripe_stores cfg buf bpos parity (s * B) (seqZ 0 (N - 1)) ds)
     parity (s * B)
     (xor_all cfg (incoming cfg buf bpos <$> seqZ 0 (N - 1)))).

(** With every slot present, the full-stripe path leaves its stripe
    parity-consistent. *)
Lemma full_stripe_consistent :
  write_step cfg buf bpos len offset ds =
    (Ret (Advance (bpos + span) (len - span) (u64 (offset + span))), final) /\
  parity_consistent cfg final s /\
  (forall d, 0 <= d <= N - 2 ->
     block_at cfg final (data_slot parity d) s = incoming cfg buf bpos d).
Proof using All.
  assert (forall i, 0 <= i < N -> missing cfg i = false ->
            in_range (disk ds i) (s * B) B = true) as Hdisks'.
  { intros i Hi _. by apply Hdisks. }
  pose proof (write_step_full cfg Hwf buf bpos len offset ds Hoff Halign Hlen
                Hbpos Hbuf Hdisks') as Hstep.
  destruct (full_stripe_facts cfg Hwf buf bpos len offset ds Hoff Halign Hlen
              Hbpos Hbuf Hdisks') as (Hsp & Hs & HsB & Hpar).
  destruct (full_stripe_blocks cfg Hwf buf bpos len offset ds Hoff Halign Hlen
              Hbpos Hbuf Hdisks') as (Hdata & HP & Hother & Hr & _).
  pose proof Hwf as [[[HN1 HN2] _] _].
  rewrite (Hpresent parity) in Hstep, Hdata, HP, Hother, Hr by done.
  assert (forall d, 0 <= d <= N - 2 ->
            block_at cfg final (data_slot parity d) s = incoming cfg buf bpos d) as Hd.
  { intros d Hd. rewrite Hdata by done. rewrite Hpresent; [done|].
    apply data_slot_bounds; lia. }
  split; [done|]. split; [|done].
  split; [split; [done|]|].
  - intros i Hi. rewrite Hr by lia. by apply Hdisks.
  - unfold stripe_blocks.
    apply (xor_stripe_zero cfg (fun i => block_at cfg final i s) parity); [done| |].
    + intros i Hi. apply block_at_block. rewrite Hr by lia. by apply Hdisks.
    + cbv beta. rewrite HP. f_equal.
      apply list_fmap_ext. intros k d [-> ?]%lookup_seqZ.
      symmetry. apply Hd. lia.
Qed.

End RoundTrip.

(** C2. A full-stripe-aligned write of (N-1)*B bytes at a multiple of
    (N-1)*B, performed with all slots present, followed by a read at the
    same offset and length returns exactly the bytes written, with all N
    slots still present as well as with any single slot (the parity slot of
    the stripe included) marked missing before the read. *)
Theorem full_stripe_round_trip (cfg : config) (ds : disks) (data : list byte)
    (offset : Z) (fuel : nat) :
  let N := num_devices cfg in
  let B := block_size cfg in
  let span := (N - 1) * B in
  wf_config cfg -> all_present cfg ->
  0 <= offset -> offset + span < 2 ^ 64 -> offset mod span = 0 ->
  Z.of_nat (length data) = span ->
  (forall i, 0 <= i < N -> in_range (disk ds i) (offset / span * B) B = true) ->
  exists ds',
    xmp_write cfg (S fuel) data span offset ds = (Ret 0, ds') /\
    forall (l : list bool) (buf : list byte) (fuel' : nat),
      at_most_one_missing (set_missing cfg l) ->
      Z.of_nat (length buf) = span ->
      (Z.to_nat (N - 1) <= fuel')%nat ->
      xmp_read (set_missing cfg l) fuel' buf span offset ds' = (Ret (0, data), ds').
Proof.
  intros N B span Hwf Hpresent Hoff Hend Halign Hdata Hdisks. subst N B span.
  pose proof (wf_B cfg Hwf) as HB.
  pose proof Hwf as [[[HN1 HN2] [_ HB2]] Hspan].
  unfold MAX_DEVICES, INT_MAX in *.
  set (span := (num_devices cfg - 1) * block_size cfg) in *.
  set (s := offset / span) in *.
  assert (0 < span) as Hsp by (unfold span; nia).
  assert (offset = s * span) as Hos.
  { pose proof (Z.div_mod offset span ltac:(lia)). unfold s. lia. }
  assert (0 <= s) as Hs by (apply Z.div_pos; lia).
  assert (offset / block_size cfg = s * (num_devices cfg - 1)) as HL.
  { rewrite Hos. unfold span. rewrite Z.mul_assoc. apply Z.div_mul. lia. }
  destruct (full_stripe_consistent cfg Hwf data 0 span offset ds)
    as (Hstep & Hcons & Hblk); try (done || lia).
  fold span s in Hstep, Hcons, Hblk.
  eexists. split.
  - unfold xmp_write. cbn [xmp_write_loop].
    destruct (Z.gtb_spec span 0) as [_|]; [|lia].
    erewrite bind_eq by exact Hstep. cbv beta iota.
    rewrite Z.sub_diag. by destruct fuel.
  - intros l buf fuel' Hone Hbuf Hfuel.
    set (c := set_missing cfg l) in *.
    assert (valid_geometry c) as Hgc by (by destruct Hwf).
    assert (forall j, 0 <= j < num_devices cfg - 1 ->
              place c (offset / block_size cfg + j) =
                Placement s j (s mod num_devices cfg)
                  (data_slot (s mod num_devices cfg) j) (s * block_size cfg)) as Hplace.
    { intros j Hj. rewrite HL. by apply (place_in_stripe cfg Hwf). }
    change span with ((num_devices c - 1) * block_size c).
    assert (num_devices c = num_devices cfg) as HNc by done.
    assert (block_size c = block_size cfg) as HBc by done.
    rewrite (xmp_read_ok c Hgc Hone); try (done || lia || nia); cycle 1.
    { intros j i Hj Hi _. change (block_size c) with (block_size cfg).
      rewrite Hplace by done. cbn [stripe].
      destruct Hcons as [[_ Hr] _]. by apply Hr. }
    rewrite (delivered_consistent c Hgc); cycle 1.
    { apply Z.div_pos; [lia | done]. }
    { intros j Hj. change (block_size c) with (block_size cfg).
      rewrite Hplace by done. exact Hcons. }
    do 3 f_equal.
    unfold delivered.
    change (block_size c) with (block_size cfg).
    change (num_devices c) with (num_devices cfg).
    rewrite <- (Z.add_0_r (offset / block_size cfg)), <- fmap_add_seqZ.
    rewrite <- list_fmap_compose.
    etrans; [|apply (slice_all data)]. rewrite Hdata.
    replace (slice data 0 span)
      with (slice data (0 * block_size cfg)
              (Z.of_nat (Z.to_nat (num_devices cfg - 1)) * block_size cfg))
      by (rewrite Z2Nat.id by lia; done).
    rewrite <- (join_slices cfg Hwf data (Z.to_nat (num_devices cfg - 1)) 0) by lia.
    rewrite Z2Nat.id by lia.
    f_equal. apply list_fmap_ext. intros k j [-> Hj]%lookup_seqZ.
    cbn [compose]. unfold delivered_block. rewrite missing_none.
    change (place (none_missing c)) with (place c).
    rewrite Hplace by lia. cbn [data_disk stripe].
    change (block_at (none_missing c)) with (block_at cfg).
    rewrite Hblk by lia. unfold incoming. f_equal; lia.
Qed.

(** ** Writes keep stripes parity-consistent *)

Section WriteInvariant.

Variable cfg : config.
Local Abbreviation N := (num_devices cfg).
Local Abbreviation B := (block_size cfg).
Hypothesis Hwf : wf_config cfg.
Hypothesis Hpresent : all_present cfg.

(** A stripe whose blocks and bounds are left alone stays consistent. *)
Lemma consistent_ext ds ds' s :
  (forall i, 0 <= i < N -> block_at cfg ds' i s = block_at cfg ds i s) ->
  (forall i, 0 <= i < N ->
     in_range (disk ds' i) (s * B) B = in_range (disk ds i) (s * B) B) ->
  parity_consistent cfg ds s -> parity_consistent cfg ds' s.
Proof.
  intros Hblk Hr [[Hs Hin] Hx]. split; [split; [done|]|].
  - intros i Hi. rewrite Hr by done. by apply Hin.
  - rewrite <- Hx. unfold stripe_blocks. f_equal.
    apply list_fmap_ext. intros k i [-> ?]%lookup_seqZ. apply Hblk. lia.
Qed.

Lemma consistent_store_other ds i s b s' :
  0 <= i -> 0 <= s -> is_block cfg b ->
  in_range (disk ds i) (s * B) B = true ->
  s <> s' ->
  parity_consistent cfg ds s' ->
  parity_consistent cfg (store_block ds i (s * B) b) s'.
Proof using Hwf.
  pose proof (wf_B cfg Hwf) as HB.
  intros Hi Hs Hb Hr Hne Hc. pose proof Hc as [[Hs' _] _].
  apply (consistent_ext ds); [| |done].
  - intros j Hj. apply block_store_other; first [done | lia | by right].
  - intros j Hj. apply in_range_store; first [done | lia].
Qed.

(** If the data loop of the full-stripe path completes, the buffer held
    the blocks and the media the stripe. *)
Lemma full_stripe_data_inv buf bpos parity s dl : forall pb ds r ds',
  0 <= parity < N -> 0 <= s ->
  (forall d, d ∈ dl -> 0 <= d <= N - 2) ->
  full_stripe_data cfg buf bpos parity (s * B) dl pb ds = (Ret (Some r), ds') ->
  (forall d, d ∈ dl -> in_range buf (bpos + d * B) B = true) /\
  (forall d, d ∈ dl -> in_range (disk ds (data_slot parity d)) (s * B) B = true).
Proof using Hwf Hpresent.
  pose proof (wf_B cfg Hwf) as HB. pose proof Hwf as [[[HN1 HN2] [_ HB2]] Hspan].
  induction dl as [|d dl IH]; intros pb ds r ds' Hp Hs Hd Hrun.
  - split; intros d Hd'; by apply elem_of_nil in Hd'.
  - assert (0 <= d <= N - 2) as Hd0 by (apply Hd; left).
    destruct (data_slot_bounds parity d N) as [Hsl Hne]; [done..|].
    cbn [full_stripe_data] in Hrun.
    rewrite int_mul_small in Hrun by (unfold INT_MIN, INT_MAX in *; nia).
    cbn [defined] in Hrun. rewrite bind_ret_l in Hrun.
    fold (data_slot parity d) in Hrun.
    rewrite (Hpresent _ Hsl) in Hrun. cbn [negb] in Hrun.
    unfold buf_block in Hrun.
    destruct (in_range buf (bpos + d * B) B) eqn:Hbuf; [|done].
    unfold bind in Hrun at 1. rewrite bind_ret_l in Hrun.
    fold (incoming cfg buf bpos d) in Hrun.
    destruct (dev_pwrite cfg (data_slot parity d) (incoming cfg buf bpos d)
                (s * B) ds) as [[[|]| |] ds1] eqn:Hw; try done.
    apply dev_pwrite_true in Hw as (_ & Hin & ->).
    rewrite bind_ret_l in Hrun.
    apply IH in Hrun as [Hbufs Hdisks]; try done.
    2:{ intros; apply Hd; by right. }
    split.
    + intros d' [->|Hd']%elem_of_cons; [done | by apply Hbufs].
    + intros d' [->|Hd']%elem_of_cons; [done|].
      specialize (Hdisks d' Hd').
      assert (0 <= d' <= N - 2) as Hd0' by (apply Hd; by right).
      destruct (data_slot_bounds parity d' N) as [Hsl' _]; [done..|].
      rewrite in_range_store in Hdisks; try done; try lia.
      by apply incoming_block.
Qed.

(** One store into a consistent stripe changes its XOR by the old block
    XOR the new one. *)
Lemma stripe_blocks_store ds i s b :
  0 <= i < N -> 0 <= s -> is_block cfg b ->
  in_range (disk ds i) (s * B) B = true ->
  stripe_blocks cfg (store_block ds i (s * B) b) s =
    upd i b (fun j => block_at cfg ds j s) <$> seqZ 0 N.
Proof using Hwf.
  pose proof (wf_B cfg Hwf) as HB. intros Hi Hs Hb Hr.
  unfold stripe_blocks. apply list_fmap_ext. intros k j [-> ?]%lookup_seqZ.
  unfold upd. destruct (Z.eqb_spec (0 + Z.of_nat k) i) as [->|Hne].
  - apply block_store_same; first [done | lia].
  - apply block_store_other; first [done | lia | left; lia].
Qed.

Lemma holds_stripe_store ds i s b s' :
  0 <= i -> is_block cfg b ->
  in_range (disk ds i) (s * B) B = true ->
  holds_stripe cfg ds s' -> holds_stripe cfg (store_block ds i (s * B) b) s'.
Proof using Hwf.
  pose proof (wf_B cfg Hwf) as HB. intros Hi Hb Hr [Hs' Hin].
  split; [done|]. intros j Hj. rewrite in_range_store; first [done | lia | by apply Hin].
Qed.

(** Read-modify-write of one block keeps its stripe consistent. *)
Lemma rmw_consistent ds p d s new_data :
  0 <= p < N -> 0 <= d < N -> d <> p ->
  is_block cfg new_data ->
  parity_consistent cfg ds s ->
  let old_parity := block_at cfg ds p s in
  let old_data := block_at cfg ds d s in
  let new_parity := xor_block (xor_block old_parity old_data) new_data in
  parity_consistent cfg
    (store_block (store_block ds d (s * B) new_data) p (s * B) new_parity) s.
Proof using Hwf.
  pose proof (wf_B cfg Hwf) as HB.
  intros Hp Hd Hne Hnd [[Hs Hin] Hx] old_parity old_data new_parity.
  assert (is_block cfg old_parity) as Hop by (apply block_at_block, Hin; lia).
  assert (is_block cfg old_data) as Hod by (apply block_at_block, Hin; lia).
  assert (is_block cfg new_parity) as Hnp by (by repeat apply xor_is_block).
  set (ds1 := store_block ds d (s * B) new_data).
  assert (holds_stripe cfg ds1 s) as Hh1.
  { apply holds_stripe_store; first [done | lia | by apply Hin]. }
  split; [apply holds_stripe_store; first [done | lia | by apply Hh1]|].
  rewrite stripe_blocks_store; [|done..|by apply Hh1].
  rewrite (xor_all_upd cfg); cycle 1.
  { apply NoDup_seqZ. } { apply elem_of_seqZ; lia. } { done. }
  { intros i Hi%elem_of_seqZ. apply block_at_block, Hh1. lia. }
  fold (stripe_blocks cfg ds1 s). unfold ds1.
  rewrite stripe_blocks_store; [|done..|by apply Hin].
  rewrite (xor_all_upd cfg); cycle 1.
  { apply NoDup_seqZ. } { apply elem_of_seqZ; lia. } { done. }
  { intros i Hi%elem_of_seqZ. apply block_at_block, Hin. lia. }
  fold (stripe_blocks cfg ds s). rewrite Hx.
  rewrite block_store_other;
    [|first [done | lia | by left | apply Hin; lia]..].
  fold old_parity old_data.
  rewrite xor_zeros_r by (by apply xor_is_block).
  unfold new_parity.
  rewrite <- (xor_block_assoc old_parity old_data new_data).
  rewrite (xor_cancel cfg) by (done || by apply xor_is_block).
  apply xor_self. by apply xor_is_block.
Qed.

Local Abbreviation span := ((N - 1) * B).

(** The full-stripe path, when it goes on to the next iteration. *)
Lemma full_stripe_preserves buf bpos len offset ds bpos' len' offset' ds' s :
  0 <= offset < 2 ^ 64 -> 0 <= len < 2 ^ 32 ->
  offset mod span = 0 -> span <= len ->
  write_full_stripe cfg buf bpos len offset span ds =
    (Ret (Advance bpos' len' offset'), ds') ->
  write_step cfg buf bpos len offset ds =
    (Ret (Advance bpos' len' offset'), ds') ->
  parity_consistent cfg ds s -> parity_consistent cfg ds' s.
Proof using Hwf Hpresent.
  intros Hoff Hlen Halign Hspan Hrun Hstep0 Hcons.
  pose proof (wf_B cfg Hwf) as HB.
  pose proof Hwf as [[[HN1 HN2] [_ HB2]] Hsp].
  unfold MAX_DEVICES, INT_MAX in *.
  set (s0 := offset / span).
  assert (0 < span) as Hsp0 by nia.
  assert (0 <= s0) as Hs0 by (apply Z.div_pos; lia).
  assert (s0 * B <= offset) as Hs0B.
  { pose proof (Z.mul_div_le offset span ltac:(lia)). unfold s0. nia. }
  assert (0 <= s0 mod N < N) as Hpar by (apply Z.mod_pos_bound; lia).
  unfold write_full_stripe in Hrun.
  rewrite (u64_small span) in Hrun by lia.
  rewrite udiv64_pos in Hrun by lia. cbn [defined] in Hrun.
  rewrite bind_ret_l in Hrun. fold s0 in Hrun.
  rewrite (u64_small B), (u64_small N) in Hrun by lia.
  rewrite (u64_small (s0 * B)) in Hrun by lia.
  rewrite umod64_pos in Hrun by lia.
  cbn [fmap option_fmap option_map defined] in Hrun.
  rewrite bind_ret_l, s32_small in Hrun by (unfold INT_MIN, INT_MAX; lia).
  unfold vla in Hrun. destruct (Z.ltb_spec 0 B) as [_|]; [|lia].
  rewrite bind_ret_l in Hrun.
  unfold bind in Hrun at 1.
  destruct (full_stripe_data cfg buf bpos (s0 mod N) (s0 * B) (seqZ 0 (N - 1))
              (zeros B) ds) as [[[pb|]| |] ds1] eqn:Hfs; try done.
  pose proof Hfs as [Hbufs Hdisks]%full_stripe_data_inv; try done.
  2:{ intros d Hd%elem_of_seqZ. lia. }
  rewrite full_stripe_data_ok in Hfs; try done; try lia; cycle 1.
  { intros d Hd%elem_of_seqZ. lia. }
  { intros d Hd _. by apply Hdisks. }
  injection Hfs as _ <-.
  rewrite (Hpresent (s0 mod N)) in Hrun by done. cbn [negb] in Hrun.
  unfold bind in Hrun at 1.
  destruct (dev_pwrite cfg (s0 mod N) pb (s0 * B) _) as [[[|]| |] ds2] eqn:Hw;
    try done.
  apply dev_pwrite_true in Hw as (_ & Hinp & _).
  destruct (full_stripe_stores_spec cfg Hwf buf bpos (s0 mod N) s0 ltac:(lia) Hs0
              (seqZ 0 (N - 1)) ds) as (_ & Hr & _).
  { apply NoDup_seqZ. }
  { intros d Hd%elem_of_seqZ. lia. }
  { done. }
  { intros d Hd _. by apply Hdisks. }
  rewrite Hr in Hinp by lia.
  assert (0 <= bpos /\ bpos + span <= Z.of_nat (length buf)) as [Hbpos Hbuf].
  { pose proof (Hbufs 0 ltac:(apply elem_of_seqZ; lia)) as (? & ? & ?)%in_range_spec.
    pose proof (Hbufs (N - 2) ltac:(apply elem_of_seqZ; lia)) as (? & ? & ?)%in_range_spec.
    lia. }
  assert (forall i, 0 <= i < N -> in_range (disk ds i) (s0 * B) B = true) as Hall.
  { intros i Hi. destruct (decide (i = s0 mod N)) as [->|Hne]; [done|].
    set (d := if i <? s0 mod N then i else i - 1).
    assert (data_slot (s0 mod N) d = i) as Hslot.
    { unfold data_slot, d. rewrite Z.geb_leb.
      destruct (Z.ltb_spec i (s0 mod N)).
      - destruct (Z.leb_spec (s0 mod N) i); lia.
      - destruct (Z.leb_spec (s0 mod N) (i - 1)); lia. }
    rewrite <- Hslot.
    apply Hdisks, elem_of_seqZ. unfold d.
    destruct (Z.ltb_spec i (s0 mod N)); lia. }
  destruct (full_stripe_consistent cfg Hwf buf bpos len offset ds)
    as (Hstep & Hfinal & _); try done; try lia.
  rewrite Hstep in Hstep0. injection Hstep0 as _ _ _ <-.
  destruct (decide (s = s0)) as [->|Hne]; [done|].
  pose proof Hcons as [[Hs _] _].
  destruct (full_stripe_blocks cfg Hwf buf bpos len offset ds)
    as (_ & _ & Hother & Hr' & _); try done; try lia.
  { intros i Hi _. by apply Hall. }
  fold s0 in Hother, Hr'. rewrite (Hpresent (s0 mod N)) in Hother, Hr' by done.
  apply (consistent_ext ds); [| |done].
  - intros i Hi. apply Hother; lia.
  - intros i Hi. apply Hr'; lia.
Qed.

(** Read-modify-write, when it goes on to the next iteration. *)
Lemma rmw_preserves buf bpos len offset ds bpos' len' offset' ds' s :
  0 <= offset < 2 ^ 64 ->
  write_rmw cfg buf bpos len offset ds =
    (Ret (Advance bpos' len' offset'), ds') ->
  parity_consistent cfg ds s -> parity_consistent cfg ds' s.
Proof using Hwf Hpresent.
  intros Hoff Hrun Hcons.
  pose proof (wf_B cfg Hwf) as HB. pose proof (wf_geo cfg Hwf) as Hgeo.
  assert (0 <= offset / B) as HL by (apply Z.div_pos; lia).
  destruct (place_bounds cfg Hgeo (offset / B) HL) as (Hs1 & _ & Hp & Hd & Hne & Hphys).
  unfold write_rmw in Hrun.
  rewrite locate_place in Hrun by done. cbn [defined] in Hrun.
  rewrite bind_ret_l in Hrun.
  remember (place cfg (offset / B)) as p eqn:Hpeq. clear Hpeq.
  rewrite Hphys in Hrun.
  unfold vla in Hrun. destruct (Z.ltb_spec 0 B) as [_|]; [|lia].
  rewrite bind_ret_l in Hrun.
  unfold read_or_zero in Hrun.
  rewrite (Hpresent (parity_disk p)), (Hpresent (data_disk p)) in Hrun by done.
  cbn [negb] in Hrun.
  unfold bind in Hrun at 1.
  destruct (dev_pread cfg (parity_disk p) (stripe p * B) ds)
    as [[[old_parity|]| |] ds1] eqn:Hrp; try done.
  apply dev_pread_some in Hrp as (Hinp & -> & ->).
  unfold bind in Hrun at 1.
  destruct (dev_pread cfg (data_disk p) (stripe p * B) ds)
    as [[[old_data|]| |] ds1] eqn:Hrd; try done.
  apply dev_pread_some in Hrd as (Hind & -> & ->).
  unfold buf_block in Hrun.
  destruct (in_range buf bpos B) eqn:Hbuf; [|done].
  rewrite bind_ret_l in Hrun.
  assert (is_block cfg (slice buf bpos B)) as Hnd by (by apply length_slice).
  unfold bind in Hrun at 1.
  destruct (dev_pwrite cfg (data_disk p) (slice buf bpos B) (stripe p * B) ds)
    as [[[|]| |] ds1] eqn:Hwd; try done.
  apply dev_pwrite_true in Hwd as (_ & _ & ->).
  cbn [negb] in Hrun.
  unfold bind in Hrun at 1.
  destruct (dev_pwrite cfg (parity_disk p) _ (stripe p * B) _)
    as [[[|]| |] ds2] eqn:Hwp; try done.
  apply dev_pwrite_true in Hwp as (_ & Hinp' & ->).
  injection Hrun as _ _ _ <-.
  destruct (decide (s = stripe p)) as [->|Hns].
  - by apply rmw_consistent.
  - apply consistent_store_other; [lia | lia | | done | lia |].
    + repeat apply xor_is_block; try done; by apply length_slice.
    + apply consistent_store_other; [lia | lia | done | done | lia | done].
Qed.

Lemma write_full_stripe_advance buf bpos len offset sp ds b l o ds' :
  write_full_stripe cfg buf bpos len offset sp ds = (Ret (Advance b l o), ds') ->
  l = u32 (len - sp) /\ o = u64 (offset + sp).
Proof.
  unfold write_full_stripe, bind, defined, vla, ret, undef. intros H.
  repeat case_match; by simplify_eq.
Qed.

Lemma write_rmw_advance buf bpos len offset ds b l o ds' :
  write_rmw cfg buf bpos len offset ds = (Ret (Advance b l o), ds') ->
  l = u32 (len - B) /\ o = u64 (offset + B).
Proof.
  unfold write_rmw, bind, defined, vla, ret, undef. intros H.
  repeat case_match; by simplify_eq.
Qed.

(** One iteration of the write loop. *)
Lemma write_step_preserves buf bpos len offset ds bpos' len' offset' ds' s :
  0 <= offset < 2 ^ 64 -> 0 <= len < 2 ^ 32 ->
  write_step cfg buf bpos len offset ds =
    (Ret (Advance bpos' len' offset'), ds') ->
  (parity_consistent cfg ds s -> parity_consistent cfg ds' s) /\
  0 <= len' < 2 ^ 32 /\ 0 <= offset' < 2 ^ 64.
Proof using Hwf Hpresent.
  intros Hoff Hlen Hrun.
  pose proof (wf_B cfg Hwf) as HB.
  pose proof Hwf as [[[HN1 HN2] [_ HB2]] Hsp].
  unfold MAX_DEVICES, INT_MAX in *.
  pose proof Hrun as Hrun0.
  unfold write_step in Hrun.
  rewrite int_mul_small in Hrun by (unfold INT_MIN, INT_MAX; nia).
  cbn [defined] in Hrun. rewrite bind_ret_l in Hrun.
  rewrite (u64_small span) in Hrun by nia.
  rewrite umod64_pos in Hrun by nia. cbn [defined] in Hrun.
  rewrite bind_ret_l, (u32_small span) in Hrun by nia.
  destruct ((offset mod span =? 0) && (len >=? span)) eqn:Hc.
  - apply andb_true_iff in Hc as [Ha%Z.eqb_eq Hl].
    rewrite Z.geb_leb in Hl. apply Z.leb_le in Hl.
    split; [by eapply full_stripe_preserves|].
    apply write_full_stripe_advance in Hrun as [-> ->].
    unfold u32, u64. split; apply Z.mod_pos_bound; lia.
  - split; [by eapply rmw_preserves|].
    apply write_rmw_advance in Hrun as [-> ->].
    unfold u32, u64. split; apply Z.mod_pos_bound; lia.
Qed.

Lemma write_loop_preserves fuel : forall buf bpos len offset ds ds' s,
  0 <= offset < 2 ^ 64 -> 0 <= len < 2 ^ 32 ->
  xmp_write_loop cfg fuel buf bpos len offset ds = (Ret 0, ds') ->
  parity_consistent cfg ds s -> parity_consistent cfg ds' s.
Proof using Hwf Hpresent.
  induction fuel as [|fuel IH]; intros buf bpos len offset ds ds' s Hoff Hlen Hrun Hc;
    cbn [xmp_write_loop] in Hrun;
    (destruct (len >? 0); [|by injection Hrun as <-]); [done|].
  unfold bind in Hrun at 1.
  destruct (write_step cfg buf bpos len offset ds)
    as [[[|bpos' len' offset']| |] ds1] eqn:Hstep; try done.
  destruct (write_step_preserves _ _ _ _ _ _ _ _ _ s Hoff Hlen Hstep)
    as (Hpres & Hlen' & Hoff').
  eapply IH; [exact Hoff' | exact Hlen' | exact Hrun | by apply Hpres].
Qed.

End WriteInvariant.

(** C6. Parity consistency is an invariant of writing: with all N slots
    present, a stripe whose XOR over the N slots is zero at every byte
    position has that property again after any sequence of write requests
    that returned success, be they served by the full-stripe path or by
    read-modify-write (new parity = old parity xor old data xor new
    data). *)
Theorem writes_keep_parity (cfg : config) (reqs : list request)
    (ds ds' : disks) (s : Z) :
  wf_config cfg -> all_present cfg ->
  Forall valid_request reqs ->
  run_writes cfg reqs ds = Some ds' ->
  parity_consistent cfg ds s -> parity_consistent cfg ds' s.
Proof.
  intros Hwf Hpresent Hvalid. revert ds.
  induction Hvalid as [|r reqs [Hlen Hoff] _ IH]; intros ds Hrun Hc.
  - by injection Hrun as <-.
  - cbn [run_writes] in Hrun.
    destruct (xmp_write cfg (req_fuel r) (req_buf r) (req_len r) (req_offset r) ds)
      as [[status| |] ds1] eqn:Hw; try done.
    destruct (Z.eqb_spec status 0) as [->|]; [|done].
    apply (IH ds1 Hrun).
    by eapply (write_loop_preserves cfg Hwf Hpresent).
Qed.

(** ** Rebuild *)

Lemma xor_over_ext (f g : Z -> list Z) skip sl acc :
  (forall i, i ∈ sl -> skip i = false -> f i = g i) ->
  xor_over f skip sl acc = xor_over g skip sl acc.
Proof.
  revert acc. induction sl as [|i sl IH]; intros acc Hfg; [done|].
  rewrite !xor_over_cons.
  destruct (skip i) eqn:Hs.
  - apply IH. intros j Hj. apply Hfg. by right.
  - rewrite (Hfg i) by (done || left). apply IH. intros j Hj. apply Hfg. by right.
Qed.

(** Storing the next rebuilt block extends the rebuilt part of a medium. *)
Lemma splice_rebuild (o c : list byte) a n :
  length c = length o ->
  0 <= a -> 0 <= n -> a + n <= Z.of_nat (length o) ->
  splice (take (Z.to_nat a) o ++ drop (Z.to_nat a) c) a (slice o a n) =
    take (Z.to_nat (a + n)) o ++ drop (Z.to_nat (a + n)) c.
Proof.
  intros Hlen Ha Hn Hend.
  assert (length (slice o a n) = Z.to_nat n) as Hls.
  { apply length_slice, in_range_spec. lia. }
  assert (length (take (Z.to_nat a) o ++ drop (Z.to_nat a) c) = length o) as Hl1.
  { rewrite length_app, length_take, length_drop. lia. }
  apply list_eq; intros j.
  rewrite lookup_splice by (apply in_range_spec; rewrite Hl1, Hls; lia).
  rewrite Hls, lookup_slice.
  rewrite !lookup_app, !lookup_take, !lookup_drop.
  rewrite !length_take.
  repeat case_decide; try lia.
  - replace (Z.to_nat a + (j - Z.to_nat a))%nat with j by lia.
    destruct (lookup_lt_is_Some_2 o j) as [x Hx]; [lia|]. by rewrite Hx.
  - destruct (lookup_lt_is_Some_2 o j) as [x Hx]; [lia|]. by rewrite Hx.
  - f_equal. lia.
Qed.

Section Rebuild.

Variable cfg : config.
Local Abbreviation N := (num_devices cfg).
Local Abbreviation B := (block_size cfg).
Local Abbreviation t := (rebuild_dev cfg).
Hypothesis Hgeo : valid_geometry cfg.
Hypothesis Ht : 0 <= t < N.

(** The block of the target in a consistent stripe, from the other
    slots. *)
Lemma xor_others (f : Z -> block) :
  (forall i, 0 <= i < N -> is_block cfg (f i)) ->
  xor_all cfg (f <$> seqZ 0 N) = zeros B ->
  xor_over f (fun i => i =? t) (seqZ 0 N) (zeros B) = f t.
Proof using Ht.
  intros Hf Hx.
  assert (forall i, i ∈ seqZ 0 N -> is_block cfg (f i)) as Hf'.
  { intros i Hi%elem_of_seqZ. apply Hf. lia. }
  rewrite (xor_over_all cfg); [|apply zeros_block | by intros; apply Hf'].
  change ((fun i => if i =? t then zeros B else f i) <$> seqZ 0 N)
    with (upd t (zeros B) f <$> seqZ 0 N).
  rewrite (xor_all_upd cfg);
    [|apply NoDup_seqZ | apply elem_of_seqZ; lia | apply zeros_block | done].
  rewrite Hx.
  rewrite (xor_zeros_r cfg (f t)) by (by apply Hf).
  rewrite (xor_zeros_r cfg (f t)) by (by apply Hf).
  apply xor_zeros_l. by apply Hf.
Qed.

(** One stripe of the rebuild, from media [ds] that agree with
    parity-consistent media [ds0] off the target. *)
Lemma rebuild_stripe_ok ds0 ds s :
  all_present cfg ->
  0 <= s -> s * B < 2 ^ 64 ->
  parity_consistent cfg ds0 s ->
  (forall i, 0 <= i < N -> i <> t -> disk ds i = disk ds0 i) ->
  in_range (disk ds t) (s * B) B = true ->
  rebuild_stripe cfg s ds =
    (Ret true, store_block ds t (s * B) (block_at cfg ds0 t s)).
Proof using Hgeo Ht.
  intros Hpresent Hs HsB Hcons Hagree Hint.
  pose proof (geo_B cfg Hgeo) as HB.
  pose proof Hgeo as [[HN1 HN2] [_ HB2]]. unfold MAX_DEVICES, INT_MAX in *.
  pose proof Hcons as [[_ Hin] Hx].
  assert (0 <= s mod N < N) as Hp by (apply Z.mod_pos_bound; lia).
  set (f := fun i => block_at cfg ds0 i s).
  assert (forall i, 0 <= i < N -> is_block cfg (f i)) as Hf.
  { intros i Hi. unfold f. apply block_at_block, Hin. lia. }
  assert (forall i, 0 <= i < N -> i <> t ->
            slice (disk ds i) (s * B) B = f i) as Hsame.
  { intros i Hi Hne. by rewrite Hagree. }
  unfold rebuild_stripe.
  rewrite (u64_small B), (u64_small N), (u64_small (s * B)) by lia.
  rewrite umod64_pos by lia. cbn [fmap option_fmap option_map defined].
  rewrite bind_ret_l, s32_small by (unfold INT_MIN, INT_MAX; lia).
  destruct (Z.eqb_spec t (s mod N)) as [Heq|Hne].
  - unfold vla. destruct (Z.ltb_spec 0 B) as [_|]; [|lia]. rewrite bind_ret_l.
    rewrite <- Heq.
    erewrite bind_eq; cycle 1.
    { apply xor_peers_ok; [done|].
      intros i Hi%elem_of_seqZ Hsk%Z.eqb_neq.
      split; [apply Hpresent; lia|]. rewrite Hagree by lia. apply Hin. lia. }
    cbv beta iota.
    rewrite (xor_over_ext _ f); cycle 1.
    { intros i Hi%elem_of_seqZ Hsk%Z.eqb_neq. apply Hsame; lia. }
    rewrite xor_others by done.
    apply dev_pwrite_store; [done | by apply Hpresent | done].
  - unfold vla. destruct (Z.ltb_spec 0 B) as [_|]; [|lia]. rewrite bind_ret_l.
    unfold read_or_zero. rewrite (Hpresent (s mod N)) by done. cbn [negb].
    erewrite bind_eq; cycle 1.
    { apply dev_pread_ok; [done | by apply Hpresent |].
      rewrite Hagree by (done || lia). by apply Hin. }
    cbv beta iota.
    erewrite bind_eq; cycle 1.
    { apply xor_peers_ok; [done|].
      intros i Hi%elem_of_seqZ [Hi1%Z.eqb_neq Hi2%Z.eqb_neq]%orb_false_iff.
      split; [apply Hpresent; lia|]. rewrite Hagree by lia. apply Hin. lia. }
    cbv beta iota.
    rewrite (xor_over_ext _ f); cycle 1.
    { intros i Hi%elem_of_seqZ [Hi1%Z.eqb_neq Hi2%Z.eqb_neq]%orb_false_iff.
      apply Hsame; lia. }
    rewrite Hsame by (done || lia).
    rewrite (xor_over_all cfg); [|by apply Hf | intros i Hi%elem_of_seqZ _; apply Hf; lia].
    rewrite (xor_all_masked cfg f _ (fun i => i <> s mod N /\ i <> t)); cycle 1.
    { intros i. rewrite orb_false_iff, !Z.eqb_neq. done. }
    { intros i Hi%elem_of_seqZ _. apply Hf. lia. }
    pose proof (reconstructed_consistent cfg Hgeo ds0 (Placement s 0 (s mod N) t 0))
      as Hrec.
    unfold reconstructed in Hrec. cbn [stripe parity_disk data_disk] in Hrec.
    rewrite xor_all_cons in Hrec. fold f in Hrec.
    change (block_at cfg ds0 (s mod N) s) with (f (s mod N)) in Hrec.
    rewrite Hrec by done.
    apply dev_pwrite_store; [done | by apply Hpresent | done].
Qed.


Lemma rebuild_loop_ok ds0 (c : list byte) (n : nat) : forall k,
  all_present cfg ->
  0 <= k -> (k + Z.of_nat n) * B < 2 ^ 64 ->
  Z.of_nat (length ds0) = N ->
  length c = length (disk ds0 t) ->
  (forall s, k <= s < k + Z.of_nat n -> parity_consistent cfg ds0 s) ->
  rebuild_loop cfg n k (rebuilt cfg ds0 c k) =
    (Ret 0, rebuilt cfg ds0 c (k + Z.of_nat n)).
Proof using Hgeo Ht.
  pose proof (geo_B cfg Hgeo) as HB.
  induction n as [|n IH]; intros k Hpresent Hk Hend Hlen Hc Hcons.
  - cbn [rebuild_loop]. by rewrite Z.add_0_r.
  - cbn [rebuild_loop].
    assert (parity_consistent cfg ds0 k) as Hck by (apply Hcons; lia).
    pose proof Hck as [[_ Hin] _].
    pose proof (Hin t Ht) as (_ & _ & Hto)%in_range_spec.
    assert (Z.to_nat t < length ds0)%nat as Htl by lia.
    assert (disk (rebuilt cfg ds0 c k) t =
              take (Z.to_nat (k * B)) (disk ds0 t) ++ drop (Z.to_nat (k * B)) c)
      as Hdt by (apply disk_insert_same; lia).
    assert (forall i, 0 <= i < N -> i <> t ->
              disk (rebuilt cfg ds0 c k) i = disk ds0 i) as Hdo
      by (intros; apply disk_insert_other; lia).
    erewrite bind_eq; cycle 1.
    { apply (rebuild_stripe_ok ds0); try done; try nia.
      - rewrite Hdt. apply in_range_spec.
        rewrite length_app, length_take, length_drop. lia. }
    cbv beta iota.
    replace (store_block (rebuilt cfg ds0 c k) t (k * B) (block_at cfg ds0 t k))
      with (rebuilt cfg ds0 c (k + 1)).
    + rewrite IH; try done; try lia.
      * do 2 f_equal. lia.
      * intros s Hs. apply Hcons. lia.
    + unfold store_block. rewrite Hdt. unfold rebuilt.
      rewrite list_insert_insert_eq.
      f_equal. unfold block_at.
      rewrite splice_rebuild by (done || lia).
      by replace (k * B + B) with ((k + 1) * B) by lia.
Qed.

(** The block the rebuild stores, as the formulas of section 4.6 have
    it. *)
Lemma rebuild_block_formula ds0 ds s :
  0 <= s ->
  parity_consistent cfg ds0 s ->
  (forall i, 0 <= i < N -> i <> t -> disk ds i = disk ds0 i) ->
  (if t =? s mod N
   then xor_all cfg ((fun i => block_at cfg ds i s) <$>
                     filter (fun i => i <> t) (seqZ 0 N))
   else reconstructed cfg ds (Placement s 0 (s mod N) t 0)) =
    block_at cfg ds0 t s.
Proof using Hgeo Ht.
  intros Hs Hcons Hagree.
  pose proof Hgeo as [[HN1 HN2] _]. unfold MAX_DEVICES in *.
  pose proof Hcons as [[_ Hin] Hx].
  assert (0 <= s mod N < N) as Hp by (apply Z.mod_pos_bound; lia).
  set (f := fun i => block_at cfg ds0 i s).
  assert (forall i, 0 <= i < N -> is_block cfg (f i)) as Hf.
  { intros i Hi. unfold f. apply block_at_block, Hin. lia. }
  assert (forall P : Z -> Prop, forall HP : forall i, Decision (P i),
            (forall i, P i -> i <> t) ->
            (fun i => block_at cfg ds i s) <$> filter P (seqZ 0 N) =
              f <$> filter P (seqZ 0 N)) as Hext.
  { intros P HP HPt. apply list_fmap_ext. intros k i Hi.
    apply list_elem_of_lookup_2, list_elem_of_filter in Hi as [HPi Hi%elem_of_seqZ].
    unfold f, block_at. rewrite Hagree; [done | lia | by apply HPt]. }
  destruct (Z.eqb_spec t (s mod N)) as [Heq|Hne].
  - rewrite Hext by done.
    rewrite <- (xor_all_masked cfg f (fun i => i =? t)); cycle 1.
    { intros i. apply Z.eqb_neq. }
    { intros i Hi%elem_of_seqZ _. apply Hf. lia. }
    change (block_at cfg ds0 t s) with (f t).
    rewrite <- (xor_others f) by done.
    rewrite (xor_over_all cfg);
      [|apply zeros_block | intros i Hi%elem_of_seqZ _; apply Hf; lia].
    symmetry. apply xor_zeros_l.
    apply xor_all_block, Forall_fmap, Forall_forall. intros i Hi%elem_of_seqZ. cbn.
    destruct (i =? t); [apply zeros_block | apply Hf; lia].
  - etrans;
      [|by apply (reconstructed_consistent cfg Hgeo ds0 (Placement s 0 (s mod N) t 0))].
    unfold reconstructed. cbn [stripe parity_disk data_disk].
    rewrite Hext by (by intros i [_ ?]).
    unfold block_at at 1. rewrite Hagree; [done | lia | done].
Qed.

End Rebuild.

(** C7. For a parity-consistent set with all N slots present and one slot
    designated rebuild target, whatever that slot holds in its first K
    stripes: the start-up rebuild goes over the stripes 0 .. K-1, rewrites
    the block of the target in each (the XOR of the other N-1 blocks where
    the target is the parity slot, the parity block XOR the other N-2 data
    blocks elsewhere), returns success, and leaves the target byte-equal to
    its original contents, the other slots being untouched; this for every
    choice of target slot. *)
Theorem rebuild_restores (cfg : config) (ds0 : disks) (K : Z) (junk : list byte) :
  let N := num_devices cfg in
  let B := block_size cfg in
  let t := rebuild_dev cfg in
  wf_config cfg -> all_present cfg ->
  0 <= t < N -> 0 <= K ->
  raid_device_size cfg = (N - 1) * K * B -> raid_device_size cfg < 2 ^ 64 ->
  Z.of_nat (length ds0) = N ->
  (forall s, 0 <= s < K -> parity_consistent cfg ds0 s) ->
  Z.of_nat (length junk) = K * B ->
  do_raid5_rebuild cfg
    (<[Z.to_nat t := junk ++ drop (Z.to_nat (K * B)) (disk ds0 t)]> ds0) =
    (Ret 0, ds0) /\
  (forall s ds, 0 <= s < K ->
     (forall i, 0 <= i < N -> i <> t -> disk ds i = disk ds0 i) ->
     in_range (disk ds t) (s * B) B = true ->
     let rebuilt_block :=
       if t =? s mod N
       then xor_all cfg ((fun i => block_at cfg ds i s) <$>
                         filter (fun i => i <> t) (seqZ 0 N))
       else reconstructed cfg ds (Placement s 0 (s mod N) t 0) in
     rebuild_stripe cfg s ds = (Ret true, store_block ds t (s * B) rebuilt_block) /\
     rebuilt_block = block_at cfg ds0 t s).
Proof.
  intros N B t Hwf Hpresent Ht HK Hsize Hsmall Hlen Hcons Hjunk. subst N B t.
  pose proof (wf_B cfg Hwf) as HB. pose proof (wf_geo cfg Hwf) as Hgeo.
  pose proof Hwf as [[[HN1 HN2] [_ HB2]] Hsp]. unfold MAX_DEVICES, INT_MAX in *.
  split; cycle 1.
  { intros s ds Hs Hagree Hint. cbv zeta.
    rewrite (rebuild_block_formula cfg Hgeo Ht ds0 ds s) by (done || lia || by apply Hcons).
    split; [|done].
    apply (rebuild_stripe_ok cfg Hgeo Ht ds0); try done; try lia.
    - assert (s * block_size cfg < K * block_size cfg) by nia.
      assert (K * block_size cfg <= raid_device_size cfg) by (rewrite Hsize; nia).
      lia.
    - by apply Hcons. }
  set (span := (num_devices cfg - 1) * block_size cfg) in *.
  set (o := disk ds0 (rebuild_dev cfg)).
  assert (0 < span) as Hsp0 by (unfold span; nia).
  assert (K * block_size cfg <= Z.of_nat (length o)) as HKo.
  { destruct (decide (K = 0)) as [->|]; [lia|].
    destruct (Hcons (K - 1)) as [[_ Hin] _]; [lia|].
    pose proof (Hin (rebuild_dev cfg) Ht) as (_ & _ & ?)%in_range_spec. fold o in H. lia. }
  set (c := junk ++ drop (Z.to_nat (K * block_size cfg)) o).
  assert (length c = length o) as Hc.
  { unfold c. rewrite length_app, length_drop. lia. }
  unfold do_raid5_rebuild.
  rewrite int_mul_small by (unfold INT_MIN, INT_MAX; fold span; lia).
  cbn [defined]. rewrite bind_ret_l. fold span.
  rewrite (u64_small span), udiv64_pos by lia. cbn [defined]. rewrite bind_ret_l.
  assert (raid_device_size cfg / span = K) as ->.
  { rewrite Hsize. replace ((num_devices cfg - 1) * K * block_size cfg)
      with (K * span) by (unfold span; lia). apply Z.div_mul. lia. }
  pose proof (rebuild_loop_ok cfg Hgeo Ht ds0 c (Z.to_nat K) 0) as Hloop.
  rewrite Z2Nat.id, Z.add_0_l in Hloop by done.
  unfold rebuilt in Hloop at 1. rewrite Z.mul_0_l in Hloop.
  change (Z.to_nat 0) with 0%nat in Hloop. rewrite take_0, drop_0 in Hloop.
  cbn [app] in Hloop.
  rewrite Hloop; try done; cycle 1.
  { assert (K * block_size cfg <= raid_device_size cfg) by (rewrite Hsize; nia). lia. }
  unfold rebuilt. do 2 f_equal. fold o.
  unfold c. rewrite drop_app_length' by lia.
  rewrite take_drop. apply list_insert_id.
  unfold o, disk. destruct (ds0 !! Z.to_nat (rebuild_dev cfg)) eqn:Hl; [done|].
  apply lookup_ge_None in Hl. lia.
Qed.

Section RebuildWithoutParity.

Variable cfg : config.
Local Abbreviation N := (num_devices cfg).
Local Abbreviation B := (block_size cfg).
Local Abbreviation t := (rebuild_dev cfg).
Hypothesis Hgeo : valid_geometry cfg.

Lemma rebuild_stripe_zero_parity ds s :
  0 <= s -> s * B < 2 ^ 64 ->
  0 <= t < N -> t <> s mod N ->
  missing cfg (s mod N) = true ->
  (forall i, 0 <= i < N -> i <> s mod N ->
     missing cfg i = false /\ in_range (disk ds i) (s * B) B = true) ->
  rebuild_stripe cfg s ds =
    (Ret true,
     store_block ds t (s * B)
       (xor_all cfg
          ((fun i => block_at cfg ds i s) <$>
           filter (fun i => i <> s mod N /\ i <> t) (seqZ 0 N)))).
Proof using Hgeo.
  intros Hs HsB Ht Hne Hmp Hothers.
  pose proof (geo_B cfg Hgeo) as HB.
  pose proof Hgeo as [[HN1 HN2] [_ HB2]]. unfold MAX_DEVICES, INT_MAX in *.
  assert (0 <= s mod N < N) as Hp by (apply Z.mod_pos_bound; lia).
  unfold rebuild_stripe.
  rewrite (u64_small B), (u64_small N), (u64_small (s * B)) by lia.
  rewrite umod64_pos by lia. cbn [fmap option_fmap option_map defined].
  rewrite bind_ret_l, s32_small by (unfold INT_MIN, INT_MAX; lia).
  destruct (Z.eqb_spec t (s mod N)) as [|_]; [done|].
  unfold vla. destruct (Z.ltb_spec 0 B) as [_|]; [|lia]. rewrite bind_ret_l.
  unfold read_or_zero. rewrite Hmp. cbn [negb]. rewrite bind_ret_l.
  erewrite bind_eq; cycle 1.
  { apply xor_peers_ok; [done|].
    intros i Hi%elem_of_seqZ [Hi1%Z.eqb_neq Hi2%Z.eqb_neq]%orb_false_iff.
    apply Hothers; lia. }
  cbv beta iota.
  assert (forall i, i ∈ seqZ 0 N -> (i =? s mod N) || (i =? t) = false ->
            is_block cfg (block_at cfg ds i s)) as Hf.
  { intros i Hi%elem_of_seqZ [Hi1%Z.eqb_neq Hi2%Z.eqb_neq]%orb_false_iff.
    apply block_at_block, Hothers; lia. }
  change (fun i => slice (disk ds i) (s * B) B)
    with (fun i => block_at cfg ds i s).
  rewrite (xor_over_all cfg); [|apply zeros_block | done].
  rewrite (xor_all_masked cfg _ _ (fun i => i <> s mod N /\ i <> t)); cycle 1.
  { intros i. rewrite orb_false_iff, !Z.eqb_neq. done. }
  { done. }
  rewrite xor_zeros_l; cycle 1.
  { apply xor_all_block, Forall_fmap, Forall_forall.
    intros i [[? ?] Hi]%list_elem_of_filter. cbn.
    apply Hf; [done|]. apply orb_false_iff. by rewrite !Z.eqb_neq. }
  apply dev_pwrite_store; [done | | ]; by apply Hothers.
Qed.

End RebuildWithoutParity.

(** C8 does not hold of the code.  Where the rebuild target is a data slot
    of a stripe whose parity slot is missing, the rebuild does not stop: it
    takes the parity block as all-zero (lines 147-149), stores the XOR of
    the other N-2 data blocks in the target and goes on with the next
    stripe.  For a set that was parity-consistent, [ds0], that is the
    block the target held XOR the parity block: the bytes the header
    comment of the function promises (parity XOR the other data blocks)
    only where the lost parity block was all-zero.  [xmp_read] refuses the
    same situation (lines 209-212). *)
Theorem rebuild_without_parity_stores_wrong_data (cfg : config)
    (ds0 ds : disks) (s : Z) (n : nat) :
  let N := num_devices cfg in
  let B := block_size cfg in
  let t := rebuild_dev cfg in
  let parity := s mod N in
  valid_geometry cfg ->
  0 <= s -> s * B < 2 ^ 64 ->
  0 <= t < N -> t <> parity ->
  missing cfg parity = true ->
  (forall i, 0 <= i < N -> i <> parity -> missing cfg i = false) ->
  parity_consistent cfg ds0 s ->
  (forall i, 0 <= i < N -> i <> parity -> i <> t -> disk ds i = disk ds0 i) ->
  in_range (disk ds t) (s * B) B = true ->
  let stored := xor_block (block_at cfg ds0 t s) (block_at cfg ds0 parity s) in
  rebuild_loop cfg (S n) s ds =
    rebuild_loop cfg n (s + 1) (store_block ds t (s * B) stored) /\
  (stored = block_at cfg ds0 t s <-> block_at cfg ds0 parity s = zeros B).
Proof.
  intros N B t parity Hgeo Hs HsB Ht Hne Hmp Hpresent Hcons Hagree Hint stored.
  subst N B t parity stored.
  pose proof (geo_B cfg Hgeo) as HB.
  pose proof Hgeo as [[HN1 HN2] _]. unfold MAX_DEVICES in *.
  pose proof Hcons as [[_ Hin] _].
  assert (0 <= s mod num_devices cfg < num_devices cfg) as Hp
    by (apply Z.mod_pos_bound; lia).
  set (f := fun i => block_at cfg ds0 i s).
  assert (forall i, 0 <= i < num_devices cfg -> is_block cfg (f i)) as Hf.
  { intros i Hi. unfold f. apply block_at_block, Hin. lia. }
  set (sl := filter (fun i => i <> s mod num_devices cfg /\ i <> rebuild_dev cfg)
               (seqZ 0 (num_devices cfg))).
  assert (is_block cfg (xor_all cfg (f <$> sl))) as HX.
  { apply xor_all_block, Forall_fmap, Forall_forall.
    intros i [_ Hi%elem_of_seqZ]%list_elem_of_filter. apply Hf. lia. }
  assert (xor_all cfg (f <$> sl) =
            xor_block (f (rebuild_dev cfg)) (f (s mod num_devices cfg)))
    as Hstored.
  { pose proof (reconstructed_consistent cfg Hgeo ds0
                  (Placement s 0 (s mod num_devices cfg) (rebuild_dev cfg) 0)
                  Hcons Hp Ht Hne) as Hrec.
    unfold reconstructed in Hrec.
    cbn [stripe parity_disk data_disk] in Hrec.
    rewrite xor_all_cons in Hrec. fold f sl in Hrec.
    change (f (rebuild_dev cfg))
      with (block_at cfg ds0 (rebuild_dev cfg) s).
    rewrite <- Hrec, xor_block_comm. symmetry.
    apply (xor_cancel cfg); [apply Hf; lia | done]. }
  split.
  - cbn [rebuild_loop].
    erewrite bind_eq; cycle 1.
    { apply (rebuild_stripe_zero_parity cfg Hgeo); try done.
      intros i Hi Hip. split; [by apply Hpresent|].
      destruct (decide (i = rebuild_dev cfg)) as [->|Hit]; [done|].
      rewrite Hagree by done. apply Hin. lia. }
    fold sl.
    replace ((fun i => block_at cfg ds i s) <$> sl) with (f <$> sl).
    2:{ apply list_fmap_ext. intros k i Hi%list_elem_of_lookup_2.
        apply list_elem_of_filter in Hi as [[Hip Hit] Hi%elem_of_seqZ].
        unfold f, block_at. rewrite Hagree; [done | lia | done | done]. }
    by rewrite Hstored.
  - fold (f (rebuild_dev cfg)) (f (s mod num_devices cfg)).
    assert (is_block cfg (f (rebuild_dev cfg))) as HT by (apply Hf; lia).
    assert (is_block cfg (f (s mod num_devices cfg))) as HP by (apply Hf; lia).
    split.
    + intros Heq.
      rewrite <- (xor_cancel cfg (f (rebuild_dev cfg))
                    (f (s mod num_devices cfg))) by done.
      rewrite Heq. by apply xor_self.
    + intros ->. by apply xor_zeros_r.
Qed.

(** The code at the failing input: a one-stripe set with slot 0, the
    parity slot of stripe 0, missing and slot 1 the rebuild target.  The
    rebuild returns 0 with the bytes of slot 2 in the target, and [main]
    goes on to serve. *)
Lemma rebuild_without_parity_succeeds :
  missing Samples.rebuilding_degraded (0 mod 3) = true /\
  rebuild_dev Samples.rebuilding_degraded <> 0 mod 3 /\
  do_raid5_rebuild Samples.rebuilding_degraded Samples.survivors =
    (Ret 0, [[]; [1; 2; 3; 4]; [1; 2; 3; 4]]) /\
  Startup.main Samples.files ["4"; "/dev/nbd0"; "MISSING"; "+d1"; "d2"]%string =
    Startup.Serving Samples.rebuilding_degraded [[]; [1; 2; 3; 4]; [1; 2; 3; 4]].
Proof.
  split; [by vm_compute|]. split; [by vm_compute|].
  split; vm_compute; reflexivity.
Qed.

(** ** Start-up with a block size of zero *)

Lemma parse_five bs raid d1 d2 d3 :
  Startup.argp_parse 0 [bs; raid; d1; d2; d3] (Startup.Arguments 0 "" []) =
    inl (Startup.Arguments (u32 (Startup.strtoul bs)) raid [d1; d2; d3]).
Proof. reflexivity. Qed.

(** The first device that opens: its size is divided by the block size. *)
Lemma open_device_zero fs c i o :
  fs "d1"%string = Some c ->
  Startup.open_device fs 0 i "d1" o = Startup.OpenCrash.
Proof.
  intros Hfs. unfold Startup.open_device.
  change (String.eqb "d1" "MISSING") with false. cbv beta iota.
  rewrite Hfs. reflexivity.
Qed.

Lemma main_zero_block_size fs c bs raid d2 d3 :
  s32 (u32 (Startup.strtoul bs)) = 0 ->
  fs "d1"%string = Some c ->
  Startup.main fs [bs; raid; "d1"%string; d2; d3] = Startup.Crashed.
Proof.
  intros Hbs Hfs. unfold Startup.main. rewrite parse_five.
  cbn [Startup.arg_block_size Startup.arg_devices length].
  rewrite Hbs. change (Z.of_nat 3 <? 3) with false. cbv beta iota.
  cbn [Startup.open_devices]. by rewrite (open_device_zero fs c).
Qed.

(** C9 does not hold of the code.  [parse_opt] stores what [strtoul]
    returns without looking at it; a BLOCKSIZE token of "0", or one with no
    digit such as "abc", leaves [block_size] zero, and [main] divides the
    size of the first device it opens by it (line 403). *)
Theorem zero_block_size_divides (fs : string -> option (list byte))
    (c : list byte) (raid d2 d3 : string) :
  fs "d1"%string = Some c ->
  Startup.main fs ["0"; raid; "d1"; d2; d3]%string = Startup.Crashed /\
  Startup.main fs ["abc"; raid; "d1"; d2; d3]%string = Startup.Crashed.
Proof.
  intros Hfs. split; by apply (main_zero_block_size fs c).
Qed.

(** ** The theorems at work on the three-slot samples *)

Lemma samples_wf : wf_config Samples.cfg3.
Proof. unfold wf_config, valid_geometry, MAX_DEVICES, INT_MAX; cbn; lia. Defined.

Lemma three_slots i : 0 <= i < 3 -> i = 0 \/ i = 1 \/ i = 2.
Proof. lia. Defined.

Ltac each_slot :=
  let i := fresh "i" in
  let H := fresh "H" in
  intros i H; destruct (three_slots i H) as [-> | [-> | ->]].

Lemma samples_present : all_present Samples.cfg3.
Proof. each_slot; reflexivity. Defined.

Lemma samples_written_consistent : parity_consistent Samples.cfg3 Samples.written 0.
Proof.
  split; [split; [lia|]|reflexivity].
  each_slot; reflexivity.
Defined.

Lemma samples_written_consistent_1 : parity_consistent Samples.cfg3 Samples.written 1.
Proof.
  split; [split; [lia|]|reflexivity].
  each_slot; reflexivity.
Defined.

Lemma full_stripe_round_trip_witness :
  exists ds',
    xmp_write Samples.cfg3 1 Samples.AB 8 0 Samples.blank = (Ret 0, ds') /\
    xmp_read Samples.degraded 2 [0; 0; 0; 0; 0; 0; 0; 0] 8 0 ds' =
      (Ret (0, Samples.AB), ds').
Proof.
  destruct (full_stripe_round_trip Samples.cfg3 Samples.blank Samples.AB 0 0)
    as (ds' & Hw & Hr).
  - exact samples_wf.
  - exact samples_present.
  - lia.
  - cbn; lia.
  - reflexivity.
  - reflexivity.
  - each_slot; reflexivity.
  - exists ds'. split; [exact Hw|].
    apply (Hr [false; true; false] [0; 0; 0; 0; 0; 0; 0; 0] 2%nat).
    + intros i j Hi Hj.
      destruct (three_slots i Hi) as [-> | [-> | ->]];
        destruct (three_slots j Hj) as [-> | [-> | ->]];
        intros; (reflexivity || discriminate).
    + reflexivity.
    + cbn; lia.
Defined.

Lemma degraded_read_complete_witness :
  xmp_read Samples.degraded 2 [0; 0; 0; 0; 0; 0; 0; 0] (2 * 4) 0 Samples.written =
    (Ret (0, Samples.AB), Samples.written).
Proof.
  destruct (degraded_read_complete Samples.degraded Samples.written 2
              [0; 0; 0; 0; 0; 0; 0; 0] 2 0) as (Hread & _ & _).
  - unfold valid_geometry, MAX_DEVICES, INT_MAX; cbn; lia.
  - exists 1. split; [cbn; lia|].
    each_slot; split; intros; (reflexivity || discriminate || lia).
  - lia.
  - cbn; lia.
  - lia.
  - cbn; lia.
  - reflexivity.
  - cbn; lia.
  - intros j i Hj. revert i.
    assert (j = 0 \/ j = 1) as [-> | ->] by lia;
      each_slot; intros; (reflexivity || discriminate).
  - exact Hread.
Defined.

Lemma double_failure_refused_witness :
  exists buf',
    xmp_read Samples.doubly_degraded 1 [7; 7; 7; 7] 4 0 Samples.written =
      (Ret (-1, buf'), Samples.written) /\
    drop (Z.to_nat (0 * 4)) buf' = drop (Z.to_nat (0 * 4)) [7; 7; 7; 7].
Proof.
  apply (double_failure_refused Samples.doubly_degraded Samples.written 1
           [7; 7; 7; 7] 4 0 0).
  - unfold valid_geometry, MAX_DEVICES, INT_MAX; cbn; lia.
  - lia.
  - lia.
  - lia.
  - cbn; lia.
  - lia.
  - cbn; lia.
  - cbn; lia.
  - reflexivity.
  - left. reflexivity.
Defined.

Lemma full_stripe_path_witness :
  exists ds',
    xmp_write_loop Samples.cfg3 1 Samples.AB 0 8 0 Samples.blank =
      xmp_write_loop Samples.cfg3 0 Samples.AB 8 0 8 ds' /\
    block_at Samples.cfg3 ds' 1 0 = [65; 65; 65; 65] /\
    block_at Samples.cfg3 ds' 2 0 = [66; 66; 66; 66] /\
    block_at Samples.cfg3 ds' 0 0 = [3; 3; 3; 3].
Proof.
  destruct (full_stripe_path Samples.cfg3 Samples.blank Samples.AB 0 8 0 0)
    as [(ds' & Hloop & Hdata & Hpar & _) _].
  - exact samples_wf.
  - lia.
  - reflexivity.
  - cbn; lia.
  - lia.
  - cbn; lia.
  - each_slot; intros; reflexivity.
  - exists ds'. split; [exact Hloop|].
    split; [exact (Hdata 0 ltac:(cbn; lia))|].
    split; [exact (Hdata 1 ltac:(cbn; lia)) | exact Hpar].
Defined.

Lemma writes_keep_parity_witness :
  parity_consistent Samples.cfg3
    [[64; 67; 66; 69; 0; 0; 0; 0]; [65; 65; 65; 65; 0; 0; 0; 0];
     [1; 2; 3; 4; 0; 0; 0; 0]] 0.
Proof.
  apply (writes_keep_parity Samples.cfg3
           [Request 2 Samples.AB 8 0; Request 2 [1; 2; 3; 4] 4 4] Samples.blank).
  - exact samples_wf.
  - exact samples_present.
  - repeat constructor; cbn; lia.
  - vm_compute. reflexivity.
  - split; [split; [lia|]|reflexivity].
    each_slot; reflexivity.
Defined.

Lemma rebuild_restores_witness :
  do_raid5_rebuild Samples.rebuilding
    (<[1%nat := [0; 0; 0; 0; 0; 0; 0; 0]]> Samples.written) =
    (Ret 0, Samples.written).
Proof.
  refine (proj1 (rebuild_restores Samples.rebuilding Samples.written 2
                   [0; 0; 0; 0; 0; 0; 0; 0] _ _ _ _ _ _ _ _ _)).
  - unfold wf_config, valid_geometry, MAX_DEVICES, INT_MAX; cbn; lia.
  - each_slot; reflexivity.
  - cbn; lia.
  - lia.
  - reflexivity.
  - cbn; lia.
  - reflexivity.
  - intros s Hs. assert (s = 0 \/ s = 1) as [-> | ->] by lia.
    + exact samples_written_consistent.
    + exact samples_written_consistent_1.
  - reflexivity.
Defined.

Lemma rebuild_without_parity_stores_wrong_data_witness :
  rebuild_loop Samples.rebuilding_degraded 1 0 Samples.survivors =
    rebuild_loop Samples.rebuilding_degraded 0 (0 + 1)
      (store_block Samples.survivors 1 (0 * 4)
         (xor_block [65; 65; 65; 65] [64; 67; 66; 69])) /\
  (xor_block [65; 65; 65; 65] [64; 67; 66; 69] = [65; 65; 65; 65] <->
   [64; 67; 66; 69] = zeros 4).
Proof.
  apply (rebuild_without_parity_stores_wrong_data Samples.rebuilding_degraded
           [[64; 67; 66; 69]; [65; 65; 65; 65]; [1; 2; 3; 4]]
           Samples.survivors 0 0).
  - unfold valid_geometry, MAX_DEVICES, INT_MAX; cbn; lia.
  - lia.
  - cbn; lia.
  - cbn; lia.
  - cbn. discriminate.
  - reflexivity.
  - each_slot; intros Hne; (by exfalso; apply Hne) || reflexivity.
  - split; [split; [lia|]|reflexivity].
    each_slot; reflexivity.
  - each_slot; intros Hp Ht;
      (by exfalso; apply Hp) || (by exfalso; apply Ht) || reflexivity.
  - reflexivity.
Defined.

Lemma zero_block_size_divides_witness :
  Startup.main Samples.files ["0"; "/dev/nbd0"; "d1"; "d2"; "d3"]%string =
    Startup.Crashed.
Proof.
  exact (proj1 (zero_block_size_divides Samples.files [9; 9; 9; 9]
                  "/dev/nbd0" "d2" "d3" eq_refl)).
Defined.

(** * Further properties of the engine *)

(** ** The mapping is one-to-one onto the data blocks *)

Section MappingBijection.

Variable cfg : config.
Local Abbreviation N := (num_devices cfg).
Local Abbreviation B := (block_size cfg).
Hypothesis Hgeo : valid_geometry cfg.

Lemma place_parts L :
  0 <= L ->
  let p := place cfg L in
  L = stripe p * (N - 1) + pos p /\ 0 <= pos p < N - 1 /\ 0 <= stripe p /\
  parity_disk p = stripe p mod N /\
  data_disk p = data_slot (parity_disk p) (pos p) /\
  phys_offset p = stripe p * B.
Proof using Hgeo.
  destruct Hgeo as [[HN1 HN2] _]. unfold MAX_DEVICES in *.
  intros HL. unfold place; cbn.
  pose proof (Z.div_mod L (N - 1) ltac:(lia)) as Hdm.
  pose proof (Z.mod_pos_bound L (N - 1) ltac:(lia)) as Hpos.
  pose proof (Z.div_pos L (N - 1) ltac:(lia) ltac:(lia)).
  repeat split; try lia.
  unfold data_slot. rewrite Z.geb_leb.
  destruct (Z.ltb_spec (L mod (N - 1)) (L / (N - 1) mod N)),
    (Z.leb_spec (L / (N - 1) mod N) (L mod (N - 1))); lia.
Qed.

Lemma place_of_parts s j :
  0 <= s -> 0 <= j < N - 1 ->
  place cfg (s * (N - 1) + j) =
    Placement s j (s mod N) (data_slot (s mod N) j) (s * B).
Proof using Hgeo.
  destruct Hgeo as [[HN1 HN2] _]. intros Hs Hj. unfold place. cbv zeta.
  assert ((s * (N - 1) + j) / (N - 1) = s) as ->.
  { rewrite Z.add_comm, Z.div_add by lia. rewrite Z.div_small by lia. lia. }
  assert ((s * (N - 1) + j) mod (N - 1) = j) as ->.
  { rewrite Z.add_comm, Z.mod_add by lia. apply Z.mod_small. lia. }
  f_equal. unfold data_slot. rewrite Z.geb_leb.
  destruct (Z.ltb_spec j (s mod N)), (Z.leb_spec (s mod N) j); lia.
Qed.

Lemma place_inj L L' :
  0 <= L -> 0 <= L' ->
  stripe (place cfg L) = stripe (place cfg L') ->
  data_disk (place cfg L) = data_disk (place cfg L') ->
  L = L'.
Proof using Hgeo.
  intros HL HL' Hs Hd.
  destruct (place_parts L HL) as (HLs & _ & _ & Hp & Hdd & _).
  destruct (place_parts L' HL') as (HLs' & _ & _ & Hp' & Hdd' & _).
  rewrite Hdd, Hdd', Hp, Hp', Hs in Hd. apply data_slot_inj in Hd. lia.
Qed.

End MappingBijection.

(** X1. Two offsets that the engine places on the same slot of the same
    stripe lie in the same logical block, and no logical block is placed on
    the parity slot of its stripe; conversely every block of a stripe off
    its parity slot is the place of a logical block. *)
Theorem mapping_one_to_one (cfg : config) :
  valid_geometry cfg ->
  let N := num_devices cfg in
  let B := block_size cfg in
  (forall o o' p p',
     0 <= o < 2 ^ 64 -> 0 <= o' < 2 ^ 64 ->
     locate cfg o = Some p -> locate cfg o' = Some p' ->
     stripe p = stripe p' -> data_disk p = data_disk p' ->
     o / B = o' / B) /\
  (forall s i,
     0 <= s -> 0 <= i < N -> i <> s mod N ->
     (s + 1) * (N - 1) * B <= 2 ^ 64 ->
     exists L p,
       0 <= L /\ 0 <= L * B < 2 ^ 64 /\ locate cfg (L * B) = Some p /\
       stripe p = s /\ data_disk p = i /\ parity_disk p = s mod N).
Proof.
  intros Hgeo N B. subst N B.
  pose proof (geo_B cfg Hgeo) as HB.
  pose proof Hgeo as [[HN1 HN2] _]. unfold MAX_DEVICES in *.
  split.
  - intros o o' p p' Ho Ho' Hl Hl' Hs Hd.
    rewrite locate_place in Hl, Hl' by done.
    injection Hl as <-. injection Hl' as <-.
    apply (place_inj cfg Hgeo); try done; apply Z.div_pos; lia.
  - intros s i Hs Hi Hne Hend.
    set (j := if i <? s mod num_devices cfg then i else i - 1).
    pose proof (Z.mod_pos_bound s (num_devices cfg) ltac:(lia)) as Hp.
    assert (0 <= j < num_devices cfg - 1) as Hj.
    { unfold j. destruct (Z.ltb_spec i (s mod num_devices cfg)); lia. }
    assert (data_slot (s mod num_devices cfg) j = i) as Hslot.
    { unfold data_slot, j. rewrite Z.geb_leb.
      destruct (Z.ltb_spec i (s mod num_devices cfg)).
      - destruct (Z.leb_spec (s mod num_devices cfg) i); lia.
      - destruct (Z.leb_spec (s mod num_devices cfg) (i - 1)); lia. }
    exists (s * (num_devices cfg - 1) + j), (place cfg (s * (num_devices cfg - 1) + j)).
    assert (0 <= s * (num_devices cfg - 1)) by (apply Z.mul_nonneg_nonneg; lia).
    assert (0 <= (s * (num_devices cfg - 1) + j) * block_size cfg < 2 ^ 64).
    { split; [apply Z.mul_nonneg_nonneg; lia|].
      assert ((s * (num_devices cfg - 1) + j + 1) * block_size cfg
              <= (s + 1) * (num_devices cfg - 1) * block_size cfg)
        by (apply Z.mul_le_mono_nonneg_r; lia).
      lia. }
    split; [lia|]. split; [done|].
    split.
    + rewrite locate_place by done. by rewrite Z.div_mul by lia.
    + rewrite place_of_parts by done. cbn. done.
Qed.

Lemma mapping_one_to_one_witness :
  exists L p,
    0 <= L /\ 0 <= L * 4 < 2 ^ 64 /\ locate Samples.cfg3 (L * 4) = Some p /\
    stripe p = 1 /\ data_disk p = 2 /\ parity_disk p = 1 mod 3.
Proof.
  refine (proj2 (mapping_one_to_one Samples.cfg3 _) 1 2 _ _ _ _).
  - unfold valid_geometry, MAX_DEVICES, INT_MAX; cbn; lia.
  - lia.
  - cbn; lia.
  - by vm_compute.
  - by vm_compute.
Defined.

(** ** What a write stores *)

Section WriteForward.

Variable cfg : config.
Local Abbreviation N := (num_devices cfg).
Local Abbreviation B := (block_size cfg).
Local Abbreviation span := ((N - 1) * B).
Hypothesis Hwf : wf_config cfg.

Lemma write_step_unfold buf bpos len offset ds :
  0 <= offset < 2 ^ 64 ->
  write_step cfg buf bpos len offset ds =
    if (offset mod span =? 0) && (len >=? span)
    then write_full_stripe cfg buf bpos len offset span ds
    else write_rmw cfg buf bpos len offset ds.
Proof using Hwf.
  intros Hoff.
  pose proof (wf_B cfg Hwf) as HB.
  pose proof Hwf as [[[HN1 HN2] [_ HB2]] Hsp].
  unfold MAX_DEVICES, INT_MAX in *.
  unfold write_step.
  rewrite int_mul_small by (unfold INT_MIN, INT_MAX; nia).
  cbn [defined]. rewrite bind_ret_l.
  rewrite (u64_small span) by nia.
  rewrite umod64_pos by nia. cbn [defined].
  rewrite bind_ret_l, (u32_small span) by nia. by destruct (_ && _).
Qed.

(** The read-modify-write path, whatever slots are missing. *)
Lemma write_rmw_run buf bpos len offset ds :
  0 <= offset < 2 ^ 64 -> in_range buf bpos B = true ->
  let p := place cfg (offset / B) in
  let s := stripe p in
  (missing cfg (parity_disk p) = false ->
     in_range (disk ds (parity_disk p)) (s * B) B = true) ->
  (missing cfg (data_disk p) = false ->
     in_range (disk ds (data_disk p)) (s * B) B = true) ->
  write_rmw cfg buf bpos len offset ds =
    let old_parity :=
      if missing cfg (parity_disk p) then zeros B
      else block_at cfg ds (parity_disk p) s in
    let old_data :=
      if missing cfg (data_disk p) then zeros B
      else block_at cfg ds (data_disk p) s in
    let new_data := slice buf bpos B in
    let ds1 :=
      if missing cfg (data_disk p) then ds
      else store_block ds (data_disk p) (s * B) new_data in
    if missing cfg (parity_disk p) then (Ret Failed, ds1)
    else (Ret (Advance (bpos + B) (u32 (len - B)) (u64 (offset + B))),
          store_block ds1 (parity_disk p) (s * B)
            (xor_block (xor_block old_parity old_data) new_data)).
Proof using Hwf.
  intros Hoff Hbuf p s Hpr Hdr.
  pose proof (wf_B cfg Hwf) as HB. pose proof (wf_geo cfg Hwf) as Hgeo.
  assert (0 <= offset / B) as HL by (apply Z.div_pos; lia).
  destruct (place_bounds cfg Hgeo (offset / B) HL)
    as (Hs1 & _ & Hp & Hd & Hne & Hphys).
  fold p in Hs1, Hp, Hd, Hne, Hphys. fold s in Hphys.
  unfold write_rmw.
  rewrite locate_place by done. cbn [defined]. rewrite bind_ret_l.
  fold p. rewrite Hphys.
  unfold vla. destruct (Z.ltb_spec 0 B) as [_|]; [|lia].
  rewrite bind_ret_l.
  assert (is_block cfg (slice buf bpos B)) as Hnd by (by apply length_slice).
  unfold read_or_zero, buf_block. rewrite Hbuf.
  cbv zeta.
  destruct (missing cfg (parity_disk p)) eqn:Hmp,
    (missing cfg (data_disk p)) eqn:Hmd; cbn [negb].
  - by rewrite !bind_ret_l.
  - rewrite bind_ret_l.
    erewrite bind_eq by (apply dev_pread_ok; auto).
    cbv beta iota. rewrite bind_ret_l.
    erewrite bind_eq by (apply dev_pwrite_store; auto).
    done.
  - erewrite bind_eq by (apply dev_pread_ok; auto).
    cbv beta iota. rewrite !bind_ret_l. cbn [negb].
    erewrite bind_eq by (apply dev_pwrite_store; auto).
    done.
  - erewrite bind_eq by (apply dev_pread_ok; auto).
    cbv beta iota.
    erewrite bind_eq by (apply dev_pread_ok; auto).
    cbv beta iota. rewrite bind_ret_l.
    erewrite bind_eq by (apply dev_pwrite_store; auto).
    cbn [negb].
    erewrite bind_eq.
    2:{ apply dev_pwrite_store; [done | done |].
        rewrite in_range_store; auto; lia. }
    done.
Qed.

Lemma write_effect_nil ds buf bpos L0 : write_effect cfg ds buf bpos L0 0 ds.
Proof.
  split; [by split|]. split; [|done].
  intros L HL. case_decide; [lia | done].
Qed.

Lemma write_effect_app ds ds1 ds' buf bpos L0 k0 k :
  0 <= k0 -> 0 <= k ->
  write_effect cfg ds buf bpos L0 k0 ds1 ->
  write_effect cfg ds1 buf (bpos + k0 * B) (L0 + k0) k ds' ->
  write_effect cfg ds buf bpos L0 (k0 + k) ds'.
Proof.
  intros Hk0 Hk ([Hl1 Hr1] & Hb1 & Hf1) ([Hl2 Hr2] & Hb2 & Hf2).
  split; [split|split].
  - congruence.
  - intros. rewrite Hr2, Hr1; done.
  - intros L HL. rewrite Hb2 by done. rewrite Hb1 by done.
    repeat case_decide; try lia; try done.
    f_equal. lia.
  - intros i s Hi Hs Hno. rewrite Hf2, Hf1; try done.
    + intros L HL. apply Hno. lia.
    + intros L HL. apply Hno. lia.
Qed.

(** One block through the read-modify-write path, its data and parity
    slots present. *)
Lemma rmw_effect buf bpos len L0 ds :
  0 <= L0 -> L0 * B < 2 ^ 64 ->
  in_range buf bpos B = true ->
  let p := place cfg L0 in
  missing cfg (parity_disk p) = false ->
  missing cfg (data_disk p) = false ->
  in_range (disk ds (parity_disk p)) (stripe p * B) B = true ->
  in_range (disk ds (data_disk p)) (stripe p * B) B = true ->
  exists ds1,
    write_rmw cfg buf bpos len (L0 * B) ds =
      (Ret (Advance (bpos + B) (u32 (len - B)) (u64 (L0 * B + B))), ds1) /\
    write_effect cfg ds buf bpos L0 1 ds1.
Proof using Hwf.
  intros HL0 Hoff Hbuf p Hmp Hmd Hrp Hrd.
  pose proof (wf_B cfg Hwf) as HB. pose proof (wf_geo cfg Hwf) as Hgeo.
  pose proof (write_rmw_run buf bpos len (L0 * B) ds) as Hrun.
  rewrite Z.div_mul in Hrun by lia. fold p in Hrun. cbv zeta in Hrun.
  rewrite Hmp, Hmd in Hrun.
  rewrite Hrun; [|nia | done | done | done]. clear Hrun.
  destruct (place_bounds cfg Hgeo L0 HL0) as (Hs & _ & Hp & Hd & Hne & _).
  fold p in Hs, Hp, Hd, Hne.
  set (nd := slice buf bpos B).
  set (np := xor_block _ nd).
  assert (is_block cfg nd) as Hnd by (by apply length_slice).
  assert (is_block cfg np) as Hnp.
  { unfold np. repeat apply xor_is_block; try done; by apply block_at_block. }
  set (ds0 := store_block ds (data_disk p) (stripe p * B) nd).
  assert (in_range (disk ds0 (parity_disk p)) (stripe p * B) B = true) as Hrp0.
  { unfold ds0. rewrite in_range_store; auto; lia. }
  eexists. split; [done|].
  split; [split|split].
  - rewrite length_store_block. unfold ds0. by rewrite length_store_block.
  - intros i off n Hi. rewrite in_range_store; auto; try lia.
    unfold ds0. rewrite in_range_store; auto; lia.
  - intros L HL. unfold logical.
    destruct (place_bounds cfg Hgeo L HL) as (Hs' & _ & Hp' & Hd' & Hne' & _).
    destruct (place_parts cfg Hgeo L HL) as (_ & _ & _ & Hpar' & _).
    destruct (place_parts cfg Hgeo L0 HL0) as (_ & _ & _ & Hpar & _).
    fold p in Hpar.
    case_decide as Hin.
    + assert (L = L0) as -> by lia. fold p.
      rewrite block_store_other; auto; try lia.
      unfold ds0. rewrite block_store_same; auto; try lia.
      unfold nd. f_equal. lia.
    + assert (stripe (place cfg L) <> stripe p \/
              data_disk (place cfg L) <> data_disk p) as Hdiff.
      { destruct (decide (stripe (place cfg L) = stripe p)) as [Hes|]; [|by left].
        right. intros Hed. apply Hin.
        assert (L = L0) by (by apply (place_inj cfg Hgeo)). lia. }
      assert (stripe (place cfg L) = stripe p ->
              data_disk (place cfg L) <> parity_disk p) as Hnp'.
      { intros Hes. rewrite Hpar, <- Hes, <- Hpar'. lia. }
      rewrite block_store_other; auto; try lia.
      unfold ds0. rewrite block_store_other; auto; try lia.
  - intros i s Hi Hs0 Hno. specialize (Hno L0 ltac:(lia)). fold p in Hno.
    rewrite block_store_other; auto; try lia.
    unfold ds0. rewrite block_store_other; auto; try lia.
Qed.

(** The full-stripe path on stripe [s], every slot present. *)
Lemma full_stripe_effect buf bpos len s ds :
  all_present cfg ->
  0 <= s -> s * span + span < 2 ^ 64 -> span <= len < 2 ^ 32 ->
  0 <= bpos -> bpos + span <= Z.of_nat (length buf) ->
  holds_stripe cfg ds s ->
  exists ds1,
    write_step cfg buf bpos len (s * span) ds =
      (Ret (Advance (bpos + span) (len - span) (s * span + span)), ds1) /\
    write_effect cfg ds buf bpos (s * (N - 1)) (N - 1) ds1.
Proof using Hwf.
  intros Hpresent Hs Hoff Hlen Hbpos Hbuf [_ Hholds].
  pose proof (wf_B cfg Hwf) as HB. pose proof (wf_geo cfg Hwf) as Hgeo.
  pose proof Hwf as [[[HN1 HN2] _] _]. unfold MAX_DEVICES in *.
  assert (0 < span) as Hspan by nia.
  assert (0 <= s * span) as Hnn by (apply Z.mul_nonneg_nonneg; lia).
  assert (s * span / span = s) as Hdiv by (apply Z.div_mul; lia).
  assert ((s * span) mod span = 0) as Halign by (apply Z.mod_mul; lia).
  pose proof (Z.mod_pos_bound s N ltac:(lia)) as Hpar.
  assert (forall i, 0 <= i < N -> missing cfg i = false ->
            in_range (disk ds i) (s * span / span * B) B = true) as Hdisks.
  { intros i Hi _. rewrite Hdiv. by apply Hholds. }
  pose proof (write_step_full cfg Hwf buf bpos len (s * span) ds
                ltac:(lia) Halign Hlen Hbpos Hbuf Hdisks) as Hrun.
  pose proof (full_stripe_blocks cfg Hwf buf bpos len (s * span) ds
                ltac:(lia) Halign Hlen Hbpos Hbuf Hdisks)
    as (Hdata & _ & Hother & Hr & Hlength).
  rewrite Hdiv in Hrun, Hdata, Hother, Hr, Hlength.
  rewrite (Hpresent (s mod N)) in Hrun, Hdata, Hother, Hr, Hlength by done.
  rewrite (u64_small (s * span + span)) in Hrun by lia.
  eexists. split; [exact Hrun|].
  split; [by split|]. split.
  - intros L HL. unfold logical.
    destruct (place_parts cfg Hgeo L HL) as (HLs & Hpos & Hst & _).
    destruct (place_bounds cfg Hgeo L HL) as (_ & _ & _ & Hd' & _).
    case_decide as Hin.
    + replace L with (s * (N - 1) + (L - s * (N - 1))) at 1 2 by lia.
      rewrite (place_of_parts cfg Hgeo) by lia. cbn [data_disk stripe].
      rewrite Hdata by lia.
      rewrite Hpresent by (apply data_slot_bounds; lia). done.
    + apply Hother; [lia | done |].
      intros Hes. apply Hin. rewrite Hes in HLs. nia.
  - intros i s' Hi Hs' Hno. apply Hother; [done | done |].
    specialize (Hno (s * (N - 1) + 0) ltac:(lia)).
    rewrite (place_of_parts cfg Hgeo) in Hno by lia. cbn in Hno. congruence.
Qed.

Lemma write_loop_done fuel data b o ds :
  xmp_write_loop cfg fuel data b 0 o ds = (Ret 0, ds).
Proof. by destruct fuel. Qed.

(** The iterations of the write loop that store the [k] whole blocks of a
    request, [rest] bytes being left after them. *)
Lemma write_loop_prefix fuel : forall buf bpos L0 k rest ds,
  all_present cfg ->
  (Z.to_nat k <= fuel)%nat -> 0 <= k -> 0 <= L0 ->
  (L0 + k) * B < 2 ^ 64 -> 0 <= rest < B -> k * B + rest < 2 ^ 32 ->
  0 <= bpos -> bpos + k * B <= Z.of_nat (length buf) ->
  holds_blocks cfg ds L0 k ->
  exists fuel' ds',
    (fuel - Z.to_nat k <= fuel')%nat /\
    xmp_write_loop cfg fuel buf bpos (k * B + rest) (L0 * B) ds =
      xmp_write_loop cfg fuel' buf (bpos + k * B) rest ((L0 + k) * B) ds' /\
    write_effect cfg ds buf bpos L0 k ds'.
Proof using Hwf.
  pose proof (wf_B cfg Hwf) as HB. pose proof (wf_geo cfg Hwf) as Hgeo.
  pose proof Hwf as [[[HN1 HN2] _] Hsp]. unfold MAX_DEVICES, INT_MAX in *.
  assert (0 < span) as Hspan by nia.
  assert (forall fuel buf bpos L0 rest ds, exists fuel' ds',
            (fuel - Z.to_nat 0 <= fuel')%nat /\
            xmp_write_loop cfg fuel buf bpos (0 * B + rest) (L0 * B) ds =
              xmp_write_loop cfg fuel' buf (bpos + 0 * B) rest
                ((L0 + 0) * B) ds' /\
            write_effect cfg ds buf bpos L0 0 ds') as Hnil.
  { intros fuel0 buf bpos L0 rest ds. exists fuel0, ds.
    split; [cbn; lia|]. split; [|apply write_effect_nil].
    by rewrite Z.mul_0_l, !Z.add_0_r, Z.add_0_l. }
  induction fuel as [|fuel IH];
    intros buf bpos L0 k rest ds Hpresent Hfuel Hk HL0 Hend Hrest Hlen Hbpos
      Hbuf Hholds.
  { assert (k = 0) as -> by lia. apply Hnil. }
  destruct (decide (k = 0)) as [->|Hk0]; [apply Hnil|].
  cbn [xmp_write_loop].
  destruct (Z.gtb_spec (k * B + rest) 0) as [_|]; [|nia].
  assert (0 <= L0 * B) as Hnn by (apply Z.mul_nonneg_nonneg; lia).
  assert (0 <= L0 * B < 2 ^ 64) as Hoff by nia.
  destruct (decide (L0 mod (N - 1) = 0 /\ N - 1 <= k)) as [[Hal Hfull]|Hrmw].
  - (* a whole stripe *)
    set (s := L0 / (N - 1)).
    assert (L0 = s * (N - 1)) as HL0s.
    { pose proof (Z.div_mod L0 (N - 1) ltac:(lia)). unfold s. lia. }
    assert (0 <= s) as Hs by (apply Z.div_pos; lia).
    assert (L0 * B = s * span) as Heq by (rewrite HL0s; ring).
    rewrite Heq.
    destruct (full_stripe_effect buf bpos (k * B + rest) s ds Hpresent Hs)
      as (ds1 & Hstep & Heff); [nia | nia | done | nia |..].
    { specialize (Hholds L0 ltac:(lia)).
      rewrite HL0s in Hholds.
      replace (s * (N - 1)) with (s * (N - 1) + 0) in Hholds by lia.
      rewrite (place_of_parts cfg Hgeo) in Hholds by lia. done. }
    erewrite bind_eq by exact Hstep. cbv beta iota.
    replace (k * B + rest - span) with ((k - (N - 1)) * B + rest) by ring.
    replace (s * span + span) with ((L0 + (N - 1)) * B) by (rewrite HL0s; ring).
    destruct Heff as (Hsb & Heff).
    destruct (IH buf (bpos + span) (L0 + (N - 1)) (k - (N - 1)) rest ds1)
      as (fuel' & ds' & Hf' & Hrun & Heff'); try done; try lia.
    { intros L HL. destruct (Hholds L ltac:(lia)) as [Hs' Hin].
      split; [done|]. intros i Hi. destruct Hsb as [_ ->]; [|lia]. by apply Hin. }
    exists fuel', ds'. split; [lia|]. split.
    { rewrite Hrun. f_equal; lia. }
    replace k with ((N - 1) + (k - (N - 1))) by lia.
    eapply write_effect_app; [lia | lia | |].
    + rewrite HL0s at 1. by split.
    + done.
  - (* one block *)
    unfold bind at 1. rewrite write_step_unfold by done.
    assert ((L0 * B mod span =? 0) && (k * B + rest >=? span) = false) as ->.
    { apply andb_false_iff.
      destruct (Z.eqb_spec (L0 * B mod span) 0) as [Hz|]; [|by left]. right.
      rewrite Z.mul_mod_distr_r in Hz by lia.
      rewrite Z.geb_leb. apply Z.leb_gt.
      assert (L0 mod (N - 1) = 0) by nia.
      assert (k < N - 1) by lia. nia. }
    destruct (Hholds L0 ltac:(lia)) as [Hs Hin].
    destruct (place_bounds cfg Hgeo L0 HL0) as (_ & _ & Hp & Hd & _).
    destruct (rmw_effect buf bpos (k * B + rest) L0 ds HL0)
      as (ds1 & Hstep & Heff);
      [lia | apply in_range_spec; nia | by apply Hpresent | by apply Hpresent
       | by apply Hin | by apply Hin |].
    rewrite Hstep.
    rewrite u32_small, u64_small by nia.
    replace (k * B + rest - B) with ((k - 1) * B + rest) by ring.
    replace (L0 * B + B) with ((L0 + 1) * B) by ring.
    pose proof Heff as (Hsb & _).
    destruct (IH buf (bpos + B) (L0 + 1) (k - 1) rest ds1)
      as (fuel' & ds' & Hf' & Hrun & Heff'); try done; try lia.
    { intros L HL. destruct (Hholds L ltac:(lia)) as [Hs' Hin'].
      split; [done|]. intros i Hi. destruct Hsb as [_ ->]; [|lia]. by apply Hin'. }
    exists fuel', ds'. split; [lia|]. split.
    { rewrite Hrun. f_equal; lia. }
    replace k with (1 + (k - 1)) by lia.
    eapply write_effect_app; [lia | lia | done |].
    by rewrite Z.mul_1_l.
Qed.

Lemma write_loop_run fuel buf bpos L0 k ds :
  all_present cfg ->
  (Z.to_nat k <= fuel)%nat -> 0 <= k -> 0 <= L0 ->
  (L0 + k) * B < 2 ^ 64 -> k * B < 2 ^ 32 ->
  0 <= bpos -> bpos + k * B <= Z.of_nat (length buf) ->
  holds_blocks cfg ds L0 k ->
  exists ds',
    xmp_write_loop cfg fuel buf bpos (k * B) (L0 * B) ds = (Ret 0, ds') /\
    write_effect cfg ds buf bpos L0 k ds'.
Proof using Hwf.
  intros Hpresent Hfuel Hk HL0 Hend Hlen Hbpos Hbuf Hholds.
  pose proof (wf_B cfg Hwf) as HB.
  destruct (write_loop_prefix fuel buf bpos L0 k 0 ds)
    as (fuel' & ds' & _ & Hrun & Heff); try (done || lia).
  exists ds'. split; [|done].
  rewrite Z.add_0_r in Hrun. rewrite Hrun. apply write_loop_done.
Qed.

End WriteForward.

(** ** Reading back *)

Section ReadBack.

Variable cfg : config.
Local Abbreviation N := (num_devices cfg).
Local Abbreviation B := (block_size cfg).
Hypothesis Hwf : wf_config cfg.

(** A read hands out the logical blocks, where the stripes of the blocks
    it reconstructs are parity-consistent. *)
Lemma delivered_logical (l : list bool) ds L k :
  0 <= L ->
  (forall L', L <= L' < L + k ->
     missing (set_missing cfg l) (data_disk (place cfg L')) = true ->
     parity_consistent cfg ds (stripe (place cfg L'))) ->
  delivered (set_missing cfg l) ds L k = mjoin (logical cfg ds <$> seqZ L k).
Proof using Hwf.
  intros HL Hc. pose proof (wf_geo cfg Hwf) as Hgeo.
  unfold delivered. f_equal.
  apply list_fmap_ext. intros n L' [-> Hn]%lookup_seqZ.
  unfold delivered_block, logical.
  change (place (set_missing cfg l)) with (place cfg).
  destruct (missing _ _) eqn:Hm; [|done].
  destruct (place_bounds cfg Hgeo (L + Z.of_nat n)) as (? & ? & ? & ? & ? & ?);
    [lia|].
  apply (reconstructed_consistent (set_missing cfg l)); try done.
  apply Hc; [lia | done].
Qed.

Lemma join_blocks (g : Z -> block) data L0 k :
  0 <= k ->
  (forall L, L0 <= L < L0 + k -> g L = slice data ((L - L0) * B) B) ->
  mjoin (g <$> seqZ L0 k) = slice data 0 (k * B).
Proof using Hwf.
  intros Hk Hl.
  transitivity (mjoin ((fun j => slice data (j * B) B) <$> seqZ 0 k)).
  - f_equal.
    replace (seqZ L0 k) with (Z.add L0 <$> seqZ 0 k)
      by (rewrite fmap_add_seqZ; f_equal; lia).
    rewrite <- list_fmap_compose.
    apply list_fmap_ext. intros n j [-> Hn]%lookup_seqZ. cbn.
    rewrite Hl by lia. f_equal. lia.
  - rewrite <- (Z2Nat.id k) by done.
    by rewrite (join_slices cfg Hwf data (Z.to_nat k) 0).
Qed.

(** The present slots of media with the bounds of [ds] hold what those of
    [ds] hold. *)
Lemma readable_bounds (l : list bool) ds ds' L k :
  same_bounds ds ds' -> holds_blocks cfg ds L k ->
  readable (set_missing cfg l) ds' L k.
Proof.
  intros [_ Hsb] Hh j i Hj Hi _.
  destruct (Hh (L + j) ltac:(lia)) as [_ Hin].
  rewrite Hsb by lia. by apply Hin.
Qed.

(** Reading back what a write stored. *)
Lemma read_after_write (l : list bool) ds ds' data L0 k buf fuel :
  write_effect cfg ds data 0 L0 k ds' ->
  holds_blocks cfg ds L0 k ->
  0 <= k -> 0 <= L0 -> (L0 + k) * B < 2 ^ 64 -> k * B < 2 ^ 32 ->
  Z.of_nat (length data) = k * B ->
  Z.of_nat (length buf) = k * B -> (Z.to_nat k <= fuel)%nat ->
  at_most_one_missing (set_missing cfg l) ->
  (forall L, L0 <= L < L0 + k ->
     missing (set_missing cfg l) (data_disk (place cfg L)) = true ->
     parity_consistent cfg ds' (stripe (place cfg L))) ->
  xmp_read (set_missing cfg l) fuel buf (k * B) (L0 * B) ds' =
    (Ret (0, data), ds').
Proof using Hwf.
  intros (Hsb & Hlog & _) Hh Hk HL0 Hend Hlen Hdata Hbuf Hfuel Hone Hc.
  pose proof (wf_B cfg Hwf) as HB. pose proof (wf_geo cfg Hwf) as Hgeo.
  assert (0 <= L0 * B) by (apply Z.mul_nonneg_nonneg; lia).
  pose proof (xmp_read_ok (set_missing cfg l) Hgeo Hone ds' fuel buf k (L0 * B))
    as Hread.
  change (block_size (set_missing cfg l)) with B in Hread.
  rewrite Z.div_mul in Hread by lia.
  rewrite Hread; try (done || lia || nia); [|by eapply readable_bounds].
  rewrite delivered_logical by done.
  rewrite (join_blocks (logical cfg ds') data L0 k Hk).
  - rewrite <- Hdata. by rewrite slice_all.
  - intros L HL. rewrite Hlog by lia. case_decide; [|lia]. f_equal.
Qed.

End ReadBack.

(** X2. With every slot present, a write of [k] whole blocks at a block
    boundary inside the media returns 0, whatever mix of full-stripe and
    read-modify-write steps it takes, and a read of the same range then
    returns the bytes written. *)
Theorem write_read_round_trip (cfg : config) (ds : disks) (data : list byte)
    (L0 k : Z) (fuel : nat) :
  let B := block_size cfg in
  wf_config cfg -> all_present cfg ->
  0 <= k -> 0 <= L0 -> (L0 + k) * B < 2 ^ 64 -> k * B < 2 ^ 32 ->
  Z.of_nat (length data) = k * B ->
  holds_blocks cfg ds L0 k ->
  (Z.to_nat k <= fuel)%nat ->
  exists ds',
    xmp_write cfg fuel data (k * B) (L0 * B) ds = (Ret 0, ds') /\
    forall (buf : list byte) (fuel' : nat),
      Z.of_nat (length buf) = k * B -> (Z.to_nat k <= fuel')%nat ->
      xmp_read cfg fuel' buf (k * B) (L0 * B) ds' = (Ret (0, data), ds').
Proof.
  intros B Hwf Hpresent Hk HL0 Hend Hlen Hdata Hholds Hfuel. subst B.
  pose proof (wf_geo cfg Hwf) as Hgeo.
  destruct (write_loop_run cfg Hwf fuel data 0 L0 k ds)
    as (ds' & Hrun & Heff); try (done || lia).
  exists ds'. split; [done|].
  intros buf fuel' Hbuf Hfuel'.
  destruct cfg as [n b sz rd dm].
  set (cfg := Config n b sz rd dm) in *.
  assert (forall L, 0 <= L ->
            missing (set_missing cfg dm) (data_disk (place cfg L)) = false) as Hm.
  { intros L HL.
    destruct (place_bounds cfg Hgeo L HL) as (_ & _ & _ & Hd & _).
    by apply Hpresent. }
  pose proof (read_after_write cfg Hwf dm ds ds' data L0 k
                buf fuel' Heff Hholds Hk HL0 Hend Hlen Hdata Hbuf Hfuel')
    as Hread.
  apply Hread.
  - intros i j Hi Hj Hmi.
    by rewrite (Hpresent i Hi : missing (set_missing cfg dm) i = false) in Hmi.
  - intros L HL Hmiss. rewrite Hm in Hmiss by lia. done.
Qed.

Lemma write_read_round_trip_witness :
  exists ds',
    xmp_write Samples.cfg3 3 [1; 2; 3; 4; 5; 6; 7; 8; 9; 10; 11; 12] 12 4
      Samples.written = (Ret 0, ds') /\
    xmp_read Samples.cfg3 3 [0; 0; 0; 0; 0; 0; 0; 0; 0; 0; 0; 0] 12 4 ds' =
      (Ret (0, [1; 2; 3; 4; 5; 6; 7; 8; 9; 10; 11; 12]), ds').
Proof.
  destruct (write_read_round_trip Samples.cfg3 Samples.written
              [1; 2; 3; 4; 5; 6; 7; 8; 9; 10; 11; 12] 1 3 3)
    as (ds' & Hw & Hr).
  - exact samples_wf.
  - exact samples_present.
  - lia.
  - lia.
  - cbn; lia.
  - cbn; lia.
  - reflexivity.
  - intros L HL.
    assert (L = 1 \/ L = 2 \/ L = 3) as [-> | [-> | ->]] by lia;
      (split; [by vm_compute | each_slot; reflexivity]).
  - cbn; lia.
  - exists ds'. split; [exact Hw|]. apply Hr; [reflexivity | cbn; lia].
Defined.

Lemma all_present_at_most cfg : all_present cfg -> at_most_one_missing cfg.
Proof. intros Hp i j Hi _ Hmi. by rewrite (Hp i Hi) in Hmi. Qed.

(** X3. When the stripes a write touches are parity-consistent before it,
    the bytes written with every slot present are read back whichever
    single slot is missing afterwards. *)
Theorem written_data_survives_a_failure (cfg : config) (ds : disks)
    (data : list byte) (L0 k : Z) (fuel : nat) :
  let B := block_size cfg in
  wf_config cfg -> all_present cfg ->
  0 <= k -> 0 <= L0 -> (L0 + k) * B < 2 ^ 64 -> k * B < 2 ^ 32 ->
  Z.of_nat (length data) = k * B ->
  (forall L, L0 <= L < L0 + k ->
     parity_consistent cfg ds (stripe (place cfg L))) ->
  (Z.to_nat k <= fuel)%nat ->
  exists ds',
    xmp_write cfg fuel data (k * B) (L0 * B) ds = (Ret 0, ds') /\
    forall (l : list bool) (buf : list byte) (fuel' : nat),
      at_most_one_missing (set_missing cfg l) ->
      Z.of_nat (length buf) = k * B -> (Z.to_nat k <= fuel')%nat ->
      xmp_read (set_missing cfg l) fuel' buf (k * B) (L0 * B) ds' =
        (Ret (0, data), ds').
Proof.
  intros B Hwf Hpresent Hk HL0 Hend Hlen Hdata Hcons Hfuel. subst B.
  pose proof (wf_B cfg Hwf) as HB.
  assert (holds_blocks cfg ds L0 k) as Hholds.
  { intros L HL. by destruct (Hcons L HL). }
  destruct (write_loop_run cfg Hwf fuel data 0 L0 k ds)
    as (ds' & Hrun & Heff); try (done || lia).
  exists ds'. split; [done|].
  intros l buf fuel' Hone Hbuf Hfuel'.
  assert (0 <= L0 * block_size cfg) by (apply Z.mul_nonneg_nonneg; lia).
  apply (read_after_write cfg Hwf l ds ds' data L0 k); try done.
  intros L HL _.
  apply (write_loop_preserves cfg Hwf Hpresent fuel data 0
           (k * block_size cfg) (L0 * block_size cfg) ds ds');
    [nia | nia | done | by apply Hcons].
Qed.

Lemma written_data_survives_a_failure_witness :
  exists ds',
    xmp_write Samples.cfg3 3 [1; 2; 3; 4; 5; 6; 7; 8; 9; 10; 11; 12] 12 4
      Samples.written = (Ret 0, ds') /\
    xmp_read Samples.degraded 3 [0; 0; 0; 0; 0; 0; 0; 0; 0; 0; 0; 0] 12 4 ds' =
      (Ret (0, [1; 2; 3; 4; 5; 6; 7; 8; 9; 10; 11; 12]), ds').
Proof.
  destruct (written_data_survives_a_failure Samples.cfg3 Samples.written
              [1; 2; 3; 4; 5; 6; 7; 8; 9; 10; 11; 12] 1 3 3)
    as (ds' & Hw & Hr).
  - exact samples_wf.
  - exact samples_present.
  - lia.
  - lia.
  - cbn; lia.
  - cbn; lia.
  - reflexivity.
  - intros L HL.
    assert (L = 1 \/ L = 2 \/ L = 3) as [-> | [-> | ->]] by lia.
    + exact samples_written_consistent.
    + exact samples_written_consistent_1.
    + exact samples_written_consistent_1.
  - cbn; lia.
  - exists ds'. split; [exact Hw|].
    apply (Hr [false; true; false]); [|reflexivity | cbn; lia].
    intros i j Hi Hj.
    destruct (three_slots i Hi) as [-> | [-> | ->]],
      (three_slots j Hj) as [-> | [-> | ->]]; vm_compute; congruence.
Defined.

Section Frame.

Variable cfg : config.
Local Abbreviation N := (num_devices cfg).
Local Abbreviation B := (block_size cfg).
Hypothesis Hwf : wf_config cfg.
Hypothesis Hpresent : all_present cfg.

Lemma delivered_present ds L k :
  0 <= L -> delivered cfg ds L k = mjoin (logical cfg ds <$> seqZ L k).
Proof using Hwf Hpresent.
  intros HL. pose proof (wf_geo cfg Hwf) as Hgeo.
  unfold delivered. f_equal.
  apply list_fmap_ext. intros n L' [-> Hn]%lookup_seqZ.
  unfold delivered_block, logical.
  destruct (place_bounds cfg Hgeo (L + Z.of_nat n)) as (_ & _ & _ & Hd & _);
    [lia|].
  by rewrite Hpresent.
Qed.

Lemma readable_same_bounds ds ds' L k :
  same_bounds ds ds' -> readable cfg ds L k -> readable cfg ds' L k.
Proof.
  intros [_ Hsb] Hr j i Hj Hi Hm. rewrite Hsb by lia. by apply Hr.
Qed.

End Frame.

(** X4. A write of whole blocks with every slot present changes no logical
    block outside its range: a read of blocks that the write does not cover
    returns after the write what it returned before. *)
Theorem write_leaves_other_blocks (cfg : config) (ds : disks)
    (data buf : list byte) (L0 k L1 k1 : Z) (fuel fuel' : nat) :
  let B := block_size cfg in
  wf_config cfg -> all_present cfg ->
  0 <= k -> 0 <= L0 -> (L0 + k) * B < 2 ^ 64 -> k * B < 2 ^ 32 ->
  Z.of_nat (length data) = k * B ->
  holds_blocks cfg ds L0 k ->
  (Z.to_nat k <= fuel)%nat ->
  0 <= k1 -> 0 <= L1 -> (L1 + k1) * B < 2 ^ 64 -> k1 * B < 2 ^ 32 ->
  L1 + k1 <= L0 \/ L0 + k <= L1 ->
  Z.of_nat (length buf) = k1 * B ->
  readable cfg ds L1 k1 ->
  (Z.to_nat k1 <= fuel')%nat ->
  exists ds' r,
    xmp_write cfg fuel data (k * B) (L0 * B) ds = (Ret 0, ds') /\
    xmp_read cfg fuel' buf (k1 * B) (L1 * B) ds = (Ret (0, r), ds) /\
    xmp_read cfg fuel' buf (k1 * B) (L1 * B) ds' = (Ret (0, r), ds').
Proof.
  intros B Hwf Hpresent Hk HL0 Hend Hlen Hdata Hholds Hfuel
    Hk1 HL1 Hend1 Hlen1 Hdisj Hbuf Hr Hfuel'. subst B.
  pose proof (wf_B cfg Hwf) as HB. pose proof (wf_geo cfg Hwf) as Hgeo.
  pose proof (all_present_at_most cfg Hpresent) as Hone.
  destruct (write_loop_run cfg Hwf fuel data 0 L0 k ds)
    as (ds' & Hrun & Hsb & Hlog & _); try (done || lia).
  assert (0 <= L1 * block_size cfg) by (apply Z.mul_nonneg_nonneg; lia).
  exists ds', (delivered cfg ds L1 k1). split; [done|].
  pose proof (xmp_read_ok cfg Hgeo Hone ds fuel' buf k1 (L1 * block_size cfg))
    as Hread.
  pose proof (xmp_read_ok cfg Hgeo Hone ds' fuel' buf k1 (L1 * block_size cfg))
    as Hread'.
  rewrite Z.div_mul in Hread, Hread' by lia.
  split; [apply Hread; try (done || lia || nia)|].
  rewrite Hread'; try (done || lia || nia);
    [|by apply (readable_same_bounds cfg ds)].
  rewrite !delivered_present by done.
  replace (logical cfg ds' <$> seqZ L1 k1) with (logical cfg ds <$> seqZ L1 k1);
    [done|].
  apply list_fmap_ext. intros n L [-> Hn]%lookup_seqZ.
  rewrite Hlog by lia. case_decide; [lia | done].
Qed.

Lemma write_leaves_other_blocks_witness :
  exists ds' r,
    xmp_write Samples.cfg3 2 [1; 2; 3; 4; 5; 6; 7; 8] 8 4 Samples.written =
      (Ret 0, ds') /\
    xmp_read Samples.cfg3 1 [0; 0; 0; 0] 4 0 Samples.written = (Ret (0, r), Samples.written) /\
    xmp_read Samples.cfg3 1 [0; 0; 0; 0] 4 0 ds' = (Ret (0, r), ds').
Proof.
  apply (write_leaves_other_blocks Samples.cfg3 Samples.written
           [1; 2; 3; 4; 5; 6; 7; 8] [0; 0; 0; 0] 1 2 0 1 2 1).
  - exact samples_wf.
  - exact samples_present.
  - lia.
  - lia.
  - cbn; lia.
  - cbn; lia.
  - reflexivity.
  - intros L HL.
    assert (L = 1 \/ L = 2) as [-> | ->] by lia;
      (split; [by vm_compute | each_slot; reflexivity]).
  - cbn; lia.
  - lia.
  - lia.
  - cbn; lia.
  - cbn; lia.
  - lia.
  - reflexivity.
  - intros j i Hj. assert (j = 0) as -> by lia. revert i. each_slot; reflexivity.
  - cbn; lia.
Defined.

(** ** Writes with a slot missing *)

Section DegradedWrite.

Variable cfg : config.
Local Abbreviation N := (num_devices cfg).
Local Abbreviation B := (block_size cfg).
Local Abbreviation span := ((N - 1) * B).
Hypothesis Hwf : wf_config cfg.

(** A request of one block takes the read-modify-write path. *)
Lemma single_block_step fuel data L0 ds :
  0 <= L0 -> L0 * B < 2 ^ 64 ->
  xmp_write cfg (S fuel) data B (L0 * B) ds =
    (r <- write_rmw cfg data 0 B (L0 * B) ;;
     match r with
     | Failed => ret (-1)
     | Advance b l o => xmp_write_loop cfg fuel data b l o
     end) ds.
Proof using Hwf.
  intros HL0 Hoff.
  pose proof (wf_B cfg Hwf) as HB.
  pose proof Hwf as [[[HN1 HN2] _] _]. unfold MAX_DEVICES in *.
  assert (0 <= L0 * B) by (apply Z.mul_nonneg_nonneg; lia).
  unfold xmp_write. cbn [xmp_write_loop].
  destruct (Z.gtb_spec B 0) as [_|]; [|lia].
  unfold bind at 1. rewrite write_step_unfold by (done || lia).
  assert ((L0 * B mod span =? 0) && (B >=? span) = false) as ->; [|done].
  apply andb_false_iff. right. rewrite Z.geb_leb. apply Z.leb_gt. nia.
Qed.

Lemma delivered_one ds L :
  delivered cfg ds L 1 = delivered_block cfg ds (place cfg L).
Proof. unfold delivered. cbn. apply app_nil_r. Qed.

(** What a read of one block returns. *)
Lemma read_one ds L fuel buf :
  at_most_one_missing cfg ->
  0 <= L -> (L + 1) * B < 2 ^ 64 ->
  Z.of_nat (length buf) = B ->
  (forall i, 0 <= i < N -> missing cfg i = false ->
     in_range (disk ds i) (stripe (place cfg L) * B) B = true) ->
  xmp_read cfg (S fuel) buf B (L * B) ds =
    (Ret (0, delivered_block cfg ds (place cfg L)), ds).
Proof using Hwf.
  intros Hone HL Hend Hbuf Hin.
  pose proof (wf_B cfg Hwf) as HB. pose proof (wf_geo cfg Hwf) as Hgeo.
  pose proof Hwf as [[_ [_ HB2]] _]. unfold INT_MAX in *.
  assert (0 <= L * B) by (apply Z.mul_nonneg_nonneg; lia).
  pose proof (xmp_read_ok cfg Hgeo Hone ds (S fuel) buf 1 (L * B)) as Hread.
  rewrite Z.mul_1_l, Z.div_mul, delivered_one in Hread by lia.
  apply Hread; try (done || lia).
  intros j i Hj Hi Hm. assert (j = 0) as -> by lia. rewrite Z.add_0_r.
  by apply Hin.
Qed.

(** The XOR of the parity block and the other data blocks of a stripe
    whose N blocks XOR to zero. *)
Lemma xor_reconstruct (f : Z -> block) par d :
  0 <= par < N -> 0 <= d < N -> d <> par ->
  (forall i, 0 <= i < N -> is_block cfg (f i)) ->
  xor_all cfg (f <$> seqZ 0 N) = zeros B ->
  xor_all cfg (f par ::
               (f <$> filter (fun i => i <> par /\ i <> d) (seqZ 0 N))) = f d.
Proof.
  intros Hp Hd Hne Hblk Hx.
  assert (forall i, i ∈ seqZ 0 N -> is_block cfg (f i)) as Hf.
  { intros i Hi%elem_of_seqZ. apply Hblk. lia. }
  rewrite xor_all_cons.
  rewrite <- (xor_all_masked cfg f
    (fun i => (i =? par) || (i =? d))); cycle 1.
  { intros i. rewrite orb_false_iff, !Z.eqb_neq. done. }
  { intros; by apply Hf. }
  replace ((fun i => if (i =? par) || (i =? d)
                     then zeros B else f i) <$> seqZ 0 N)
    with (upd d (zeros B) (upd par (zeros B) f) <$> seqZ 0 N).
  2:{ apply list_fmap_ext. intros _ i _. unfold upd.
      destruct (Z.eqb_spec i d), (Z.eqb_spec i par); done. }
  rewrite xor_all_upd; cycle 1.
  { apply NoDup_seqZ. } { apply elem_of_seqZ; lia. } { apply zeros_block. }
  { intros i Hi. unfold upd. destruct (i =? par); [apply zeros_block | by apply Hf]. }
  rewrite xor_all_upd; cycle 1.
  { apply NoDup_seqZ. } { apply elem_of_seqZ; lia. } { apply zeros_block. }
  { done. }
  rewrite Hx.
  unfold upd at 1. destruct (Z.eqb_spec d par); [done|].
  assert (is_block cfg (f d)) by (apply Hf, elem_of_seqZ; lia).
  assert (is_block cfg (f par)) by (apply Hf, elem_of_seqZ; lia).
  rewrite !xor_zeros_r by (repeat apply xor_is_block; done || apply zeros_block).
  rewrite (xor_block_comm (f d)). by apply (xor_cancel cfg).
Qed.

End DegradedWrite.

(** X5. A one-block write to a block whose data slot is missing returns 0
    and stores one block only, in the parity slot of the stripe: the old
    parity XOR a zero block in place of the old data XOR the new data.
    The block then reads back as the bytes written XOR the bytes it read
    as before the write. *)
Theorem degraded_block_write (cfg : config) (ds : disks) (data buf : list byte)
    (L0 : Z) (fuel fuel' : nat) :
  let N := num_devices cfg in
  let B := block_size cfg in
  let p := place cfg L0 in
  wf_config cfg -> at_most_one_missing cfg ->
  0 <= L0 -> (L0 + 1) * B < 2 ^ 64 ->
  Z.of_nat (length data) = B -> Z.of_nat (length buf) = B ->
  missing cfg (data_disk p) = true ->
  (forall i, 0 <= i < N -> missing cfg i = false ->
     in_range (disk ds i) (stripe p * B) B = true) ->
  exists ds' old,
    ds' = store_block ds (parity_disk p) (stripe p * B)
            (xor_block
               (xor_block (block_at cfg ds (parity_disk p) (stripe p))
                  (zeros B)) data) /\
    xmp_read cfg (S fuel') buf B (L0 * B) ds = (Ret (0, old), ds) /\
    xmp_write cfg (S fuel) data B (L0 * B) ds = (Ret 0, ds') /\
    xmp_read cfg (S fuel') buf B (L0 * B) ds' =
      (Ret (0, xor_block data old), ds').
Proof.
  intros N B p Hwf Hone HL0 Hend Hdata Hbuf Hmd Hin. subst N B.
  pose proof (wf_B cfg Hwf) as HB. pose proof (wf_geo cfg Hwf) as Hgeo.
  pose proof Hwf as [[_ [_ HB2]] _]. unfold INT_MAX in *.
  destruct (place_bounds cfg Hgeo L0 HL0) as (Hs & _ & Hp & Hd & Hne & _).
  fold p in Hs, Hp, Hd, Hne.
  assert (missing cfg (parity_disk p) = false) as Hmp.
  { destruct (missing cfg (parity_disk p)) eqn:Hm; [|done].
    exfalso. apply Hne. by apply Hone. }
  assert (in_range data 0 (block_size cfg) = true) as Hdr
    by (apply in_range_spec; lia).
  assert (slice data 0 (block_size cfg) = data) as Hsl
    by (rewrite <- Hdata; apply slice_all).
  pose proof (Hin _ Hp Hmp) as Hpr.
  set (P := block_at cfg ds (parity_disk p) (stripe p)).
  set (P' := xor_block (xor_block P (zeros (block_size cfg))) data).
  assert (is_block cfg P) as HP by (by apply block_at_block).
  assert (is_block cfg data) as HD by (unfold is_block; lia).
  assert (is_block cfg P') as HP'.
  { unfold P'. repeat apply xor_is_block; try done. apply zeros_block. }
  set (ds' := store_block ds (parity_disk p) (stripe p * block_size cfg) P').
  exists ds', (delivered_block cfg ds p).
  split; [done|].
  split; [by apply read_one|]. split.
  - rewrite single_block_step by (done || lia).
    pose proof (write_rmw_run cfg Hwf data 0 (block_size cfg)
                  (L0 * block_size cfg) ds) as Hrun.
    rewrite Z.div_mul in Hrun by lia. fold p in Hrun. cbv zeta in Hrun.
    rewrite Hmp, Hmd, Hsl in Hrun. fold P P' ds' in Hrun.
    erewrite bind_eq; cycle 1.
    { apply Hrun; [nia | done | done | done]. }
    cbv beta iota. rewrite Z.sub_diag. apply write_loop_done.
  - rewrite read_one; try done.
    2:{ intros i Hi Hm. unfold ds'. rewrite in_range_store; auto; lia. }
    do 2 f_equal. unfold delivered_block. fold p. rewrite Hmd.
    unfold reconstructed. rewrite !xor_all_cons. fold P.
    unfold ds'. rewrite block_store_same by (done || lia).
    replace ((fun i => block_at cfg
                (store_block ds (parity_disk p) (stripe p * block_size cfg) P')
                i (stripe p)) <$>
             filter (fun i => i <> parity_disk p /\ i <> data_disk p)
               (seqZ 0 (num_devices cfg)))
      with ((fun i => block_at cfg ds i (stripe p)) <$>
            filter (fun i => i <> parity_disk p /\ i <> data_disk p)
              (seqZ 0 (num_devices cfg))).
    2:{ apply list_fmap_ext. intros n i Hi%list_elem_of_lookup_2.
        apply list_elem_of_filter in Hi as [[Hip _] Hi%elem_of_seqZ].
        symmetry. apply block_store_other; try (done || lia). }
    unfold P'. rewrite (xor_zeros_r cfg P) by done.
    by rewrite (xor_block_comm P data), <- xor_block_assoc.
Qed.

Lemma degraded_block_write_witness :
  exists ds' old,
    ds' = store_block Samples.written 0 (0 * 4)
            (xor_block
               (xor_block (block_at Samples.degraded Samples.written 0 0)
                  (zeros 4)) [1; 2; 3; 4]) /\
    xmp_read Samples.degraded 1 [0; 0; 0; 0] 4 0 Samples.written =
      (Ret (0, old), Samples.written) /\
    xmp_write Samples.degraded 1 [1; 2; 3; 4] 4 0 Samples.written = (Ret 0, ds') /\
    xmp_read Samples.degraded 1 [0; 0; 0; 0] 4 0 ds' =
      (Ret (0, xor_block [1; 2; 3; 4] old), ds').
Proof.
  apply (degraded_block_write Samples.degraded Samples.written
           [1; 2; 3; 4] [0; 0; 0; 0] 0 0 0).
  - unfold wf_config, valid_geometry, MAX_DEVICES, INT_MAX; cbn; lia.
  - intros i j Hi Hj.
    destruct (three_slots i Hi) as [-> | [-> | ->]],
      (three_slots j Hj) as [-> | [-> | ->]]; vm_compute; congruence.
  - lia.
  - cbn; lia.
  - reflexivity.
  - reflexivity.
  - reflexivity.
  - each_slot; by vm_compute.
Defined.

(** X6. A one-block write to a stripe whose parity slot is missing returns
    -1, but only after it has stored the new block in its data slot: the
    block then holds the bytes of the request. *)
Theorem block_write_without_parity (cfg : config) (ds : disks)
    (data : list byte) (L0 : Z) (fuel : nat) :
  let B := block_size cfg in
  let p := place cfg L0 in
  wf_config cfg ->
  0 <= L0 -> (L0 + 1) * B < 2 ^ 64 ->
  Z.of_nat (length data) = B ->
  missing cfg (parity_disk p) = true ->
  missing cfg (data_disk p) = false ->
  in_range (disk ds (data_disk p)) (stripe p * B) B = true ->
  exists ds',
    xmp_write cfg (S fuel) data B (L0 * B) ds = (Ret (-1), ds') /\
    ds' = store_block ds (data_disk p) (stripe p * B) data /\
    logical cfg ds' L0 = data.
Proof.
  intros B p Hwf HL0 Hend Hdata Hmp Hmd Hin. subst B.
  pose proof (wf_B cfg Hwf) as HB. pose proof (wf_geo cfg Hwf) as Hgeo.
  destruct (place_bounds cfg Hgeo L0 HL0) as (Hs & _ & Hp & Hd & Hne & _).
  fold p in Hs, Hp, Hd, Hne.
  assert (in_range data 0 (block_size cfg) = true) as Hdr
    by (apply in_range_spec; lia).
  assert (slice data 0 (block_size cfg) = data) as Hsl
    by (rewrite <- Hdata; apply slice_all).
  assert (is_block cfg data) as HD by (unfold is_block; lia).
  eexists. split; [|split; [reflexivity|]].
  - rewrite single_block_step by (done || lia).
    pose proof (write_rmw_run cfg Hwf data 0 (block_size cfg)
                  (L0 * block_size cfg) ds) as Hrun.
    rewrite Z.div_mul in Hrun by lia. fold p in Hrun. cbv zeta in Hrun.
    rewrite Hmp, Hmd, Hsl in Hrun.
    erewrite bind_eq; cycle 1.
    { apply Hrun; [nia | done | done | done]. }
    done.
  - unfold logical. fold p. by apply block_store_same; try lia.
Qed.

Lemma block_write_without_parity_witness :
  exists ds',
    xmp_write Samples.degraded 1 [1; 2; 3; 4] 4 8 Samples.written = (Ret (-1), ds') /\
    ds' = store_block Samples.written 0 4 [1; 2; 3; 4] /\
    logical Samples.degraded ds' 2 = [1; 2; 3; 4].
Proof.
  apply (block_write_without_parity Samples.degraded Samples.written
           [1; 2; 3; 4] 2 0).
  - unfold wf_config, valid_geometry, MAX_DEVICES, INT_MAX; cbn; lia.
  - lia.
  - cbn; lia.
  - reflexivity.
  - reflexivity.
  - reflexivity.
  - reflexivity.
Defined.

(** X7. A full-stripe write with one data slot missing skips that slot,
    stores the other blocks and the parity of all N-1 incoming blocks, and
    returns 0; a read of the stripe with the same slot missing then returns
    the bytes written, the skipped block being reconstructed. *)
Theorem degraded_full_stripe_round_trip (cfg : config) (ds : disks)
    (data : list byte) (s : Z) (fuel : nat) :
  let N := num_devices cfg in
  let B := block_size cfg in
  let span := (N - 1) * B in
  wf_config cfg -> at_most_one_missing cfg ->
  missing cfg (s mod N) = false ->
  0 <= s -> s * span + span < 2 ^ 64 ->
  Z.of_nat (length data) = span ->
  (forall i, 0 <= i < N -> missing cfg i = false ->
     in_range (disk ds i) (s * B) B = true) ->
  exists ds',
    xmp_write cfg (S fuel) data span (s * span) ds = (Ret 0, ds') /\
    forall (buf : list byte) (fuel' : nat),
      Z.of_nat (length buf) = span -> (Z.to_nat (N - 1) <= fuel')%nat ->
      xmp_read cfg fuel' buf span (s * span) ds' = (Ret (0, data), ds').
Proof.
  intros N B span Hwf Hone Hmp Hs Hend Hdata Hin. subst N B span.
  pose proof (wf_B cfg Hwf) as HB. pose proof (wf_geo cfg Hwf) as Hgeo.
  pose proof Hwf as [[[HN1 HN2] [_ HB2]] Hsp]. unfold MAX_DEVICES, INT_MAX in *.
  assert (0 < ((num_devices cfg - 1) * block_size cfg)) as Hspan by nia.
  assert (0 <= s * ((num_devices cfg - 1) * block_size cfg)) as Hnn by (apply Z.mul_nonneg_nonneg; lia).
  assert (s * ((num_devices cfg - 1) * block_size cfg) / ((num_devices cfg - 1) * block_size cfg) = s) as Hdiv by (apply Z.div_mul; lia).
  assert ((s * ((num_devices cfg - 1) * block_size cfg)) mod ((num_devices cfg - 1) * block_size cfg) = 0) as Halign by (apply Z.mod_mul; lia).
  pose proof (Z.mod_pos_bound s (num_devices cfg) ltac:(lia)) as Hpar.
  assert (forall i, 0 <= i < (num_devices cfg) -> missing cfg i = false ->
            in_range (disk ds i) (s * ((num_devices cfg - 1) * block_size cfg) / ((num_devices cfg - 1) * block_size cfg) * (block_size cfg)) (block_size cfg) = true) as Hdisks.
  { intros i Hi Hm. rewrite Hdiv. by apply Hin. }
  pose proof (write_step_full cfg Hwf data 0 ((num_devices cfg - 1) * block_size cfg) (s * ((num_devices cfg - 1) * block_size cfg)) ds
                ltac:(lia) Halign ltac:(lia) ltac:(lia) ltac:(lia) Hdisks)
    as Hrun.
  pose proof (full_stripe_blocks cfg Hwf data 0 ((num_devices cfg - 1) * block_size cfg) (s * ((num_devices cfg - 1) * block_size cfg)) ds
                ltac:(lia) Halign ltac:(lia) ltac:(lia) ltac:(lia) Hdisks)
    as (Hblocks & Hparity & _ & Hr & _).
  rewrite Hdiv in Hrun, Hblocks, Hparity, Hr.
  rewrite Hmp in Hrun, Hblocks, Hparity, Hr.
  match type of Hrun with _ = (_, ?d) => set (ds' := d) in * end.
  exists ds'. split.
  { unfold xmp_write. cbn [xmp_write_loop].
    destruct (Z.gtb_spec ((num_devices cfg - 1) * block_size cfg) 0) as [_|]; [|lia].
    erewrite bind_eq by exact Hrun. cbv beta iota.
    rewrite Z.sub_diag. apply write_loop_done. }
  intros buf fuel' Hbuf Hfuel'.
  assert (s * ((num_devices cfg - 1) * block_size cfg) / (block_size cfg) = s * ((num_devices cfg) - 1)) as HL.
  { rewrite Z.mul_assoc. apply Z.div_mul. lia. }
  assert (0 <= s * ((num_devices cfg) - 1)) as HLnn by (apply Z.mul_nonneg_nonneg; lia).
  pose proof (xmp_read_ok cfg Hgeo Hone ds' fuel' buf ((num_devices cfg) - 1) (s * ((num_devices cfg - 1) * block_size cfg)))
    as Hread.
  rewrite HL in Hread.
  rewrite Hread; try (done || lia); cycle 1.
  { intros j i Hj Hi Hm.
    rewrite (place_of_parts cfg Hgeo) by (done || lia). cbn [stripe].
    rewrite Hr by lia. by apply Hin. }
  do 2 f_equal. unfold delivered.
  rewrite (join_blocks cfg Hwf
             (fun l => delivered_block cfg ds' (place cfg l)) data
             (s * ((num_devices cfg) - 1)) ((num_devices cfg) - 1)); [|lia|].
  { rewrite <- Hdata. by rewrite slice_all. }
  intros L HL'.
  set (j := L - s * ((num_devices cfg) - 1)).
  replace L with (s * ((num_devices cfg) - 1) + j) by (unfold j; lia).
  rewrite (place_of_parts cfg Hgeo) by (unfold j; done || lia).
  assert (0 <= j <= (num_devices cfg) - 2) as Hj by (unfold j; lia).
  destruct (data_slot_bounds (s mod (num_devices cfg)) j (num_devices cfg) Hpar Hj) as [Hdm Hdmp].
  unfold delivered_block. cbn [data_disk stripe].
  destruct (missing cfg (data_slot (s mod (num_devices cfg)) j)) eqn:Hm.
  2:{ rewrite Hblocks, Hm by done. unfold incoming. by f_equal. }
  unfold reconstructed. cbn [data_disk stripe parity_disk].
  set (dm := data_slot (s mod (num_devices cfg)) j) in *.
  set (g := upd dm (incoming cfg data 0 j) (fun i => block_at cfg ds' i s)).
  assert (forall i, 0 <= i < (num_devices cfg) -> i <> dm -> missing cfg i = false) as Hothers.
  { intros i Hi Hne. destruct (missing cfg i) eqn:Hmi; [|done].
    exfalso. apply Hne. by apply Hone. }
  assert (forall i, i <> dm -> g i = block_at cfg ds' i s) as Hg.
  { intros i Hne. unfold g, upd. by destruct (Z.eqb_spec i dm). }
  assert (g dm = incoming cfg data 0 j) as Hgd.
  { unfold g, upd. by rewrite Z.eqb_refl. }
  transitivity (g dm); [|rewrite Hgd; unfold incoming; by f_equal].
  rewrite <- (xor_reconstruct cfg g (s mod (num_devices cfg)) dm); try (done || lia).
  - rewrite (Hg (s mod (num_devices cfg))) by lia. do 2 f_equal.
    apply list_fmap_ext. intros n i Hi%list_elem_of_lookup_2.
    apply list_elem_of_filter in Hi as [[_ Hne] _]. by rewrite Hg.
  - intros i Hi. destruct (decide (i = dm)) as [->|Hne].
    + rewrite Hgd. apply incoming_block, in_range_spec. nia.
    + rewrite Hg by done. apply block_at_block.
      rewrite Hr by lia. apply Hin; [done | by apply Hothers].
  - apply (xor_stripe_zero cfg g (s mod (num_devices cfg))); [done | |].
    + intros i Hi. destruct (decide (i = dm)) as [->|Hne].
      * rewrite Hgd. apply incoming_block, in_range_spec. nia.
      * rewrite Hg by done. apply block_at_block.
        rewrite Hr by lia. apply Hin; [done | by apply Hothers].
    + rewrite (Hg (s mod (num_devices cfg))) by lia. rewrite Hparity. f_equal.
      apply list_fmap_ext. intros n d [-> Hn]%lookup_seqZ. cbn.
      rewrite Z.add_0_l.
      assert (0 <= Z.of_nat n <= (num_devices cfg) - 2) as Hd by lia.
      destruct (data_slot_bounds (s mod (num_devices cfg)) (Z.of_nat n) (num_devices cfg) Hpar Hd) as [Hb Hbp].
      destruct (decide (Z.of_nat n = j)) as [->|Hnj]; [exact (eq_sym Hgd)|].
      assert (data_slot (s mod (num_devices cfg)) (Z.of_nat n) <> dm) as Hne.
      { intros Heq. by apply data_slot_inj in Heq. }
      rewrite Hg, Hblocks by done. by rewrite Hothers.
Qed.

Lemma degraded_full_stripe_round_trip_witness :
  exists ds',
    xmp_write Samples.degraded 1 Samples.AB 8 0 Samples.blank = (Ret 0, ds') /\
    xmp_read Samples.degraded 2 [0; 0; 0; 0; 0; 0; 0; 0] 8 0 ds' =
      (Ret (0, Samples.AB), ds').
Proof.
  destruct (degraded_full_stripe_round_trip Samples.degraded Samples.blank
              Samples.AB 0 0) as (ds' & Hw & Hr).
  - unfold wf_config, valid_geometry, MAX_DEVICES, INT_MAX; cbn; lia.
  - intros i j Hi Hj.
    destruct (three_slots i Hi) as [-> | [-> | ->]],
      (three_slots j Hj) as [-> | [-> | ->]]; vm_compute; congruence.
  - reflexivity.
  - lia.
  - cbn; lia.
  - reflexivity.
  - each_slot; by vm_compute.
  - exists ds'. split; [exact Hw|]. apply Hr; [reflexivity | cbn; lia].
Defined.

(** X8. A full-stripe write to a stripe whose parity slot is missing
    returns -1, but only after it has stored the N-1 data blocks: the
    logical blocks of the stripe then hold the bytes of the request. *)
Theorem full_stripe_write_without_parity (cfg : config) (ds : disks)
    (data : list byte) (s : Z) (fuel : nat) :
  let N := num_devices cfg in
  let B := block_size cfg in
  let span := (N - 1) * B in
  wf_config cfg -> at_most_one_missing cfg ->
  missing cfg (s mod N) = true ->
  0 <= s -> s * span + span < 2 ^ 64 ->
  Z.of_nat (length data) = span ->
  (forall i, 0 <= i < N -> missing cfg i = false ->
     in_range (disk ds i) (s * B) B = true) ->
  exists ds',
    xmp_write cfg (S fuel) data span (s * span) ds = (Ret (-1), ds') /\
    forall j, 0 <= j < N - 1 ->
      logical cfg ds' (s * (N - 1) + j) = slice data (j * B) B.
Proof.
  intros N B span Hwf Hone Hmp Hs Hend Hdata Hin. subst N B span.
  pose proof (wf_B cfg Hwf) as HB. pose proof (wf_geo cfg Hwf) as Hgeo.
  pose proof Hwf as [[[HN1 HN2] [_ HB2]] Hsp]. unfold MAX_DEVICES, INT_MAX in *.
  assert (0 < (num_devices cfg - 1) * block_size cfg) as Hspan by nia.
  assert (0 <= s * ((num_devices cfg - 1) * block_size cfg)) as Hnn
    by (apply Z.mul_nonneg_nonneg; lia).
  assert (s * ((num_devices cfg - 1) * block_size cfg) /
            ((num_devices cfg - 1) * block_size cfg) = s) as Hdiv
    by (apply Z.div_mul; lia).
  assert ((s * ((num_devices cfg - 1) * block_size cfg)) mod
            ((num_devices cfg - 1) * block_size cfg) = 0) as Halign
    by (apply Z.mod_mul; lia).
  pose proof (Z.mod_pos_bound s (num_devices cfg) ltac:(lia)) as Hpar.
  assert (forall i, 0 <= i < num_devices cfg -> missing cfg i = false ->
            in_range (disk ds i)
              (s * ((num_devices cfg - 1) * block_size cfg) /
                 ((num_devices cfg - 1) * block_size cfg) * block_size cfg)
              (block_size cfg) = true) as Hdisks.
  { intros i Hi Hm. rewrite Hdiv. by apply Hin. }
  pose proof (write_step_full cfg Hwf data 0
                ((num_devices cfg - 1) * block_size cfg)
                (s * ((num_devices cfg - 1) * block_size cfg)) ds
                ltac:(lia) Halign ltac:(lia) ltac:(lia) ltac:(lia) Hdisks)
    as Hrun.
  pose proof (full_stripe_blocks cfg Hwf data 0
                ((num_devices cfg - 1) * block_size cfg)
                (s * ((num_devices cfg - 1) * block_size cfg)) ds
                ltac:(lia) Halign ltac:(lia) ltac:(lia) ltac:(lia) Hdisks)
    as (Hblocks & _).
  rewrite Hdiv in Hrun, Hblocks. rewrite Hmp in Hrun, Hblocks.
  eexists. split.
  { unfold xmp_write. cbn [xmp_write_loop].
    destruct (Z.gtb_spec ((num_devices cfg - 1) * block_size cfg) 0) as [_|];
      [|lia].
    erewrite bind_eq by exact Hrun. done. }
  intros j Hj. unfold logical.
  rewrite (place_of_parts cfg Hgeo) by (done || lia). cbn [data_disk stripe].
  assert (0 <= j <= num_devices cfg - 2) as Hj' by lia.
  destruct (data_slot_bounds (s mod num_devices cfg) j (num_devices cfg)
              Hpar Hj') as [Hdm Hdmp].
  rewrite Hblocks by done.
  destruct (missing cfg (data_slot (s mod num_devices cfg) j)) eqn:Hm.
  - exfalso. apply Hdmp. by apply Hone.
  - unfold incoming. by f_equal.
Qed.

Lemma full_stripe_write_without_parity_witness :
  exists ds',
    xmp_write Samples.degraded 1 Samples.AB 8 8 Samples.blank = (Ret (-1), ds') /\
    forall j, 0 <= j < 3 - 1 ->
      logical Samples.degraded ds' (1 * (3 - 1) + j) = slice Samples.AB (j * 4) 4.
Proof.
  apply (full_stripe_write_without_parity Samples.degraded Samples.blank
           Samples.AB 1 0).
  - unfold wf_config, valid_geometry, MAX_DEVICES, INT_MAX; cbn; lia.
  - intros i j Hi Hj.
    destruct (three_slots i Hi) as [-> | [-> | ->]],
      (three_slots j Hj) as [-> | [-> | ->]]; vm_compute; congruence.
  - reflexivity.
  - lia.
  - cbn; lia.
  - reflexivity.
  - each_slot; by vm_compute.
Defined.

(** ** Requests beyond the media *)

Lemma dev_pread_short cfg ds i off :
  in_range (disk ds i) off (block_size cfg) = false ->
  dev_pread cfg i off ds = (Ret None, ds).
Proof.
  unfold dev_pread, disk. intros Hr.
  destruct (missing cfg i); [done|].
  destruct (ds !! Z.to_nat i) as [c|]; [|done]. cbn in Hr. by rewrite Hr.
Qed.

(** X9. The engine checks no offset against the size of the device: a read
    request that touches a block whose stripe the medium of its present
    data slot does not hold returns -1, and no byte is delivered for that
    block nor for any block after it. *)
Theorem read_beyond_media_refused (cfg : config) (ds : disks) (fuel : nat)
    (buf : list byte) (len offset k : Z) :
  let B := block_size cfg in
  let p := place cfg (offset / B + k) in
  valid_geometry cfg ->
  0 <= offset -> 0 <= len < 2 ^ 32 -> offset + len <= 2 ^ 64 ->
  len <= Z.of_nat (length buf) ->
  0 <= k -> k * B < len ->
  (Z.to_nat k < fuel)%nat ->
  missing cfg (data_disk p) = false ->
  in_range (disk ds (data_disk p)) (stripe p * B) B = false ->
  exists buf',
    xmp_read cfg fuel buf len offset ds = (Ret (-1, buf'), ds) /\
    drop (Z.to_nat (k * B)) buf' = drop (Z.to_nat (k * B)) buf.
Proof.
  intros B p Hgeo Hoff Hlen Hend Hbuf Hk Hkl Hfuel Hmd Hshort.
  subst B p. pose proof (geo_B cfg Hgeo) as HB.
  assert (0 <= offset / block_size cfg) as HL by (apply Z.div_pos; lia).
  destruct (place_bounds cfg Hgeo (offset / block_size cfg + k))
    as (? & ? & ? & ? & ? & Hphys); [lia|].
  destruct (read_loop_refuses cfg Hgeo ds (Z.to_nat k) fuel buf 0 len offset)
    as (buf' & Hloop & _ & Hdrop); rewrite ?Z2Nat.id by done; try (done || lia).
  - unfold read_block. rewrite Hmd. cbn [negb]. rewrite Hphys.
    by apply dev_pread_short.
  - exists buf'. by rewrite Z.add_0_l, Z2Nat.id in Hdrop by done.
Qed.

Lemma read_beyond_media_refused_witness :
  exists buf',
    xmp_read Samples.cfg3 3 [7; 7; 7; 7; 7; 7; 7; 7] 8 12 Samples.written =
      (Ret (-1, buf'), Samples.written) /\
    drop (Z.to_nat (1 * 4)) buf' = drop (Z.to_nat (1 * 4)) [7; 7; 7; 7; 7; 7; 7; 7].
Proof.
  apply (read_beyond_media_refused Samples.cfg3 Samples.written 3
           [7; 7; 7; 7; 7; 7; 7; 7] 8 12 1).
  - unfold valid_geometry, MAX_DEVICES, INT_MAX; cbn; lia.
  - lia.
  - lia.
  - lia.
  - cbn; lia.
  - lia.
  - cbn; lia.
  - cbn; lia.
  - reflexivity.
  - reflexivity.
Defined.

(** X10. A one-block write to a stripe that the medium of its present
    parity slot or of its present data slot does not hold returns -1 and
    stores nothing. *)
Theorem write_beyond_media_refused (cfg : config) (ds : disks)
    (data : list byte) (L0 : Z) (fuel : nat) (i : Z) :
  let B := block_size cfg in
  let p := place cfg L0 in
  wf_config cfg ->
  0 <= L0 -> (L0 + 1) * B < 2 ^ 64 ->
  i = parity_disk p \/ i = data_disk p ->
  missing cfg i = false ->
  in_range (disk ds i) (stripe p * B) B = false ->
  xmp_write cfg (S fuel) data B (L0 * B) ds = (Ret (-1), ds).
Proof.
  intros B p Hwf HL0 Hend Hi Hm Hshort. subst B.
  pose proof (wf_B cfg Hwf) as HB. pose proof (wf_geo cfg Hwf) as Hgeo.
  destruct (place_bounds cfg Hgeo L0 HL0) as (Hs & _ & Hp & Hd & Hne & Hphys).
  fold p in Hs, Hp, Hd, Hne, Hphys.
  assert (0 <= L0 * block_size cfg) by (apply Z.mul_nonneg_nonneg; lia).
  rewrite single_block_step by (done || lia).
  assert (write_rmw cfg data 0 (block_size cfg) (L0 * block_size cfg) ds =
            (Ret Failed, ds)) as Hrun; [|by erewrite bind_eq by exact Hrun].
  unfold write_rmw. rewrite locate_place by (done || lia).
  rewrite Z.div_mul by lia. fold p. cbn [defined]. rewrite bind_ret_l.
  rewrite Hphys.
  unfold vla. destruct (Z.ltb_spec 0 (block_size cfg)) as [_|]; [|lia].
  rewrite bind_ret_l.
  assert (forall j, (read_or_zero cfg j (stripe p * block_size cfg) ds =
                       (Ret None, ds) /\
                     missing cfg j = false /\
                     in_range (disk ds j) (stripe p * block_size cfg)
                       (block_size cfg) = false) \/
                    exists b, read_or_zero cfg j (stripe p * block_size cfg) ds =
                                (Ret (Some b), ds)) as Hread.
  { intros j. unfold read_or_zero.
    destruct (missing cfg j) eqn:Hmj; cbn [negb]; [right; by eexists|].
    destruct (in_range (disk ds j) (stripe p * block_size cfg)
                (block_size cfg)) eqn:Hr.
    - right. eexists. by apply dev_pread_ok.
    - left. split; [by apply dev_pread_short | done]. }
  destruct (Hread (parity_disk p)) as [(Hrp & _)|(op & Hrp)].
  { by erewrite bind_eq by exact Hrp. }
  erewrite bind_eq by exact Hrp. cbv beta iota.
  destruct (Hread (data_disk p)) as [(Hrd & _)|(od & Hrd)].
  { by erewrite bind_eq by exact Hrd. }
  exfalso. destruct Hi as [-> | ->].
  - unfold read_or_zero in Hrp. rewrite Hm in Hrp. cbn [negb] in Hrp.
    by rewrite dev_pread_short in Hrp.
  - unfold read_or_zero in Hrd. rewrite Hm in Hrd. cbn [negb] in Hrd.
    by rewrite dev_pread_short in Hrd.
Qed.

Lemma write_beyond_media_refused_witness :
  xmp_write Samples.cfg3 1 [1; 2; 3; 4] 4 16 Samples.written =
    (Ret (-1), Samples.written).
Proof.
  apply (write_beyond_media_refused Samples.cfg3 Samples.written
           [1; 2; 3; 4] 4 0 2).
  - exact samples_wf.
  - lia.
  - cbn; lia.
  - left; reflexivity.
  - reflexivity.
  - reflexivity.
Defined.

(** ** What the rebuild touches *)

Lemma writes_only_read {A} t (m : M A) : read_only m -> writes_only t m.
Proof. intros Hm ds. rewrite (Hm ds). by split; [|split]. Qed.

Lemma writes_only_bind {A B} t (m : M A) (f : A -> M B) :
  writes_only t m -> (forall a, writes_only t (f a)) ->
  writes_only t (bind m f).
Proof.
  intros Hm Hf ds. unfold bind. specialize (Hm ds).
  destruct (m ds) as [[a| |] ds']; cbn in *; [|done..].
  destruct Hm as (Hl & Hd & Ht), (Hf a ds') as (Hl' & Hd' & Ht').
  split; [congruence|]. split; [|congruence].
  intros i Hi Hne. rewrite Hd', Hd; done.
Qed.

Lemma writes_only_pwrite cfg t b off :
  0 <= t -> is_block cfg b -> writes_only t (dev_pwrite cfg t b off).
Proof.
  intros Ht Hb ds. unfold dev_pwrite.
  destruct (missing cfg t); [done|].
  destruct (ds !! Z.to_nat t) as [c|] eqn:Hc; [|done].
  destruct (in_range c off (block_size cfg)) eqn:Hr; [|done]. cbn.
  pose proof Hr as (? & ? & ?)%in_range_spec.
  assert (Z.to_nat t < length ds)%nat by (by eapply lookup_lt_Some).
  split; [apply length_insert|]. split.
  - intros i Hi Hne. apply disk_insert_other; done.
  - rewrite disk_insert_same by done. unfold disk. rewrite Hc. cbn.
    apply length_splice. rewrite Hb, Z2Nat.id by lia. done.
Qed.

Lemma read_or_zero_ret cfg ds i off :
  exists r, read_or_zero cfg i off ds = (Ret r, ds) /\
            (forall b, r = Some b -> is_block cfg b).
Proof.
  unfold read_or_zero. destruct (missing cfg i); cbn [negb].
  - eexists. split; [done|]. intros b [= <-]. apply zeros_block.
  - apply dev_pread_ret.
Qed.

Lemma writes_only_bind_ret {A B} t (m : M A) (f : A -> M B) (P : A -> Prop) :
  (forall ds, exists r, m ds = (Ret r, ds) /\ P r) ->
  (forall a, P a -> writes_only t (f a)) ->
  writes_only t (bind m f).
Proof.
  intros Hm Hf ds. unfold bind.
  destruct (Hm ds) as (r & -> & HP). by apply Hf.
Qed.

Lemma writes_only_rebuild_stripe cfg s :
  0 <= rebuild_dev cfg -> writes_only (rebuild_dev cfg) (rebuild_stripe cfg s).
Proof.
  intros Ht. unfold rebuild_stripe. cbv zeta.
  apply writes_only_bind; [apply writes_only_read; auto with read_only|].
  intros parity.
  destruct (rebuild_dev cfg =? parity).
  - apply writes_only_bind; [apply writes_only_read, read_only_vla|]. intros _.
    apply (writes_only_bind_ret _ _ _
             (fun r => forall b, r = Some b -> is_block cfg b)).
    { intros ds. apply xor_peers_ret, zeros_block. }
    intros [b|] Hb; [|apply writes_only_read; auto with read_only].
    apply writes_only_pwrite; [done | by apply Hb].
  - apply writes_only_bind; [apply writes_only_read, read_only_vla|]. intros _.
    apply (writes_only_bind_ret _ _ _
             (fun r => forall b, r = Some b -> is_block cfg b)).
    { intros ds. apply read_or_zero_ret. }
    intros [b0|] Hb0; [|apply writes_only_read; auto with read_only].
    apply (writes_only_bind_ret _ _ _
             (fun r => forall b, r = Some b -> is_block cfg b)).
    { intros ds. apply xor_peers_ret. by apply Hb0. }
    intros [b|] Hb; [|apply writes_only_read; auto with read_only].
    apply writes_only_pwrite; [done | by apply Hb].
Qed.

Lemma writes_only_rebuild_loop cfg n : forall s,
  0 <= rebuild_dev cfg -> writes_only (rebuild_dev cfg) (rebuild_loop cfg n s).
Proof.
  induction n as [|n IH]; intros s Ht; cbn [rebuild_loop].
  - apply writes_only_read. auto with read_only.
  - apply writes_only_bind; [by apply writes_only_rebuild_stripe|].
    intros [|]; [by apply IH | apply writes_only_read; auto with read_only].
Qed.

Lemma writes_only_rebuild cfg :
  0 <= rebuild_dev cfg ->
  writes_only (rebuild_dev cfg) (do_raid5_rebuild cfg).
Proof.
  intros Ht. unfold do_raid5_rebuild.
  apply writes_only_bind; [apply writes_only_read; auto with read_only|].
  intros span.
  apply writes_only_bind; [apply writes_only_read; auto with read_only|].
  intros num_stripes. by apply writes_only_rebuild_loop.
Qed.

(** X11. Whatever it returns, the start-up rebuild stores to no slot but
    its target: every other slot holds after the call the bytes it held
    before, and the number of slots is unchanged. *)
Theorem rebuild_writes_target_only (cfg : config) (ds : disks) :
  0 <= rebuild_dev cfg ->
  let ds' := (do_raid5_rebuild cfg ds).2 in
  length ds' = length ds /\
  (forall i, 0 <= i -> i <> rebuild_dev cfg -> disk ds' i = disk ds i).
Proof.
  intros Ht. cbv zeta.
  destruct (writes_only_rebuild cfg Ht ds) as (Hlen & Hothers & _).
  by split.
Qed.

Lemma rebuild_writes_target_only_witness :
  let ds' := (do_raid5_rebuild Samples.rebuilding Samples.blank).2 in
  length ds' = length Samples.blank /\
  (forall i, 0 <= i -> i <> 1 -> disk ds' i = disk Samples.blank i).
Proof.
  apply (rebuild_writes_target_only Samples.rebuilding Samples.blank).
  cbn; lia.
Defined.

Section RebuildRefusal.

Variable cfg : config.
Local Abbreviation N := (num_devices cfg).
Local Abbreviation B := (block_size cfg).
Local Abbreviation t := (rebuild_dev cfg).
Hypothesis Hgeo : valid_geometry cfg.

Lemma dev_pwrite_ret ds i b off :
  exists ok ds', dev_pwrite cfg i b off ds = (Ret ok, ds').
Proof. unfold dev_pwrite. repeat case_match; by do 2 eexists. Qed.

(** The rebuild of a stripe is defined, whatever the media hold. *)
Lemma rebuild_stripe_ret s ds :
  exists ok ds', rebuild_stripe cfg s ds = (Ret ok, ds').
Proof using Hgeo.
  pose proof (geo_B cfg Hgeo) as HB.
  pose proof Hgeo as [[HN1 HN2] [_ HB2]]. unfold MAX_DEVICES, INT_MAX in *.
  unfold rebuild_stripe. cbv zeta.
  rewrite (u64_small N) by lia.
  rewrite umod64_pos by lia. cbn [fmap option_fmap option_map defined].
  rewrite bind_ret_l.
  unfold vla. destruct (Z.ltb_spec 0 B) as [_|]; [|lia].
  destruct (t =? _); rewrite bind_ret_l.
  - destruct (xor_peers_ret cfg ds (fun i => i =? s32 (s mod N))
                (u64 (s * u64 B)) (seqZ 0 N) (zeros B)) as (r & Hr & _);
      [apply zeros_block|].
    erewrite bind_eq by exact Hr.
    destruct r as [b|]; [apply dev_pwrite_ret | by do 2 eexists].
  - destruct (read_or_zero_ret cfg ds (s32 (s mod N)) (u64 (s * u64 B)))
      as (r0 & Hr0 & Hb0).
    erewrite bind_eq by exact Hr0.
    destruct r0 as [b0|]; [|by do 2 eexists].
    destruct (xor_peers_ret cfg ds
                (fun i => (i =? s32 (s mod N)) || (i =? t))
                (u64 (s * u64 B)) (seqZ 0 N) b0) as (r & Hr & _);
      [by apply Hb0|].
    erewrite bind_eq by exact Hr.
    destruct r as [b|]; [apply dev_pwrite_ret | by do 2 eexists].
Qed.

(** A missing slot that is neither the target nor the parity slot of the
    stripe stops the rebuild. *)
Lemma rebuild_stripe_refuses s ds m :
  0 <= m < N -> m <> t -> missing cfg m = true -> s mod N <> m ->
  rebuild_stripe cfg s ds = (Ret false, ds).
Proof using Hgeo.
  intros Hm Hmt Hmiss Hpar.
  pose proof (geo_B cfg Hgeo) as HB.
  pose proof Hgeo as [[HN1 HN2] [_ HB2]]. unfold MAX_DEVICES, INT_MAX in *.
  pose proof (Z.mod_pos_bound s N ltac:(lia)) as Hp.
  assert (m ∈ seqZ 0 N) as Hin by (apply elem_of_seqZ; lia).
  unfold rebuild_stripe. cbv zeta.
  rewrite (u64_small N) by lia.
  rewrite umod64_pos by lia. cbn [fmap option_fmap option_map defined].
  rewrite bind_ret_l, s32_small by (unfold INT_MIN, INT_MAX; lia).
  unfold vla. destruct (Z.ltb_spec 0 B) as [_|]; [|lia].
  destruct (t =? _); rewrite bind_ret_l.
  - erewrite bind_eq; cycle 1.
    { apply (xor_peers_refuses cfg ds _ _ _ _ m); [done | | done].
      by apply Z.eqb_neq. }
    done.
  - destruct (read_or_zero_ret cfg ds (s mod N) (u64 (s * u64 B)))
      as (r0 & Hr0 & _).
    erewrite bind_eq by exact Hr0.
    destruct r0 as [b0|]; [|done].
    erewrite bind_eq; cycle 1.
    { apply (xor_peers_refuses cfg ds _ _ _ _ m); [done | | done].
      apply orb_false_iff. rewrite !Z.eqb_neq. lia. }
    done.
Qed.

End RebuildRefusal.

(** X12. On a device of two stripes or more, the start-up rebuild returns
    -1 whenever a slot other than its target is missing. *)
Theorem rebuild_needs_the_other_slots (cfg : config) (ds : disks) (m : Z) :
  let N := num_devices cfg in
  let B := block_size cfg in
  wf_config cfg ->
  0 <= m < N -> m <> rebuild_dev cfg -> missing cfg m = true ->
  2 * ((N - 1) * B) <= raid_device_size cfg ->
  exists ds', do_raid5_rebuild cfg ds = (Ret (-1), ds').
Proof.
  intros N B Hwf Hm Hmt Hmiss Hsize. subst N B.
  pose proof (wf_B cfg Hwf) as HB. pose proof (wf_geo cfg Hwf) as Hgeo.
  pose proof Hwf as [[[HN1 HN2] [_ HB2]] Hsp]. unfold MAX_DEVICES, INT_MAX in *.
  assert (0 < (num_devices cfg - 1) * block_size cfg) as Hspan by nia.
  unfold do_raid5_rebuild.
  rewrite int_mul_small by (unfold INT_MIN, INT_MAX; nia).
  cbn [defined]. rewrite bind_ret_l.
  rewrite u64_small by lia. rewrite udiv64_pos by lia.
  cbn [defined]. rewrite bind_ret_l.
  assert (2 <= raid_device_size cfg / ((num_devices cfg - 1) * block_size cfg))
    as HK by (apply Z.div_le_lower_bound; lia).
  destruct (Z.to_nat _) as [|[|n]] eqn:Hn; [lia | lia |].
  cbn [rebuild_loop].
  destruct (decide (m = 0)) as [->|Hm0].
  - destruct (rebuild_stripe_ret cfg Hgeo 0 ds) as (ok & ds1 & Hfirst).
    erewrite bind_eq by exact Hfirst.
    destruct ok; [|by eexists].
    erewrite bind_eq; cycle 1.
    { apply (rebuild_stripe_refuses cfg Hgeo _ _ 0); try done.
      rewrite Z.mod_small; lia. }
    by eexists.
  - erewrite bind_eq; cycle 1.
    { apply (rebuild_stripe_refuses cfg Hgeo _ _ m); try done. }
    by eexists.
Qed.

Lemma rebuild_needs_the_other_slots_witness :
  exists ds',
    do_raid5_rebuild (Config 3 4 16 1 [true; false; false]) Samples.written =
      (Ret (-1), ds').
Proof.
  apply (rebuild_needs_the_other_slots (Config 3 4 16 1 [true; false; false])
           Samples.written 0).
  - unfold wf_config, valid_geometry, MAX_DEVICES, INT_MAX; cbn; lia.
  - cbn; lia.
  - cbn; lia.
  - reflexivity.
  - cbn; lia.
Defined.

(** * Start-up *)

Section StartupFacts.

Variable fs : string -> option (list byte).

(** The device arguments, from the third argument on. *)
Lemma argp_parse_devices devs : forall n a,
  Z.of_nat (length (Startup.arg_devices a)) <= MAX_DEVICES ->
  Startup.argp_parse (S (S n)) devs a =
    if Z.of_nat (length (Startup.arg_devices a) + length devs) >? MAX_DEVICES
    then inr Startup.EXIT_FAILURE
    else if (S (S n) + length devs <? 3)%nat then inr Startup.EX_USAGE
    else inl (Startup.Arguments (Startup.arg_block_size a)
                (Startup.arg_raid_device a) (Startup.arg_devices a ++ devs)).
Proof.
  unfold MAX_DEVICES.
  induction devs as [|d devs IH]; intros n a Ha; cbn [Startup.argp_parse].
  - cbn [Startup.parse_opt length]. rewrite !Nat.add_0_r, app_nil_r.
    destruct (Z.gtb_spec (Z.of_nat (length (Startup.arg_devices a))) 16);
      [lia|].
    by destruct a.
  - cbn [Startup.parse_opt]. unfold MAX_DEVICES. rewrite Z.geb_leb.
    destruct (Z.leb_spec 16 (Z.of_nat (length (Startup.arg_devices a)))).
    + destruct (Z.gtb_spec (Z.of_nat (length (Startup.arg_devices a) +
                                        length (d :: devs))) 16); [done|].
      cbn [length] in *. lia.
    + rewrite IH.
      2:{ cbn [Startup.arg_devices]. rewrite length_app. cbn [length]. lia. }
      cbn [Startup.arg_devices Startup.arg_block_size
           Startup.arg_raid_device].
      rewrite length_app, <- app_assoc. cbn [length app].
      replace (length (Startup.arg_devices a) + 1 + length devs)%nat
        with (length (Startup.arg_devices a) + S (length devs))%nat by lia.
      replace (S (S (S n)) + length devs)%nat
        with (S (S n) + S (length devs))%nat by lia.
      done.
Qed.

(** What [argp_parse] makes of the command line. *)
Lemma parse_command_line args :
  Startup.argp_parse 0 args (Startup.Arguments 0 "" []) =
    match args with
    | b :: r :: devs =>
        if Z.of_nat (length devs) >? MAX_DEVICES then inr Startup.EXIT_FAILURE
        else if (length devs <? 1)%nat then inr Startup.EX_USAGE
        else inl (Startup.Arguments (u32 (Startup.strtoul b)) r devs)
    | _ => inr Startup.EX_USAGE
    end.
Proof.
  destruct args as [|b [|r devs]]; [done..|].
  cbn [Startup.argp_parse Startup.parse_opt].
  rewrite argp_parse_devices by (cbn; unfold MAX_DEVICES; lia).
  cbn [Startup.arg_devices Startup.arg_block_size Startup.arg_raid_device
       length app Nat.add].
  destruct (_ >? _); [done|].
  by destruct devs.
Qed.

(** An invariant of the body of the device loop is one of the loop. *)
Lemma open_devices_invariant (P : Z -> Startup.opening -> Prop) bs :
  (forall i dev o o',
     P i o -> Startup.open_device fs bs i dev o = Startup.Opened o' ->
     P (i + 1) o') ->
  forall devs i o o',
    P i o -> Startup.open_devices fs bs i devs o = Startup.Opened o' ->
    P (i + Z.of_nat (length devs)) o'.
Proof using Type.
  intros Hstep. induction devs as [|dev devs IH]; intros i o o' HP Hrun.
  - cbn in *. injection Hrun as <-. by rewrite Z.add_0_r.
  - cbn [Startup.open_devices] in Hrun.
    destruct (Startup.open_device fs bs i dev o) as [| |o1] eqn:Hone;
      try done.
    replace (i + Z.of_nat (length (dev :: devs)))
      with (i + 1 + Z.of_nat (length devs)) by (cbn [length]; lia).
    eapply IH; [|exact Hrun]. by eapply Hstep.
Qed.

(** What a pass through the body of the loop leaves. *)
Lemma open_device_opened bs i dev o o' :
  Startup.open_device fs bs i dev o = Startup.Opened o' ->
  (dev = "MISSING"%string /\
   o' = Startup.Opening (Startup.o_missing o ++ [true])
          (Startup.o_disks o ++ [[]]) (Startup.o_rebuild_dev o)
          (Startup.o_min_blocks o)) \/
  (dev <> "MISSING"%string /\
   (is_plus dev = true -> Startup.o_rebuild_dev o = -1) /\
   exists c,
     (exists path, fs path = Some c) /\ u64 bs <> 0 /\
     let blocks := Z.of_nat (length c) / u64 bs in
     o' = Startup.Opening (Startup.o_missing o ++ [false])
            (Startup.o_disks o ++ [c])
            (if is_plus dev then i else Startup.o_rebuild_dev o)
            (if (Startup.o_min_blocks o =? 0) ||
                (blocks <? Startup.o_min_blocks o)
             then blocks else Startup.o_min_blocks o)).
Proof using Type.
  unfold Startup.open_device. fold (is_plus dev).
  destruct (String.eqb_spec dev "MISSING") as [->|Hne].
  { intros [= <-]. by left. }
  intros Hrun. right. split; [done|].
  destruct (is_plus dev) eqn:Hplus; cbn [andb] in Hrun.
  - destruct (Z.eqb_spec (Startup.o_rebuild_dev o) (-1)) as [Hrd|];
      cbn [negb] in Hrun; [|done].
    split; [done|].
    destruct (fs _) as [c|] eqn:Hfs; [|done]. exists c.
    split; [by eexists|].
    unfold udiv64 in Hrun.
    destruct (Z.eqb_spec (u64 bs) 0); [done|]. split; [done|].
    by injection Hrun as <-.
  - split; [done|].
    destruct (fs _) as [c|] eqn:Hfs; [|done]. exists c.
    split; [by eexists|].
    unfold udiv64 in Hrun.
    destruct (Z.eqb_spec (u64 bs) 0); [done|]. split; [done|].
    by injection Hrun as <-.
Qed.

Lemma open_device_shape bs i dev o o' :
  opening_shape i o ->
  Startup.open_device fs bs i dev o = Startup.Opened o' ->
  opening_shape (i + 1) o'.
Proof using Type.
  intros (Hi & Hlen & Hrd) Hrun.
  apply open_device_opened in Hrun as [[_ ->]|(_ & Hplus & c & _ & _ & ->)];
    cbv zeta; unfold opening_shape;
    cbn [Startup.o_missing Startup.o_disks Startup.o_rebuild_dev].
  - rewrite !length_app. cbn [length]. split; [lia|]. split; [lia|].
    destruct Hrd as [?|[Hr Hm]]; [by left|]. right. split; [lia|].
    rewrite lookup_app_l; [done|]. lia.
  - rewrite !length_app. cbn [length]. split; [lia|]. split; [lia|].
    destruct (is_plus dev).
    + right. split; [lia|].
      rewrite lookup_app_r by lia.
      replace (Z.to_nat i - length (Startup.o_missing o))%nat with 0%nat by lia.
      done.
    + destruct Hrd as [?|[Hr Hm]]; [by left|]. right. split; [lia|].
      rewrite lookup_app_l; [done|]. lia.
Qed.

Lemma open_devices_shape bs devs o :
  Startup.open_devices fs bs 0 devs (Startup.Opening [] [] (-1) 0) =
    Startup.Opened o ->
  opening_shape (Z.of_nat (length devs)) o.
Proof using Type.
  intros Hrun.
  apply (open_devices_invariant opening_shape bs (open_device_shape bs)
           devs 0 _ o) in Hrun; [done|].
  split; [done|]. split; [done|]. by left.
Qed.

(** How [main] comes to enter service. *)
Lemma main_serving args cfg ds :
  Startup.main fs args = Startup.Serving cfg ds ->
  exists b r devs o,
    args = b :: r :: devs /\
    3 <= Z.of_nat (length devs) <= MAX_DEVICES /\
    Startup.open_devices fs (s32 (u32 (Startup.strtoul b))) 0 devs
      (Startup.Opening [] [] (-1) 0) = Startup.Opened o /\
    Startup.o_min_blocks o <> 0 /\
    cfg = Config (Z.of_nat (length devs)) (s32 (u32 (Startup.strtoul b)))
            (u64 (u64 ((Z.of_nat (length devs) - 1) * Startup.o_min_blocks o) *
                  u64 (s32 (u32 (Startup.strtoul b)))))
            (Startup.o_rebuild_dev o) (Startup.o_missing o) /\
    (Startup.o_rebuild_dev o = -1 /\ ds = Startup.o_disks o \/
     Startup.o_rebuild_dev o <> -1 /\
     missing cfg (Startup.o_rebuild_dev o) = false /\
     do_raid5_rebuild cfg (Startup.o_disks o) = (Ret 0, ds)).
Proof using Type.
  unfold Startup.main. rewrite parse_command_line.
  destruct args as [|b [|r devs]]; [done..|].
  destruct (Z.gtb_spec (Z.of_nat (length devs)) MAX_DEVICES); [done|].
  destruct (length devs <? 1)%nat; [done|].
  cbn [Startup.arg_block_size Startup.arg_devices].
  destruct (Z.ltb_spec (Z.of_nat (length devs)) 3); [done|].
  destruct (Startup.open_devices _ _ _ _ _) as [| |o] eqn:Hopen; [done..|].
  destruct (Z.eqb_spec (Startup.o_min_blocks o) 0); [done|].
  cbv zeta.
  set (c := Config _ _ _ _ _).
  destruct (Z.eqb_spec (Startup.o_rebuild_dev o) (-1)) as [Hrd|Hrd].
  { intros [= <- <-]. exists b, r, devs, o.
    split; [done|]. split; [lia|]. split; [done|]. split; [done|].
    split; [done|]. by left. }
  destruct (missing c (Startup.o_rebuild_dev o)) eqn:Hm; [done|].
  destruct (do_raid5_rebuild c (Startup.o_disks o)) as [[st| |] ds1] eqn:Hreb;
    [|done..].
  destruct (Z.eqb_spec st 0) as [->|]; [|done].
  intros [= <- <-]. exists b, r, devs, o.
  split; [done|]. split; [lia|]. split; [done|]. split; [done|].
  split; [done|]. right. done.
Qed.

Lemma s32_range x : INT_MIN <= s32 x <= INT_MAX.
Proof using Type.
  unfold s32, INT_MIN, INT_MAX.
  pose proof (Z.mod_pos_bound (x + 2 ^ 31) (2 ^ 32) ltac:(lia)). lia.
Qed.

Section Sizes.

Variable bs : Z.
Hypothesis Hbs : INT_MIN <= bs <= INT_MAX.
Hypothesis Hmedia : forall path c, fs path = Some c ->
  Z.of_nat (length c) < 2 ^ 63.

(** A medium of at least one block: the block size is positive. *)
Lemma one_block_positive c :
  (exists path, fs path = Some c) -> u64 bs <> 0 ->
  Z.of_nat (length c) / u64 bs <> 0 -> 0 < bs.
Proof using Hbs Hmedia.
  intros [path Hfs] Hnz Hblocks. unfold INT_MIN, INT_MAX in *.
  pose proof (Hmedia _ _ Hfs) as Hc.
  destruct (Z.lt_trichotomy bs 0) as [Hneg|[->|?]]; [|done|done].
  exfalso. apply Hblocks. apply Z.div_small.
  unfold u64. replace bs with (bs + 2 ^ 64 - 1 * 2 ^ 64) by lia.
  rewrite Zminus_mod, Z_mod_mult, Z.sub_0_r, Z.mod_mod by lia.
  rewrite Z.mod_small by lia. lia.
Qed.

Lemma open_device_positive (i : Z) dev o o' :
  opening_positive bs o ->
  Startup.open_device fs bs i dev o = Startup.Opened o' ->
  opening_positive bs o'.
Proof using Hbs Hmedia.
  intros [Hmin Hpos] Hrun.
  apply open_device_opened in Hrun as [[_ ->]|(_ & _ & c & Hfs & Hnz & ->)];
    cbv zeta; unfold opening_positive; cbn [Startup.o_min_blocks]; [done|].
  assert (0 <= Z.of_nat (length c) / u64 bs) as Hb.
  { apply Z.div_pos; [lia|]. unfold u64.
    pose proof (Z.mod_pos_bound bs (2 ^ 64) ltac:(lia)).
    unfold u64 in Hnz. lia. }
  destruct (_ || _).
  - split; [done|]. intros Hne. by eapply one_block_positive.
  - done.
Qed.

Lemma open_devices_positive devs o :
  Startup.open_devices fs bs 0 devs (Startup.Opening [] [] (-1) 0) =
    Startup.Opened o ->
  opening_positive bs o.
Proof using Hbs Hmedia.
  intros Hrun.
  apply (open_devices_invariant (fun _ => opening_positive bs) bs
           open_device_positive devs 0 _ o) in Hrun; [done|].
  split; [done|]. cbn. done.
Qed.

End Sizes.

End StartupFacts.

(** X13. Over media shorter than 2^63 bytes, [main] enters service only
    with a valid geometry (3 to 16 slots, a positive block size), with one
    entry per slot in the missing table and in the media, and with a
    rebuild target that is either unset or a present slot. *)
Theorem main_serves_a_valid_set (fs : string -> option (list byte))
    (args : list string) (cfg : config) (ds : disks) :
  (forall path c, fs path = Some c -> Z.of_nat (length c) < 2 ^ 63) ->
  Startup.main fs args = Startup.Serving cfg ds ->
  valid_geometry cfg /\
  Z.of_nat (length (dev_missing cfg)) = num_devices cfg /\
  Z.of_nat (length ds) = num_devices cfg /\
  (rebuild_dev cfg = -1 \/
   0 <= rebuild_dev cfg < num_devices cfg /\
   missing cfg (rebuild_dev cfg) = false).
Proof.
  intros Hmedia (b & r & devs & o & -> & Hn & Hopen & Hmin & -> & Hserve)
    %main_serving.
  pose proof (s32_range (u32 (Startup.strtoul b))) as Hbs.
  destruct (open_devices_shape fs _ devs o Hopen) as (Hlen & Hdisks & Hrd).
  destruct (open_devices_positive fs _ Hbs Hmedia devs o Hopen) as [_ Hpos].
  cbn [num_devices block_size dev_missing rebuild_dev] in *.
  split; [|split; [|split]].
  - split; [done|]. cbn [num_devices block_size]. split; [by apply Hpos|].
    apply Hbs.
  - done.
  - destruct Hserve as [[_ ->]|(Hne & _ & Hreb)]; [lia|].
    match type of Hreb with
    | do_raid5_rebuild ?c _ = _ =>
        assert (0 <= rebuild_dev c) as Ht by (cbn [rebuild_dev]; lia);
        pose proof (writes_only_rebuild c Ht (Startup.o_disks o)) as (Hl & _)
    end.
    rewrite Hreb in Hl. cbn in Hl. lia.
  - destruct Hrd as [?|[Hr Hm]]; [by left|]. right. split; [lia|].
    unfold missing. cbn [dev_missing]. by rewrite Hm.
Qed.

Lemma main_serves_a_valid_set_witness :
  valid_geometry (Config 3 4 8 (-1) [true; false; false]) /\
  Z.of_nat (length (dev_missing (Config 3 4 8 (-1) [true; false; false]))) =
    num_devices (Config 3 4 8 (-1) [true; false; false]) /\
  Z.of_nat (length Samples.survivors) =
    num_devices (Config 3 4 8 (-1) [true; false; false]) /\
  (rebuild_dev (Config 3 4 8 (-1) [true; false; false]) = -1 \/
   0 <= rebuild_dev (Config 3 4 8 (-1) [true; false; false]) <
     num_devices (Config 3 4 8 (-1) [true; false; false]) /\
   missing (Config 3 4 8 (-1) [true; false; false])
     (rebuild_dev (Config 3 4 8 (-1) [true; false; false])) = false).
Proof.
  apply (main_serves_a_valid_set Samples.files
           ["4"; "/dev/nbd0"; "MISSING"; "d1"; "d2"]%string).
  - intros path c. unfold Samples.files.
    destruct (String.eqb path "d1"); [intros [= <-]; cbn; lia|].
    destruct (String.eqb path "d2"); [intros [= <-]; cbn; lia|]. done.
  - vm_compute. reflexivity.
Defined.

(** X14. [main] exits with the usage status when it is given fewer than
    three arguments, and with [EXIT_FAILURE] when it is given one or two
    device arguments or more than 16, whatever the arguments are. *)
Theorem main_checks_the_device_count (fs : string -> option (list byte))
    (args : list string) :
  (length args < 5 \/ 18 < length args)%nat ->
  Startup.main fs args =
    Startup.Exited (if (length args <? 3)%nat then Startup.EX_USAGE
                    else Startup.EXIT_FAILURE).
Proof.
  intros Hcount. unfold Startup.main. rewrite parse_command_line.
  destruct args as [|b [|r devs]]; [done..|].
  cbn [length] in *. unfold MAX_DEVICES.
  destruct (Z.gtb_spec (Z.of_nat (length devs)) 16).
  { by destruct devs. }
  destruct devs as [|d1 [|d2 [|d3 devs]]]; [done..|].
  cbn [length] in *. lia.
Qed.

Lemma main_checks_the_device_count_witness :
  Startup.main Samples.files ["4"; "/dev/nbd0"; "d1"; "d2"]%string =
    Startup.Exited Startup.EXIT_FAILURE.
Proof.
  apply (main_checks_the_device_count Samples.files
           ["4"; "/dev/nbd0"; "d1"; "d2"]%string).
  left. cbn. lia.
Defined.

Section Capacity.

Variable fs : string -> option (list byte).
Variable bs : Z.
Hypothesis Hbs : 0 < bs < 2 ^ 64.
Hypothesis Hmedia : forall path c, fs path = Some c ->
  bs <= Z.of_nat (length c).

Lemma open_device_capacity (i : Z) dev o o' :
  opening_capacity bs o ->
  Startup.open_device fs bs i dev o = Startup.Opened o' ->
  opening_capacity bs o'.
Proof using Hbs Hmedia.
  intros (Hlen & Hmin & Hnone & Hcap) Hrun.
  apply open_device_opened in Hrun
    as [[_ ->]|(_ & _ & c & [path Hfs] & Hnz & ->)];
    cbv zeta; unfold opening_capacity;
    cbn [Startup.o_missing Startup.o_disks Startup.o_min_blocks].
  - split; [by rewrite !length_app, Hlen|]. split; [done|]. split.
    + intros Hz j Hj.
      destruct (decide (j < length (Startup.o_missing o))%nat).
      * rewrite lookup_app_l in Hj by done. by eapply Hnone.
      * rewrite lookup_app_r in Hj by lia.
        destruct (j - length (Startup.o_missing o))%nat; done.
    + intros j c Hj Hc.
      destruct (decide (j < length (Startup.o_missing o))%nat).
      * rewrite lookup_app_l in Hj by done.
        rewrite lookup_app_l in Hc by lia. by eapply Hcap.
      * rewrite lookup_app_r in Hj by lia.
        destruct (j - length (Startup.o_missing o))%nat; done.
  - rewrite (u64_small bs) by lia.
    pose proof (Hmedia _ _ Hfs) as Hc.
    set (blocks := Z.of_nat (length c) / bs).
    assert (1 <= blocks) as Hb1.
    { unfold blocks. apply Z.div_le_lower_bound; lia. }
    assert (blocks * bs <= Z.of_nat (length c)) as Hbc.
    { unfold blocks. rewrite Z.mul_comm. apply Z.mul_div_le. lia. }
    set (mb := if _ || _ then blocks else Startup.o_min_blocks o).
    assert (1 <= mb <= blocks /\
            (Startup.o_min_blocks o <> 0 -> mb <= Startup.o_min_blocks o))
      as (Hmb1 & Hmb2).
    { unfold mb.
      destruct (Z.eqb_spec (Startup.o_min_blocks o) 0) as [->|Hne];
        cbn [orb]; [lia|].
      destruct (Z.ltb_spec blocks (Startup.o_min_blocks o)); lia. }
    split; [by rewrite !length_app, Hlen|]. split; [lia|]. split; [lia|].
    intros j c' Hj Hc'.
    destruct (decide (j < length (Startup.o_missing o))%nat).
    + rewrite lookup_app_l in Hj by done.
      rewrite lookup_app_l in Hc' by lia.
      assert (Startup.o_min_blocks o <> 0) as Hne.
      { intros Hz. by eapply Hnone. }
      pose proof (Hcap j c' Hj Hc'). specialize (Hmb2 Hne). nia.
    + rewrite lookup_app_r in Hc' by lia.
      rewrite lookup_app_r in Hj by lia.
      rewrite Hlen in Hc'.
      destruct (j - length (Startup.o_missing o))%nat; [|done].
      injection Hc' as <-. nia.
Qed.

Lemma open_devices_capacity devs o :
  Startup.open_devices fs bs 0 devs (Startup.Opening [] [] (-1) 0) =
    Startup.Opened o ->
  opening_capacity bs o.
Proof using Hbs Hmedia.
  intros Hrun.
  apply (open_devices_invariant fs (fun _ => opening_capacity bs) bs
           open_device_capacity devs 0 _ o) in Hrun; [done|].
  split; [done|]. split; [done|]. split; [|done].
  intros _ j. cbn [Startup.o_missing]. by rewrite lookup_nil.
Qed.

End Capacity.

Lemma u64_mul a b : u64 (u64 a * u64 b) = u64 (a * b).
Proof. unfold u64. by rewrite <- Z.mul_mod by lia. Qed.

(** X15. When every medium is shorter than 2^63 bytes and holds at least
    one block, the device that [main] serves has the size of K whole
    stripes (modulo 2^64), K being at least 1 and no more than the number of
    blocks of any present slot: every present slot holds the K stripes. *)
Theorem main_sizes_the_device (fs : string -> option (list byte))
    (args : list string) (cfg : config) (ds : disks) :
  let N := num_devices cfg in
  let B := block_size cfg in
  (forall path c, fs path = Some c -> B <= Z.of_nat (length c) < 2 ^ 63) ->
  Startup.main fs args = Startup.Serving cfg ds ->
  exists K,
    1 <= K /\
    raid_device_size cfg = u64 ((N - 1) * K * B) /\
    forall i s, 0 <= i < N -> missing cfg i = false -> 0 <= s < K ->
      in_range (disk ds i) (s * B) B = true.
Proof.
  intros N B Hmedia Hmain. subst N B.
  pose proof Hmain as (b & r & devs & o & -> & Hn & Hopen & Hmin & -> & Hserve)
    %main_serving.
  cbn [num_devices block_size raid_device_size dev_missing] in *.
  set (bs := s32 (u32 (Startup.strtoul b))) in *.
  pose proof (s32_range (u32 (Startup.strtoul b))) as Hbs. fold bs in Hbs.
  destruct (open_devices_shape fs _ devs o Hopen) as (Hlen & Hdisks & Hrd).
  destruct (open_devices_positive fs bs Hbs
              (fun p c H => proj2 (Hmedia p c H)) devs o Hopen) as [Hmin0 Hpos].
  specialize (Hpos Hmin). unfold INT_MAX in Hbs.
  destruct (open_devices_capacity fs bs ltac:(lia)
              (fun p c H => proj1 (Hmedia p c H)) devs o Hopen)
    as (_ & _ & _ & Hcap).
  exists (Startup.o_min_blocks o). split; [lia|]. split.
  { rewrite u64_mul. f_equal; ring. }
  intros i s Hi Hm Hs.
  assert (exists c, Startup.o_missing o !! Z.to_nat i = Some false /\
                    Startup.o_disks o !! Z.to_nat i = Some c) as (c & Hmi & Hci).
  { unfold missing in Hm. cbn [dev_missing] in Hm.
    destruct (Startup.o_missing o !! Z.to_nat i) as [[|]|] eqn:Hl.
    - done.
    - destruct (lookup_lt_is_Some_2 (Startup.o_disks o) (Z.to_nat i)) as [c Hc];
        [|by exists c].
      rewrite Hdisks. by eapply lookup_lt_Some.
    - apply lookup_ge_None in Hl. lia. }
  pose proof (Hcap _ _ Hmi Hci) as Hcapi.
  assert (Z.of_nat (length (disk ds i)) = Z.of_nat (length c)) as Hsame.
  { destruct Hserve as [[_ ->]|(Hne & _ & Hreb)].
    - unfold disk. by rewrite Hci.
    - match type of Hreb with
      | do_raid5_rebuild ?c _ = _ =>
          assert (0 <= rebuild_dev c) as Ht by (cbn [rebuild_dev]; lia);
          pose proof (writes_only_rebuild c Ht (Startup.o_disks o))
            as (_ & Hothers & Htarget)
      end.
      rewrite Hreb in Hothers, Htarget. cbn [snd rebuild_dev] in *.
      destruct (decide (i = Startup.o_rebuild_dev o)) as [->|Hit].
      + rewrite Htarget. unfold disk. by rewrite Hci.
      + rewrite Hothers by lia. unfold disk. by rewrite Hci. }
  apply in_range_spec. nia.
Qed.

Lemma main_sizes_the_device_witness :
  exists K,
    1 <= K /\
    raid_device_size (Config 3 4 8 (-1) [true; false; false]) =
      u64 ((3 - 1) * K * 4) /\
    forall i s, 0 <= i < 3 ->
      missing (Config 3 4 8 (-1) [true; false; false]) i = false ->
      0 <= s < K ->
      in_range (disk Samples.survivors i) (s * 4) 4 = true.
Proof.
  apply (main_sizes_the_device Samples.files
           ["4"; "/dev/nbd0"; "MISSING"; "d1"; "d2"]%string
           (Config 3 4 8 (-1) [true; false; false]) Samples.survivors).
  - intros path c. unfold Samples.files.
    destruct (String.eqb path "d1"); [intros [= <-]; cbn; lia|].
    destruct (String.eqb path "d2"); [intros [= <-]; cbn; lia|]. done.
  - vm_compute. reflexivity.
Defined.

Section Target.

Variable fs : string -> option (list byte).
Variable bs : Z.

(** Once a rebuild target is set, no later device argument names one. *)
Lemma open_devices_target_set devs : forall i o o',
  Startup.o_rebuild_dev o <> -1 ->
  Startup.open_devices fs bs i devs o = Startup.Opened o' ->
  Startup.o_rebuild_dev o' = Startup.o_rebuild_dev o /\
  forall d, d ∈ devs -> is_plus d = false.
Proof using Type.
  induction devs as [|dev devs IH]; intros i o o' Hset Hrun.
  - cbn in Hrun. injection Hrun as <-. split; [done|].
    intros d Hd. by apply elem_of_nil in Hd.
  - cbn [Startup.open_devices] in Hrun.
    destruct (Startup.open_device fs bs i dev o) as [| |o1] eqn:Hone;
      try done.
    apply open_device_opened in Hone
      as [[-> ->]|(_ & Hplus & c & _ & _ & ->)]; cbv zeta in *.
    + apply IH in Hrun as [Hrd Hnone]; [|exact Hset]. split; [done|].
      intros d [->|Hd]%elem_of_cons; [done | by apply Hnone].
    + destruct (is_plus dev) eqn:Hp; [by specialize (Hplus eq_refl)|].
      apply IH in Hrun as [Hrd Hnone]; [|exact Hset]. split; [done|].
      intros d [->|Hd]%elem_of_cons; [done | by apply Hnone].
Qed.

(** The rebuild target is the one device argument that starts with [+]. *)
Lemma open_devices_target devs : forall i o o',
  0 <= i -> Startup.o_rebuild_dev o = -1 ->
  Startup.open_devices fs bs i devs o = Startup.Opened o' ->
  (Startup.o_rebuild_dev o' = -1 /\ forall d, d ∈ devs -> is_plus d = false) \/
  exists k d,
    Startup.o_rebuild_dev o' = i + Z.of_nat k /\
    devs !! k = Some d /\ is_plus d = true /\
    forall k' d', devs !! k' = Some d' -> is_plus d' = true -> k' = k.
Proof using Type.
  induction devs as [|dev devs IH]; intros i o o' Hi Hunset Hrun.
  - cbn in Hrun. injection Hrun as <-. left. split; [done|].
    intros d Hd. by apply elem_of_nil in Hd.
  - cbn [Startup.open_devices] in Hrun.
    destruct (Startup.open_device fs bs i dev o) as [| |o1] eqn:Hone;
      try done.
    assert (is_plus dev = false ->
            Startup.o_rebuild_dev o1 = -1) as Hkeep.
    { intros Hp.
      apply open_device_opened in Hone
        as [[_ ->]|(_ & _ & c & _ & _ & ->)]; cbv zeta; [done|].
      by rewrite Hp. }
    destruct (is_plus dev) eqn:Hp.
    + right. exists 0%nat, dev.
      apply open_device_opened in Hone
        as [[-> _]|(_ & _ & c & _ & _ & ->)]; [done|].
      cbv zeta in Hrun. rewrite Hp in Hrun.
      apply open_devices_target_set in Hrun as [Hrd Hnone];
        [|cbn [Startup.o_rebuild_dev]; lia].
      cbn [Startup.o_rebuild_dev] in Hrd.
      split; [lia|]. split; [done|]. split; [done|].
      intros [|k'] d' Hk' Hp'; [done|]. cbn in Hk'.
      apply list_elem_of_lookup_2, Hnone in Hk'. congruence.
    + destruct (IH (i + 1) o1 o' ltac:(lia) (Hkeep eq_refl) Hrun)
        as [[Hrd Hnone]|(k & d & Hrd & Hk & Hpd & Huniq)].
      * left. split; [done|].
        intros d [->|Hd]%elem_of_cons; [done | by apply Hnone].
      * right. exists (S k), d. split; [lia|]. split; [done|]. split; [done|].
        intros [|k'] d' Hk' Hp'.
        -- cbn in Hk'. injection Hk' as <-. congruence.
        -- f_equal. by eapply Huniq.
Qed.

End Target.

(** X16. When [main] enters service, either no rebuild target is set and
    no device argument starts with [+], or the target is the position of
    the one device argument that starts with [+], and the media served are
    those a rebuild that returned 0 left. *)
Theorem main_rebuilds_the_plus_device (fs : string -> option (list byte))
    (b r : string) (devs : list string) (cfg : config) (ds : disks) :
  Startup.main fs (b :: r :: devs) = Startup.Serving cfg ds ->
  (rebuild_dev cfg = -1 /\ forall d, d ∈ devs -> is_plus d = false) \/
  exists k d,
    rebuild_dev cfg = Z.of_nat k /\
    devs !! k = Some d /\ is_plus d = true /\
    (forall k' d', devs !! k' = Some d' -> is_plus d' = true -> k' = k) /\
    exists ds0, do_raid5_rebuild cfg ds0 = (Ret 0, ds).
Proof.
  intros (b' & r' & devs' & o & Heq & Hn & Hopen & Hmin & -> & Hserve)
    %main_serving.
  injection Heq as <- <- <-.
  cbn [rebuild_dev].
  apply open_devices_target in Hopen
    as [[Hrd Hnone]|(k & d & Hrd & Hk & Hp & Huniq)]; [| |lia|done].
  - by left.
  - right. exists k, d. split; [lia|]. split; [done|]. split; [done|].
    split; [done|].
    destruct Hserve as [[Hunset _]|(_ & _ & Hreb)]; [lia|].
    by eexists.
Qed.

Lemma main_rebuilds_the_plus_device_witness :
  (rebuild_dev Samples.rebuilding_degraded = -1 /\
   forall d, d ∈ ["MISSING"; "+d1"; "d2"]%string -> is_plus d = false) \/
  exists k d,
    rebuild_dev Samples.rebuilding_degraded = Z.of_nat k /\
    ["MISSING"; "+d1"; "d2"]%string !! k = Some d /\ is_plus d = true /\
    (forall k' d', ["MISSING"; "+d1"; "d2"]%string !! k' = Some d' ->
                   is_plus d' = true -> k' = k) /\
    exists ds0,
      do_raid5_rebuild Samples.rebuilding_degraded ds0 =
        (Ret 0, [[]; [1; 2; 3; 4]; [1; 2; 3; 4]]).
Proof.
  apply (main_rebuilds_the_plus_device Samples.files "4" "/dev/nbd0"
           ["MISSING"; "+d1"; "d2"]%string
           Samples.rebuilding_degraded [[]; [1; 2; 3; 4]; [1; 2; 3; 4]]).
  vm_compute. reflexivity.
Defined.

(** * Requests off the block grid *)

Section OffGrid.

Variable cfg : config.
Local Abbreviation N := (num_devices cfg).
Local Abbreviation B := (block_size cfg).
Local Abbreviation span := ((N - 1) * B).
Hypothesis Hwf : wf_config cfg.

(** A request of one block takes the read-modify-write path, wherever it
    starts. *)
Lemma one_block_step fuel data offset ds :
  0 <= offset < 2 ^ 64 ->
  xmp_write cfg (S fuel) data B offset ds =
    (r <- write_rmw cfg data 0 B offset ;;
     match r with
     | Failed => ret (-1)
     | Advance b l o => xmp_write_loop cfg fuel data b l o
     end) ds.
Proof using Hwf.
  intros Hoff.
  pose proof (wf_B cfg Hwf) as HB.
  pose proof Hwf as [[[HN1 HN2] _] _]. unfold MAX_DEVICES in *.
  unfold xmp_write. cbn [xmp_write_loop].
  destruct (Z.gtb_spec B 0) as [_|]; [|lia].
  unfold bind at 1. rewrite write_step_unfold by (done || lia).
  assert ((offset mod span =? 0) && (B >=? span) = false) as ->; [|done].
  apply andb_false_iff. right. rewrite Z.geb_leb. apply Z.leb_gt. nia.
Qed.

Lemma write_rmw_block buf bpos len offset offset' ds :
  0 <= offset < 2 ^ 64 -> 0 <= offset' < 2 ^ 64 ->
  offset / B = offset' / B ->
  match write_rmw cfg buf bpos len offset ds,
        write_rmw cfg buf bpos len offset' ds with
  | (Ret Failed, ds1), (Ret Failed, ds2) => ds1 = ds2
  | (Ret (Advance b1 l1 _), ds1), (Ret (Advance b2 l2 _), ds2) =>
      b1 = b2 /\ l1 = l2 /\ ds1 = ds2
  | (Undef, ds1), (Undef, ds2) => ds1 = ds2
  | (OutOfFuel, ds1), (OutOfFuel, ds2) => ds1 = ds2
  | _, _ => False
  end.
Proof using Hwf.
  intros Hoff Hoff' Hsame.
  pose proof (wf_geo cfg Hwf) as Hgeo.
  unfold write_rmw. rewrite !locate_place by done. rewrite Hsame.
  cbn [defined]. rewrite !bind_ret_l.
  unfold bind, vla, ret, undef, read_or_zero, buf_block.
  repeat case_match; simplify_eq; done.
Qed.

End OffGrid.

(** X17. The engine serves a request from the start of the block that
    contains its offset: a read of whole blocks at any offset returns what
    the read at the block boundary below it returns, and a one-block write
    stores what the write at that boundary stores. *)
Theorem requests_start_at_the_block (cfg : config) (ds : disks)
    (buf data : list byte) (k offset : Z) (fuel fuel' : nat) :
  let B := block_size cfg in
  let aligned := offset / B * B in
  wf_config cfg -> at_most_one_missing cfg ->
  0 <= k -> k * B < 2 ^ 32 ->
  0 <= offset -> offset + k * B < 2 ^ 64 -> offset + B < 2 ^ 64 ->
  Z.of_nat (length buf) = k * B ->
  (Z.to_nat k <= fuel)%nat ->
  readable cfg ds (offset / B) k ->
  xmp_read cfg fuel buf (k * B) offset ds =
    xmp_read cfg fuel buf (k * B) aligned ds /\
  xmp_write cfg (S fuel') data B offset ds =
    xmp_write cfg (S fuel') data B aligned ds.
Proof.
  intros B aligned Hwf Hone Hk Hlen Hoff Hend Hend1 Hbuf Hfuel Hr.
  subst B aligned.
  pose proof (wf_B cfg Hwf) as HB. pose proof (wf_geo cfg Hwf) as Hgeo.
  assert (0 <= offset / block_size cfg) as HL by (apply Z.div_pos; lia).
  assert (0 <= offset / block_size cfg * block_size cfg <= offset) as Hal.
  { split; [apply Z.mul_nonneg_nonneg; lia|].
    rewrite Z.mul_comm. apply Z.mul_div_le. lia. }
  assert (offset / block_size cfg * block_size cfg / block_size cfg =
            offset / block_size cfg) as Hdiv by (apply Z.div_mul; lia).
  split.
  - rewrite !(xmp_read_ok cfg Hgeo Hone); try (done || lia).
    + by rewrite Hdiv.
    + by rewrite Hdiv.
  - rewrite !one_block_step by (done || lia).
    pose proof (write_rmw_block cfg Hwf data 0 (block_size cfg) offset
                  (offset / block_size cfg * block_size cfg) ds
                  ltac:(lia) ltac:(lia) (eq_sym Hdiv)) as Hsame.
    unfold bind.
    destruct (write_rmw cfg data 0 (block_size cfg) offset ds)
      as [[[|b1 l1 o1]| |] ds1] eqn:H1,
       (write_rmw cfg data 0 (block_size cfg)
          (offset / block_size cfg * block_size cfg) ds)
      as [[[|b2 l2 o2]| |] ds2] eqn:H2; try done; try (by subst).
    destruct Hsame as (-> & -> & ->).
    apply write_rmw_advance in H1 as [Hl _].
    rewrite Z.sub_diag in Hl. subst l2.
    by rewrite !write_loop_done.
Qed.

Lemma requests_start_at_the_block_witness :
  xmp_read Samples.cfg3 1 [0; 0; 0; 0] (1 * 4) 6 Samples.written =
    xmp_read Samples.cfg3 1 [0; 0; 0; 0] (1 * 4) (6 / 4 * 4) Samples.written /\
  xmp_write Samples.cfg3 1 [1; 2; 3; 4] 4 6 Samples.written =
    xmp_write Samples.cfg3 1 [1; 2; 3; 4] 4 (6 / 4 * 4) Samples.written.
Proof.
  apply (requests_start_at_the_block Samples.cfg3 Samples.written
           [0; 0; 0; 0] [1; 2; 3; 4] 1 6 1 0).
  - exact samples_wf.
  - apply all_present_at_most, samples_present.
  - lia.
  - cbn; lia.
  - lia.
  - cbn; lia.
  - cbn; lia.
  - reflexivity.
  - cbn; lia.
  - intros j i Hj. assert (j = 0) as -> by lia. revert i. each_slot; reflexivity.
Defined.

Lemma delivered_app cfg ds L k1 k2 :
  0 <= k1 -> 0 <= k2 ->
  delivered cfg ds L (k1 + k2) =
    delivered cfg ds L k1 ++ delivered cfg ds (L + k1) k2.
Proof.
  intros Hk1 Hk2. unfold delivered.
  by rewrite seqZ_app, fmap_app, join_app by done.
Qed.

(** X18. A read of k1 + k2 whole blocks returns the bytes of the read of
    the first k1 blocks followed by those of the read of the k2 blocks
    after them. *)
Theorem read_splits (cfg : config) (ds : disks) (buf buf1 buf2 : list byte)
    (L k1 k2 : Z) (fuel fuel1 fuel2 : nat) :
  let B := block_size cfg in
  valid_geometry cfg -> at_most_one_missing cfg ->
  0 <= L -> 0 <= k1 -> 0 <= k2 ->
  (L + k1 + k2) * B < 2 ^ 64 -> (k1 + k2) * B < 2 ^ 32 ->
  Z.of_nat (length buf) = (k1 + k2) * B ->
  Z.of_nat (length buf1) = k1 * B -> Z.of_nat (length buf2) = k2 * B ->
  (Z.to_nat (k1 + k2) <= fuel)%nat ->
  (Z.to_nat k1 <= fuel1)%nat -> (Z.to_nat k2 <= fuel2)%nat ->
  readable cfg ds L (k1 + k2) ->
  exists r1 r2,
    xmp_read cfg fuel1 buf1 (k1 * B) (L * B) ds = (Ret (0, r1), ds) /\
    xmp_read cfg fuel2 buf2 (k2 * B) ((L + k1) * B) ds = (Ret (0, r2), ds) /\
    xmp_read cfg fuel buf ((k1 + k2) * B) (L * B) ds = (Ret (0, r1 ++ r2), ds).
Proof.
  intros B Hgeo Hone HL Hk1 Hk2 Hend Hlen Hbuf Hbuf1 Hbuf2 Hfuel Hfuel1 Hfuel2
    Hr. subst B.
  pose proof (geo_B cfg Hgeo) as HB.
  assert (0 <= L * block_size cfg) by (apply Z.mul_nonneg_nonneg; lia).
  assert (0 <= k1 * block_size cfg) by (apply Z.mul_nonneg_nonneg; lia).
  assert (0 <= k2 * block_size cfg) by (apply Z.mul_nonneg_nonneg; lia).
  exists (delivered cfg ds L k1), (delivered cfg ds (L + k1) k2).
  pose proof (xmp_read_ok cfg Hgeo Hone ds) as Hread.
  split; [|split].
  - rewrite Hread; rewrite ?Z.div_mul by lia; try (done || lia || nia).
    intros j i Hj Hi Hm. apply Hr; [lia | done..].
  - rewrite Hread; rewrite ?Z.div_mul by lia; try (done || lia || nia).
    intros j i Hj Hi Hm. rewrite <- Z.add_assoc. apply Hr; [lia | done..].
  - rewrite Hread; rewrite ?Z.div_mul by lia; try (done || lia || nia).
    by rewrite delivered_app.
Qed.

Lemma read_splits_witness :
  exists r1 r2,
    xmp_read Samples.cfg3 1 [0; 0; 0; 0] (1 * 4) (0 * 4) Samples.written =
      (Ret (0, r1), Samples.written) /\
    xmp_read Samples.cfg3 2 [0; 0; 0; 0; 0; 0; 0; 0] (2 * 4) ((0 + 1) * 4)
      Samples.written = (Ret (0, r2), Samples.written) /\
    xmp_read Samples.cfg3 3 [0; 0; 0; 0; 0; 0; 0; 0; 0; 0; 0; 0] ((1 + 2) * 4)
      (0 * 4) Samples.written = (Ret (0, r1 ++ r2), Samples.written).
Proof.
  apply (read_splits Samples.cfg3 Samples.written
           [0; 0; 0; 0; 0; 0; 0; 0; 0; 0; 0; 0] [0; 0; 0; 0]
           [0; 0; 0; 0; 0; 0; 0; 0] 0 1 2 3 1 2).
  - unfold valid_geometry, MAX_DEVICES, INT_MAX; cbn; lia.
  - apply all_present_at_most, samples_present.
  - lia.
  - lia.
  - lia.
  - cbn; lia.
  - cbn; lia.
  - reflexivity.
  - reflexivity.
  - reflexivity.
  - cbn; lia.
  - cbn; lia.
  - cbn; lia.
  - intros j i Hj.
    assert (j = 0 \/ j = 1 \/ j = 2) as [-> | [-> | ->]] by lia;
      revert i; each_slot; reflexivity.
Defined.

(** * Requests that are not whole blocks *)

Section PartialRead.

Variable cfg : config.
Local Abbreviation N := (num_devices cfg).
Local Abbreviation B := (block_size cfg).
Hypothesis Hgeo : valid_geometry cfg.
Hypothesis Hone : at_most_one_missing cfg.
Variable ds : disks.

(** The first [n] iterations of the read loop. *)
Lemma read_loop_prefix (n : nat) : forall fuel buf bpos rest offset,
  (n <= fuel)%nat ->
  0 <= offset -> offset + Z.of_nat n * B < 2 ^ 64 ->
  0 <= rest -> Z.of_nat n * B + rest < 2 ^ 32 ->
  0 <= bpos -> bpos + Z.of_nat n * B <= Z.of_nat (length buf) ->
  readable cfg ds (offset / B) (Z.of_nat n) ->
  xmp_read_loop cfg fuel buf bpos (Z.of_nat n * B + rest) offset ds =
    xmp_read_loop cfg (fuel - n)
      (splice buf bpos (delivered cfg ds (offset / B) (Z.of_nat n)))
      (bpos + Z.of_nat n * B) rest (offset + Z.of_nat n * B) ds.
Proof using Hgeo Hone.
  pose proof geo_B cfg Hgeo as HB.
  induction n as [|n IH];
    intros fuel buf bpos rest offset Hfuel Hoff Hend Hrest Hlen Hbpos Hbuf Hr.
  - cbn [Z.of_nat]. rewrite Z.mul_0_l, !Z.add_0_r, Z.add_0_l, Nat.sub_0_r.
    unfold delivered. cbn. by rewrite splice_nil.
  - destruct fuel as [|fuel]; [lia|].
    cbn [xmp_read_loop].
    destruct (Z.gtb_spec (Z.of_nat (S n) * B + rest) 0) as [_|]; [|nia].
    assert (0 <= offset / B) as HL by (apply Z.div_pos; lia).
    rewrite locate_place by (done || nia). cbn [defined].
    rewrite bind_ret_l. unfold vla.
    destruct (Z.ltb_spec 0 B); [|lia]. rewrite bind_ret_l.
    destruct (read_place_ok cfg Hgeo Hone ds (offset / B) HL) as [Hrb Hblk].
    { intros j i ? ? ?. apply Hr; [lia | done..]. }
    erewrite bind_eq by exact Hrb. cbv beta iota.
    unfold buf_store.
    assert (in_range buf bpos B = true) as Hin by (apply in_range_spec; nia).
    rewrite Hin, bind_ret_l.
    replace (u32 (Z.of_nat (S n) * B + rest - B)) with (Z.of_nat n * B + rest)
      by (rewrite u32_small; nia).
    replace (u64 (offset + B)) with (offset + B) by (rewrite u64_small; nia).
    assert ((offset + B) / B = Z.succ (offset / B)) as HL'.
    { replace (offset + B) with (offset + 1 * B) by lia.
      rewrite Z.div_add by lia. lia. }
    assert (readable cfg ds (Z.succ (offset / B)) (Z.of_nat n)) as Hr'.
    { intros j i ? ? ?.
      replace (Z.succ (offset / B) + j) with (offset / B + (j + 1)) by lia.
      apply Hr; [lia | done..]. }
    assert (Z.of_nat (length (delivered_block cfg ds (place cfg (offset / B))))
            = B) as Hlb.
    { rewrite Hblk. lia. }
    rewrite IH; try (done || lia || nia); cycle 1.
    { rewrite length_splice; [nia|]. rewrite Hlb. done. }
    { by rewrite HL'. }
    rewrite HL'.
    replace (S fuel - S n)%nat with (fuel - n)%nat by lia.
    replace (bpos + B + Z.of_nat n * B) with (bpos + Z.of_nat (S n) * B) by lia.
    replace (offset + B + Z.of_nat n * B)
      with (offset + Z.of_nat (S n) * B) by lia.
    f_equal.
    replace (bpos + B)
      with (bpos + Z.of_nat (length (delivered_block cfg ds
                                       (place cfg (offset / B)))))
      by (by rewrite Hlb).
    rewrite splice_app.
    + f_equal. rewrite (delivered_cons cfg ds (offset / B)) by lia.
      by replace (Z.pred (Z.of_nat (S n))) with (Z.of_nat n) by lia.
    + rewrite (length_delivered cfg Hgeo Hone ds) by (done || lia).
      apply in_range_spec. rewrite Hblk. nia.
Qed.

End PartialRead.

(** X19. A read request whose length is not a multiple of the block size,
    into a buffer of that length, copies a whole block where less than a
    block is left of the buffer: once the whole blocks before it are
    served, the request runs past the end of the buffer, which is
    undefined. *)
Theorem partial_block_read_overruns (cfg : config) (ds : disks) (buf : list byte)
    (k rest offset : Z) (fuel : nat) :
  let B := block_size cfg in
  valid_geometry cfg -> at_most_one_missing cfg ->
  0 <= k -> 0 < rest < B -> k * B + rest < 2 ^ 32 ->
  0 <= offset -> offset + k * B + B < 2 ^ 64 ->
  Z.of_nat (length buf) = k * B + rest ->
  (Z.to_nat k < fuel)%nat ->
  readable cfg ds (offset / B) (k + 1) ->
  xmp_read cfg fuel buf (k * B + rest) offset ds = (Undef, ds).
Proof.
  intros B Hgeo Hone Hk Hrest Hlen Hoff Hend Hbuf Hfuel Hr. subst B.
  pose proof (geo_B cfg Hgeo) as HB.
  assert (0 <= k * block_size cfg) by (apply Z.mul_nonneg_nonneg; lia).
  assert (0 <= offset / block_size cfg) as HL by (apply Z.div_pos; lia).
  assert (readable cfg ds (offset / block_size cfg) (Z.of_nat (Z.to_nat k)))
    as Hrk.
  { rewrite Z2Nat.id by done. intros j i Hj Hi Hm. apply Hr; [lia | done..]. }
  unfold xmp_read.
  pose proof (read_loop_prefix cfg Hgeo Hone ds (Z.to_nat k) fuel buf 0 rest
                offset) as Hpre.
  rewrite Z2Nat.id in Hpre by done.
  rewrite Hpre; try (done || lia); clear Hpre;
    [|intros j i Hj Hi Hm; apply Hr; [lia | done..]].
  destruct (fuel - Z.to_nat k)%nat as [|fuel'] eqn:Hf; [lia|].
  rewrite Z.add_0_l.
  set (buf' := splice buf 0 _).
  assert (length buf' = length buf) as Hlen'.
  { unfold buf'. apply length_splice.
    pose proof (length_delivered cfg Hgeo Hone ds (offset / block_size cfg)
                  (Z.to_nat k) HL Hrk) as Hld.
    rewrite Z2Nat.id in Hld by done. rewrite Hld.
    apply in_range_spec. nia. }
  cbn [xmp_read_loop].
  destruct (Z.gtb_spec rest 0) as [_|]; [|lia].
  rewrite locate_place by (done || nia). cbn [defined].
  rewrite bind_ret_l. unfold vla.
  destruct (Z.ltb_spec 0 (block_size cfg)); [|lia]. rewrite bind_ret_l.
  assert ((offset + k * block_size cfg) / block_size cfg =
            offset / block_size cfg + k) as HLk.
  { rewrite Z.div_add by lia. done. }
  rewrite HLk.
  destruct (read_place_ok cfg Hgeo Hone ds (offset / block_size cfg + k))
    as [Hrb _]; [lia | |].
  { intros j i Hj Hi Hm. assert (j = 0) as -> by lia. rewrite Z.add_0_r.
    apply Hr; [lia | done..]. }
  erewrite bind_eq by exact Hrb. cbv beta iota.
  unfold buf_store.
  assert (in_range buf' (k * block_size cfg) (block_size cfg) = false) as ->.
  { apply not_true_is_false. intros (_ & _ & Hin)%in_range_spec. lia. }
  done.
Qed.

Lemma partial_block_read_overruns_witness :
  xmp_read Samples.cfg3 2 [0; 0; 0; 0; 0; 0] (1 * 4 + 2) 0 Samples.written =
    (Undef, Samples.written).
Proof.
  apply (partial_block_read_overruns Samples.cfg3 Samples.written
           [0; 0; 0; 0; 0; 0] 1 2 0 2).
  - unfold valid_geometry, MAX_DEVICES, INT_MAX; cbn; lia.
  - apply all_present_at_most, samples_present.
  - lia.
  - cbn; lia.
  - cbn; lia.
  - lia.
  - cbn; lia.
  - reflexivity.
  - cbn; lia.
  - intros j i Hj.
    assert (j = 0 \/ j = 1) as [-> | ->] by lia;
      revert i; each_slot; reflexivity.
Defined.

(** X20. A write request whose length is not a multiple of the block
    size, from a buffer of that length, takes a whole block where less than
    a block is left of the buffer: once the whole blocks before it are
    stored, the request reads past the end of the buffer, which is
    undefined. *)
Theorem partial_block_write_overruns (cfg : config) (ds : disks)
    (buf : list byte) (L0 k rest : Z) (fuel : nat) :
  let B := block_size cfg in
  wf_config cfg -> all_present cfg ->
  0 <= k -> 0 < rest < B -> k * B + rest < 2 ^ 32 ->
  0 <= L0 -> (L0 + k + 1) * B < 2 ^ 64 ->
  Z.of_nat (length buf) = k * B + rest ->
  (Z.to_nat k < fuel)%nat ->
  holds_blocks cfg ds L0 (k + 1) ->
  exists ds',
    xmp_write cfg fuel buf (k * B + rest) (L0 * B) ds = (Undef, ds') /\
    write_effect cfg ds buf 0 L0 k ds'.
Proof.
  intros B Hwf Hpresent Hk Hrest Hlen HL0 Hend Hbuf Hfuel Hholds. subst B.
  pose proof (wf_B cfg Hwf) as HB. pose proof (wf_geo cfg Hwf) as Hgeo.
  pose proof Hwf as [[[HN1 HN2] _] Hsp]. unfold MAX_DEVICES, INT_MAX in *.
  assert (0 <= k * block_size cfg) by (apply Z.mul_nonneg_nonneg; lia).
  assert (0 <= (L0 + k) * block_size cfg) by (apply Z.mul_nonneg_nonneg; lia).
  destruct (write_loop_prefix cfg Hwf fuel buf 0 L0 k rest ds)
    as (fuel' & ds' & Hf' & Hrun & Heff); try (done || lia).
  { intros L HL. apply Hholds. lia. }
  exists ds'. split; [|done].
  unfold xmp_write. rewrite Hrun. clear Hrun.
  destruct fuel' as [|fuel']; [lia|].
  rewrite Z.add_0_l. cbn [xmp_write_loop].
  destruct (Z.gtb_spec rest 0) as [_|]; [|lia].
  unfold bind at 1. rewrite write_step_unfold by (done || lia).
  assert (((L0 + k) * block_size cfg mod
             ((num_devices cfg - 1) * block_size cfg) =? 0) &&
          (rest >=? (num_devices cfg - 1) * block_size cfg) = false) as ->.
  { apply andb_false_iff. right. rewrite Z.geb_leb. apply Z.leb_gt. nia. }
  assert (write_rmw cfg buf (k * block_size cfg) rest
            ((L0 + k) * block_size cfg) ds' = (Undef, ds')) as ->; [|done].
  destruct (Hholds (L0 + k) ltac:(lia)) as [Hs Hin].
  destruct Heff as ([_ Hsame] & _).
  destruct (place_bounds cfg Hgeo (L0 + k) ltac:(lia))
    as (_ & _ & Hp & Hd & _ & Hphys).
  unfold write_rmw. rewrite locate_place by (done || lia).
  rewrite Z.div_mul by lia. cbn [defined]. rewrite bind_ret_l.
  rewrite Hphys.
  unfold vla. destruct (Z.ltb_spec 0 (block_size cfg)) as [_|]; [|lia].
  rewrite bind_ret_l.
  unfold read_or_zero. rewrite !Hpresent by done. cbn [negb].
  erewrite bind_eq; cycle 1.
  { apply dev_pread_ok; [done | by apply Hpresent |].
    rewrite Hsame by lia. by apply Hin. }
  cbv beta iota.
  erewrite bind_eq; cycle 1.
  { apply dev_pread_ok; [done | by apply Hpresent |].
    rewrite Hsame by lia. by apply Hin. }
  cbv beta iota.
  unfold buf_block.
  assert (in_range buf (k * block_size cfg) (block_size cfg) = false) as ->.
  { apply not_true_is_false. intros (_ & _ & Hr)%in_range_spec. lia. }
  done.
Qed.

Lemma partial_block_write_overruns_witness :
  exists ds',
    xmp_write Samples.cfg3 2 [1; 2; 3; 4; 5; 6] (1 * 4 + 2) (0 * 4)
      Samples.written = (Undef, ds') /\
    write_effect Samples.cfg3 Samples.written [1; 2; 3; 4; 5; 6] 0 0 1 ds'.
Proof.
  apply (partial_block_write_overruns Samples.cfg3 Samples.written
           [1; 2; 3; 4; 5; 6] 0 1 2 2).
  - exact samples_wf.
  - exact samples_present.
  - lia.
  - cbn; lia.
  - cbn; lia.
  - lia.
  - cbn; lia.
  - reflexivity.
  - cbn; lia.
  - intros L HL.
    assert (L = 0 \/ L = 1) as [-> | ->] by lia;
      (split; [by vm_compute | each_slot; reflexivity]).
Defined.

(** * Where start-up is undefined *)

Section Crashes.

Variable fs : string -> option (list byte).

(** The device loop is undefined only where it divides by a zero block
    size. *)
Lemma open_devices_crash bs devs : forall i o,
  Startup.open_devices fs bs i devs o = Startup.OpenCrash -> u64 bs = 0.
Proof using Type.
  induction devs as [|dev devs IH]; intros i o Hrun; [done|].
  cbn [Startup.open_devices] in Hrun.
  destruct (Startup.open_device fs bs i dev o) as [| |o1] eqn:Hone;
    [done | | by eapply IH].
  unfold Startup.open_device, udiv64 in Hone.
  repeat case_match; simplify_eq; by apply Z.eqb_eq.
Qed.

(** How [main] comes to be undefined. *)
Lemma main_crashed args :
  Startup.main fs args = Startup.Crashed ->
  exists b r devs,
    args = b :: r :: devs /\
    3 <= Z.of_nat (length devs) <= MAX_DEVICES /\
    (Startup.open_devices fs (s32 (u32 (Startup.strtoul b))) 0 devs
       (Startup.Opening [] [] (-1) 0) = Startup.OpenCrash \/
     exists o,
       Startup.open_devices fs (s32 (u32 (Startup.strtoul b))) 0 devs
         (Startup.Opening [] [] (-1) 0) = Startup.Opened o /\
       Startup.o_min_blocks o <> 0 /\
       Startup.o_rebuild_dev o <> -1 /\
       forall r ds',
         do_raid5_rebuild
           (Config (Z.of_nat (length devs)) (s32 (u32 (Startup.strtoul b)))
              (u64 (u64 ((Z.of_nat (length devs) - 1) *
                         Startup.o_min_blocks o) *
                    u64 (s32 (u32 (Startup.strtoul b)))))
              (Startup.o_rebuild_dev o) (Startup.o_missing o))
           (Startup.o_disks o) <> (Ret r, ds')).
Proof using Type.
  unfold Startup.main. rewrite parse_command_line.
  destruct args as [|b [|r devs]]; [done..|].
  destruct (Z.gtb_spec (Z.of_nat (length devs)) MAX_DEVICES); [done|].
  destruct (length devs <? 1)%nat; [done|].
  cbn [Startup.arg_block_size Startup.arg_devices].
  destruct (Z.ltb_spec (Z.of_nat (length devs)) 3); [done|].
  destruct (Startup.open_devices _ _ _ _ _) as [| |o] eqn:Hopen; [done| |].
  { intros _. exists b, r, devs. split; [done|]. split; [lia|]. by left. }
  destruct (Z.eqb_spec (Startup.o_min_blocks o) 0); [done|].
  cbv zeta.
  destruct (Z.eqb_spec (Startup.o_rebuild_dev o) (-1)) as [Hrd|Hrd]; [done|].
  destruct (missing _ (Startup.o_rebuild_dev o)); [done|].
  destruct (do_raid5_rebuild _ (Startup.o_disks o)) as [[st| |] ds1] eqn:Hreb.
  { by destruct (st =? 0). }
  all: intros _; exists b, r, devs; split; [done|]; split; [lia|]; right;
    exists o; split; [done|]; split; [done|]; split; [done|];
    intros r0 ds'; rewrite Hreb; done.
Qed.

End Crashes.

(** X21. Where no device argument starts with [+], so that no rebuild is
    run, start-up is undefined in one case only: the block size parsed
    from the first argument is zero, and [main] divides the size of a
    device by it. *)
Theorem main_without_rebuild_is_undefined_only
    (fs : string -> option (list byte)) (b r : string) (devs : list string) :
  (forall d, d ∈ devs -> is_plus d = false) ->
  Startup.main fs (b :: r :: devs) = Startup.Crashed ->
  s32 (u32 (Startup.strtoul b)) = 0.
Proof.
  intros Hplain (b' & r' & devs' & Heq & Hn & Hcase)%main_crashed.
  injection Heq as <- <- <-.
  pose proof (s32_range (u32 (Startup.strtoul b))) as Hbs.
  set (bs := s32 (u32 (Startup.strtoul b))) in *.
  unfold INT_MIN, INT_MAX in Hbs.
  destruct Hcase as [Hcrash|(o & Hopen & Hmin & Hrd & Hreb)].
  - apply open_devices_crash in Hcrash. unfold u64 in Hcrash.
    destruct (Z.lt_trichotomy bs 0) as [Hneg|[?|Hpos]]; [|done|].
    + replace bs with (bs + 2 ^ 64 - 1 * 2 ^ 64) in Hcrash by lia.
      rewrite Zminus_mod, Z_mod_mult, Z.sub_0_r, Z.mod_mod in Hcrash by lia.
      rewrite Z.mod_small in Hcrash by lia. lia.
    + rewrite Z.mod_small in Hcrash by lia. lia.
  - exfalso.
    apply open_devices_target in Hopen
      as [[Hunset _]|(k & d & _ & Hk & Hp & _)]; [done | |lia|done].
    apply list_elem_of_lookup_2, Hplain in Hk. congruence.
Qed.

Lemma main_without_rebuild_is_undefined_only_witness :
  s32 (u32 (Startup.strtoul "0")) = 0.
Proof.
  apply (main_without_rebuild_is_undefined_only Samples.files "0" "/dev/nbd0"
           ["d1"; "d2"; "d1"]%string).
  - intros d Hd. repeat (apply elem_of_cons in Hd as [->|Hd]; [reflexivity|]).
    by apply elem_of_nil in Hd.
  - vm_compute. reflexivity.
Defined.

(** * Requests of whole blocks terminate *)

Section Defined.

Variable cfg : config.
Local Abbreviation N := (num_devices cfg).
Local Abbreviation B := (block_size cfg).
Local Abbreviation span := ((N - 1) * B).







Hypothesis Hwf : wf_config cfg.







End Defined.





(** * A write beside a missing slot *)

Section BesideMissing.

Variable cfg : config.
Local Abbreviation N := (num_devices cfg).
Local Abbreviation B := (block_size cfg).
Hypothesis Hwf : wf_config cfg.

(** Replacing a data block by [nd] and the parity block by
    [parity ^ old ^ nd] leaves the reconstruction of a third block as it
    was. *)
Lemma reconstruction_kept (f : Z -> block) par d m nd :
  0 <= par < N -> 0 <= d < N -> 0 <= m < N ->
  d <> par -> d <> m -> m <> par ->
  (forall i, 0 <= i < N -> i <> m -> is_block cfg (f i)) ->
  is_block cfg nd ->
  let g := upd par (xor_block (xor_block (f par) (f d)) nd) (upd d nd f) in
  xor_all cfg (g par ::
               (g <$> filter (fun i => i <> par /\ i <> m) (seqZ 0 N))) =
  xor_all cfg (f par ::
               (f <$> filter (fun i => i <> par /\ i <> m) (seqZ 0 N))).
Proof.
  intros Hp Hd Hm Hdp Hdm Hmp Hf Hnd g.
  set (sl := filter (fun i => i <> par /\ i <> m) (seqZ 0 N)).
  assert (forall i, i ∈ sl -> 0 <= i < N /\ i <> par /\ i <> m) as Hsl.
  { intros i [[? ?] Hi%elem_of_seqZ]%list_elem_of_filter. lia. }
  assert (g <$> sl = upd d nd f <$> sl) as ->.
  { apply list_fmap_ext. intros n i Hi%list_elem_of_lookup_2%Hsl.
    unfold g, upd at 1. destruct (Z.eqb_spec i par); [lia | done]. }
  assert (g par = xor_block (xor_block (f par) (f d)) nd) as ->.
  { unfold g, upd at 1. by rewrite Z.eqb_refl. }
  rewrite !xor_all_cons.
  rewrite (xor_all_upd cfg f d nd sl); cycle 1.
  { apply NoDup_filter, NoDup_seqZ. }
  { apply list_elem_of_filter. split; [done|]. apply elem_of_seqZ. lia. }
  { done. }
  { intros i Hi%Hsl. apply Hf; lia. }
  assert (is_block cfg (f par)) as HP by (apply Hf; lia).
  assert (is_block cfg (f d)) as HD by (apply Hf; lia).
  assert (is_block cfg (xor_all cfg (f <$> sl))) as HX.
  { apply xor_all_block, Forall_fmap, Forall_forall.
    intros i Hi%Hsl. apply Hf; lia. }
  rewrite <- (xor_block_assoc (f par)).
  rewrite <- (xor_block_assoc (f par) (xor_block (f d) nd)).
  f_equal. apply (xor_cancel cfg); [by apply xor_is_block | done].
Qed.

End BesideMissing.

(** X24. A one-block write whose data and parity slots are present, with
    at most one slot missing elsewhere, returns 0; the block then reads
    back as the bytes written, and every other block reads as it did
    before: the block of the missing slot in the same stripe is still
    reconstructed to the same bytes. *)
Theorem write_beside_a_missing_slot (cfg : config) (ds : disks)
    (data buf : list byte) (L0 L' : Z) (fuel fuel' : nat) :
  let N := num_devices cfg in
  let B := block_size cfg in
  let p := place cfg L0 in
  wf_config cfg -> at_most_one_missing cfg ->
  0 <= L0 -> (L0 + 1) * B < 2 ^ 64 ->
  0 <= L' -> (L' + 1) * B < 2 ^ 64 ->
  Z.of_nat (length data) = B -> Z.of_nat (length buf) = B ->
  missing cfg (parity_disk p) = false ->
  missing cfg (data_disk p) = false ->
  (forall i, 0 <= i < N -> missing cfg i = false ->
     in_range (disk ds i) (stripe p * B) B = true /\
     in_range (disk ds i) (stripe (place cfg L') * B) B = true) ->
  exists ds' old,
    xmp_write cfg (S fuel) data B (L0 * B) ds = (Ret 0, ds') /\
    xmp_read cfg (S fuel') buf B (L' * B) ds = (Ret (0, old), ds) /\
    xmp_read cfg (S fuel') buf B (L' * B) ds' =
      (Ret (0, if decide (L' = L0) then data else old), ds').
Proof.
  intros N B p Hwf Hone HL0 Hend HL' Hend' Hdata Hbuf Hmp Hmd Hin.
  subst N B.
  pose proof (wf_B cfg Hwf) as HB. pose proof (wf_geo cfg Hwf) as Hgeo.
  pose proof Hwf as [[[HN1 HN2] [_ HB2]] _]. unfold MAX_DEVICES, INT_MAX in *.
  destruct (place_bounds cfg Hgeo L0 HL0) as (Hs & _ & Hp & Hd & Hne & _).
  destruct (place_parts cfg Hgeo L0 HL0) as (_ & _ & _ & Hpar & _).
  fold p in Hs, Hp, Hd, Hne, Hpar.
  assert (in_range data 0 (block_size cfg) = true) as Hdr
    by (apply in_range_spec; lia).
  assert (slice data 0 (block_size cfg) = data) as Hsl
    by (rewrite <- Hdata; apply slice_all).
  assert (is_block cfg data) as HD by (unfold is_block; lia).
  pose proof (proj1 (Hin _ Hp Hmp)) as Hrp.
  pose proof (proj1 (Hin _ Hd Hmd)) as Hrd.
  destruct (rmw_effect cfg Hwf data 0 (block_size cfg) L0 ds HL0)
    as (ds' & Hstep & Heff); try (done || lia).
  pose proof (write_rmw_run cfg Hwf data 0 (block_size cfg)
                (L0 * block_size cfg) ds) as Hrun.
  rewrite Z.div_mul in Hrun by lia. fold p in Hrun. cbv zeta in Hrun.
  rewrite Hmp, Hmd, Hsl in Hrun.
  pose proof Hstep as Hstep0.
  rewrite Hrun in Hstep by (done || nia). clear Hrun.
  injection Hstep as Hds0.
  assert (store_block
            (store_block ds (data_disk p) (stripe p * block_size cfg) data)
            (parity_disk p) (stripe p * block_size cfg)
            (xor_block
               (xor_block (block_at cfg ds (parity_disk p) (stripe p))
                  (block_at cfg ds (data_disk p) (stripe p))) data) = ds')
    as Hds' by exact Hds0.
  clear Hds0.
  assert (in_range
            (disk (store_block ds (data_disk p) (stripe p * block_size cfg)
                     data) (parity_disk p))
            (stripe p * block_size cfg) (block_size cfg) = true) as Hrp1.
  { rewrite in_range_store by (done || lia). done. }
  assert (is_block cfg
            (xor_block
               (xor_block (block_at cfg ds (parity_disk p) (stripe p))
                  (block_at cfg ds (data_disk p) (stripe p))) data)) as Hnp.
  { repeat apply xor_is_block; try done; by apply block_at_block. }
  assert (block_at cfg ds' (parity_disk p) (stripe p) =
            xor_block
              (xor_block (block_at cfg ds (parity_disk p) (stripe p))
                 (block_at cfg ds (data_disk p) (stripe p))) data) as HP'.
  { rewrite <- Hds'. apply block_store_same; done || lia. }
  assert (forall i, 0 <= i -> i <> parity_disk p ->
            block_at cfg ds' i (stripe p) =
              if i =? data_disk p then data
              else block_at cfg ds i (stripe p)) as HO'.
  { intros i Hi Hip. rewrite <- Hds'.
    rewrite block_store_other by (done || lia).
    destruct (Z.eqb_spec i (data_disk p)) as [->|Hid].
    - apply block_store_same; done || lia.
    - apply block_store_other; done || lia. }
  destruct Heff as ([_ Hsame] & Hlog & Hframe).
  exists ds', (delivered_block cfg ds (place cfg L')).
  split; [|split].
  - rewrite single_block_step by (done || lia).
    erewrite bind_eq by exact Hstep0.
    cbv beta iota. rewrite Z.sub_diag. apply write_loop_done.
  - apply read_one; try done. intros i Hi Hm. by apply Hin.
  - rewrite read_one; try done.
    2:{ intros i Hi Hm. rewrite Hsame by lia. by apply Hin. }
    do 2 f_equal.
    destruct (place_bounds cfg Hgeo L' HL') as (Hs' & _ & Hp' & Hd' & Hne' & _).
    destruct (place_parts cfg Hgeo L' HL') as (_ & _ & _ & Hpar' & _).
    unfold delivered_block.
    destruct (missing cfg (data_disk (place cfg L'))) eqn:Hm'.
    + (* the block is reconstructed *)
      destruct (decide (L' = L0)) as [->|HLL]; [fold p in Hm'; congruence|].
      unfold reconstructed.
      destruct (decide (stripe (place cfg L') = stripe p)) as [Hss|Hss].
      * rewrite Hss. rewrite Hpar', Hss, <- Hpar.
        set (m := data_disk (place cfg L')) in *.
        assert (m <> data_disk p) as Hmd' by congruence.
        assert (m <> parity_disk p) as Hmp' by congruence.
        assert (forall i, 0 <= i < num_devices cfg -> i <> m ->
                  in_range (disk ds i) (stripe p * block_size cfg)
                    (block_size cfg) = true) as Hothers.
        { intros i Hi Him. apply Hin; [done|].
          destruct (missing cfg i) eqn:Hmi; [|done].
          exfalso. apply Him. by apply Hone. }
        pose proof (reconstruction_kept cfg
                      (fun i => block_at cfg ds i (stripe p))
                      (parity_disk p) (data_disk p) m data
                      Hp Hd Hd' Hne ltac:(congruence) Hmp') as Hkept.
        cbv zeta in Hkept. rewrite <- Hkept; [|
          intros i Hi Him; by apply block_at_block, Hothers | done].
        rewrite HP'. unfold upd at 1. rewrite Z.eqb_refl.
        match goal with
        | |- (_, xor_all _ (_ :: ?l1)) = (_, xor_all _ (_ :: ?l2)) =>
            assert (l1 = l2) as ->; [|done]
        end.
        apply list_fmap_ext. intros n i Hi%list_elem_of_lookup_2.
        apply list_elem_of_filter in Hi as [[Hip Him] Hi%elem_of_seqZ].
        rewrite HO' by (done || lia).
        unfold upd. by destruct (Z.eqb_spec i (parity_disk p)).
      * rewrite Hframe; try (done || lia).
        2:{ intros L HL. assert (L = L0) as -> by lia. fold p. congruence. }
        match goal with
        | |- (_, xor_all _ (_ :: ?l1)) = (_, xor_all _ (_ :: ?l2)) =>
            assert (l1 = l2) as ->; [|done]
        end.
        apply list_fmap_ext. intros n i Hi%list_elem_of_lookup_2.
        apply list_elem_of_filter in Hi as [_ Hi%elem_of_seqZ].
        apply Hframe; try (done || lia).
        intros L HL. assert (L = L0) as -> by lia. fold p. congruence.
    + (* the block is read *)
      specialize (Hlog L' HL'). unfold logical in Hlog. rewrite Hlog.
      destruct (decide (L' = L0)) as [->|HLL].
      * rewrite decide_True by lia.
        by rewrite Z.sub_diag, Z.mul_0_l, Z.add_0_l, Hsl.
      * rewrite decide_False by lia. done.
Qed.

Lemma write_beside_a_missing_slot_witness :
  exists ds' old,
    xmp_write Samples.degraded 1 [1; 2; 3; 4] 4 (1 * 4) Samples.written =
      (Ret 0, ds') /\
    xmp_read Samples.degraded 1 [0; 0; 0; 0] 4 (0 * 4) Samples.written =
      (Ret (0, old), Samples.written) /\
    xmp_read Samples.degraded 1 [0; 0; 0; 0] 4 (0 * 4) ds' =
      (Ret (0, if decide (0 = 1) then [1; 2; 3; 4] else old), ds').
Proof.
  apply (write_beside_a_missing_slot Samples.degraded Samples.written
           [1; 2; 3; 4] [0; 0; 0; 0] 1 0 0 0).
  - unfold wf_config, valid_geometry, MAX_DEVICES, INT_MAX; cbn; lia.
  - intros i j Hi Hj.
    destruct (three_slots i Hi) as [-> | [-> | ->]],
      (three_slots j Hj) as [-> | [-> | ->]]; vm_compute; congruence.
  - lia.
  - cbn; lia.
  - lia.
  - cbn; lia.
  - reflexivity.
  - reflexivity.
  - reflexivity.
  - reflexivity.
  - each_slot; by vm_compute.
Defined.
